(** * SEWA village agent: the content ingestion and publishing pipeline

    A shallow embedding of [src/server.js] (the Telegram bot that classifies
    inbound messages and commits them to the GitHub content store) and of
    the loaders of [src/sewa-dynamic.js] (the page that shows what was
    committed), the properties of its specification, and further properties
    of the code.

    Layout:
    - Part I, the program: bytes, UTF-16 code units and JavaScript strings
      ([Units]); the two transport encodings [Buffer] applies in
      [updateFileOnGitHub] and [getFileFromGitHub] ([Base64], [Utf8]);
      JavaScript values and [JSON.stringify (v, null, 2)] ([Json]); the
      runtime (remote store, providers, clock) and the functions of
      [server.js] over a monad of state and exceptions ([Agent]); the
      allow-list as it is read from the environment ([Config]); the
      loaders of the page ([Site]);
    - Part II, the words the properties are stated in;
    - Part III, concrete inputs;
    - Parts IV to VI, the facts: the encodings, what each function
      computes, and the properties of the specification, each followed
      further down by its instance at a concrete input;
    - Parts VII to XI, further properties: of the classifier and the store
      client, of the collections, of the three handlers, of the
      allow-list, and of the page;
    - Part XII, their instances at concrete inputs. *)

From Stdlib Require Import NArith ZArith Lia Strings.Byte Strings.String Strings.Ascii List.
From Stdlib Require Import DecimalString DecimalPos DecimalN.
From stdpp Require Import gmap list.

#[local] Ltac Zify.zify_post_hook ::= Z.to_euclidean_division_equations.

(* ===================================================================== *)
(** ** Part I. The program *)
(* ===================================================================== *)

(** *** Bytes, code units, strings *)

Module Units.

#[local] Open Scope N_scope.

(** A JavaScript string is a sequence of 16-bit code units; a code unit is
    kept as its two bytes (high, low), so that no range side condition is
    ever needed. *)
Definition code_unit : Type := byte * byte.

Definition jsstring : Type := list code_unit.

Definition byte_of_N (n : N) : byte := default x00 (Byte.of_N (n mod 256)).

Definition cu_to_N (c : code_unit) : N := 256 * Byte.to_N c.1 + Byte.to_N c.2.

Definition cu_of_N (n : N) : code_unit := (byte_of_N (n / 256), byte_of_N n).

(** String literals of the source that are plain ASCII. *)
Definition js (s : string) : jsstring :=
  map (λ b, (x00, b)) (list_byte_of_string s).

#[global] Instance byte_eq_dec : EqDecision byte := Byte.byte_eq_dec.

#[global] Program Instance byte_countable : Countable byte :=
  inj_countable' Byte.to_N byte_of_N _.
Next Obligation.
  intros b. unfold byte_of_N.
  pose proof (Byte.to_N_bounded b).
  rewrite N.mod_small by lia. by rewrite Byte.of_to_N.
Qed.

(** [String.prototype.slice(0, n)] for a non-negative [n]: the first [n]
    code units. *)
Definition slice0 (n : nat) (s : jsstring) : jsstring := take n s.

(** [String.prototype.startsWith]. *)
Fixpoint startsWith (p s : jsstring) : bool :=
  match p, s with
  | [], _ => true
  | _ :: _, [] => false
  | a :: p', b :: s' => bool_decide (a = b) && startsWith p' s'
  end.

End Units.
Export Units.

(** *** Base64, as [Buffer] encodes and decodes it *)

Module Base64.

#[local] Open Scope N_scope.

(** The alphabet: [A-Z a-z 0-9 + /]. *)
Definition b64_char (n : N) : code_unit :=
  cu_of_N (if n <? 26 then 65 + n
           else if n <? 52 then 71 + n
           else if n <? 62 then n - 4
           else if n =? 62 then 43 else 47).

Definition pad_char : code_unit := cu_of_N 61.

Definition newline : code_unit := cu_of_N 10.

(** The value of a character. The decoder reads a code unit by its low
    byte; it accepts the URL-safe [-] and [_] as well, and gives no value
    to anything else. *)
Definition b64_value (c : code_unit) : option N :=
  let u := Byte.to_N c.2 in
  if (65 <=? u) && (u <=? 90) then Some (u - 65)
  else if (97 <=? u) && (u <=? 122) then Some (u - 71)
  else if (48 <=? u) && (u <=? 57) then Some (u + 4)
  else if (u =? 43) || (u =? 45) then Some 62
  else if (u =? 47) || (u =? 95) then Some 63
  else None.

(** [buf.toString('base64')]: three bytes give four characters, and the
    last group is padded with [=]. *)
Fixpoint base64_encode (bs : list byte) : jsstring :=
  match bs with
  | [] => []
  | [a] =>
      let a := Byte.to_N a in
      [b64_char (a / 4); b64_char (a mod 4 * 16); pad_char; pad_char]
  | [a; b] =>
      let a := Byte.to_N a in let b := Byte.to_N b in
      [b64_char (a / 4); b64_char (a mod 4 * 16 + b / 16);
       b64_char (b mod 16 * 4); pad_char]
  | a :: b :: c :: rest =>
      let a := Byte.to_N a in let b := Byte.to_N b in let c := Byte.to_N c in
      b64_char (a / 4) :: b64_char (a mod 4 * 16 + b / 16)
      :: b64_char (b mod 16 * 4 + c / 64) :: b64_char (c mod 64)
      :: base64_encode rest
  end.

(** [Buffer.from(s, 'base64')] reads the characters that have a value,
    skips every other one (white space, line breaks), and stops at the
    first [=], which it knows by its low byte too. *)
Fixpoint sextets (s : jsstring) : list N :=
  match s with
  | [] => []
  | c :: s' =>
      match b64_value c with
      | Some v => v :: sextets s'
      | None => if bool_decide (c.2 = pad_char.2) then [] else sextets s'
      end
  end.

(** Four values give three bytes; an incomplete last group gives the bytes
    it determines. *)
Fixpoint bytes_of_sextets (l : list N) : list byte :=
  match l with
  | s1 :: s2 :: s3 :: s4 :: rest =>
      byte_of_N (s1 * 4 + s2 / 16) :: byte_of_N (s2 mod 16 * 16 + s3 / 4)
      :: byte_of_N (s3 mod 4 * 64 + s4) :: bytes_of_sextets rest
  | [s1; s2; s3] =>
      [byte_of_N (s1 * 4 + s2 / 16); byte_of_N (s2 mod 16 * 16 + s3 / 4)]
  | [s1; s2] => [byte_of_N (s1 * 4 + s2 / 16)]
  | _ => []
  end.

Definition base64_decode (s : jsstring) : list byte :=
  bytes_of_sextets (sextets s).

(** The content API of the store returns base64 text broken into lines:
    a line break after every [width] characters and one at the end
    ([width = 0]: no line break at all). [k] counts the characters left on
    the current line. *)
Fixpoint wrap_from (width k : nat) (s : jsstring) : jsstring :=
  match s with
  | [] => match width with O => [] | S _ => [newline] end
  | c :: s' =>
      match width, k with
      | O, _ => c :: wrap_from width k s'
      | S _, O => newline :: c :: wrap_from width (pred width) s'
      | S _, S k' => c :: wrap_from width k' s'
      end
  end.

Definition wrap_lines (width : nat) (s : jsstring) : jsstring :=
  wrap_from width width s.

(** The values behind the characters of [base64_encode]. *)
Fixpoint enc_sextets (bs : list byte) : list N :=
  match bs with
  | [] => []
  | [a] => let a := Byte.to_N a in [a / 4; a mod 4 * 16]
  | [a; b] =>
      let a := Byte.to_N a in let b := Byte.to_N b in
      [a / 4; a mod 4 * 16 + b / 16; b mod 16 * 4]
  | a :: b :: c :: rest =>
      let a := Byte.to_N a in let b := Byte.to_N b in let c := Byte.to_N c in
      a / 4 :: (a mod 4 * 16 + b / 16) :: (b mod 16 * 4 + c / 64) :: c mod 64
      :: enc_sextets rest
  end.

Definition padding (bs : list byte) : jsstring :=
  match (length bs mod 3)%nat with
  | 1%nat => [pad_char; pad_char]
  | 2%nat => [pad_char]
  | _ => []
  end.

End Base64.
Export Base64.

(** *** UTF-8, as [Buffer.from(string)] and [buf.toString('utf-8')] do it *)

Module Utf8.

#[local] Open Scope N_scope.

Definition is_high (u : N) : bool := (0xD800 <=? u) && (u <=? 0xDBFF).

Definition is_low (u : N) : bool := (0xDC00 <=? u) && (u <=? 0xDFFF).

(** The bytes of one code point. *)
Definition encode_cp (cp : N) : list byte :=
  if cp <? 0x80 then [byte_of_N cp]
  else if cp <? 0x800 then
    [byte_of_N (0xC0 + cp / 64); byte_of_N (0x80 + cp mod 64)]
  else if cp <? 0x10000 then
    [byte_of_N (0xE0 + cp / 4096); byte_of_N (0x80 + cp / 64 mod 64);
     byte_of_N (0x80 + cp mod 64)]
  else
    [byte_of_N (0xF0 + cp / 262144); byte_of_N (0x80 + cp / 4096 mod 64);
     byte_of_N (0x80 + cp / 64 mod 64); byte_of_N (0x80 + cp mod 64)].

(** [Buffer.from(string)]: a surrogate pair is one code point, and a
    surrogate that has no partner is written as U+FFFD. *)
Fixpoint utf8_encode (s : jsstring) : list byte :=
  match s with
  | [] => []
  | c :: s' =>
      let u := cu_to_N c in
      if is_high u then
        match s' with
        | d :: s'' =>
            let v := cu_to_N d in
            if is_low v then
              encode_cp (0x10000 + (u - 0xD800) * 1024 + (v - 0xDC00))
              ++ utf8_encode s''
            else encode_cp 0xFFFD ++ utf8_encode s'
        | [] => encode_cp 0xFFFD
        end
      else if is_low u then encode_cp 0xFFFD ++ utf8_encode s'
      else encode_cp u ++ utf8_encode s'
  end.

(** The decoder is the state machine of the Encoding standard: either no
    sequence is open, or a code point is being collected, [needed]
    continuation bytes are still to come and the next one has to lie in
    [lower, upper]. *)
Inductive dec_state : Type :=
  | Clean
  | Pending (cp : N) (needed : nat) (lower upper : N).

Definition replacement : code_unit := cu_of_N 0xFFFD.

Definition emit_cp (cp : N) : jsstring :=
  if cp <? 0x10000 then [cu_of_N cp]
  else [cu_of_N (0xD800 + (cp - 0x10000) / 1024);
        cu_of_N (0xDC00 + (cp - 0x10000) mod 1024)].

Definition dec_lead (x : N) : dec_state * jsstring :=
  if x <=? 0x7F then (Clean, [cu_of_N x])
  else if (0xC2 <=? x) && (x <=? 0xDF) then (Pending (x mod 32) 1 0x80 0xBF, [])
  else if (0xE0 <=? x) && (x <=? 0xEF) then
    (Pending (x mod 16) 2 (if x =? 0xE0 then 0xA0 else 0x80)
                          (if x =? 0xED then 0x9F else 0xBF), [])
  else if (0xF0 <=? x) && (x <=? 0xF4) then
    (Pending (x mod 8) 3 (if x =? 0xF0 then 0x90 else 0x80)
                         (if x =? 0xF4 then 0x8F else 0xBF), [])
  else (Clean, [replacement]).

Definition dec_step (st : dec_state) (b : byte) : dec_state * jsstring :=
  let x := Byte.to_N b in
  match st with
  | Clean => dec_lead x
  | Pending cp needed lower upper =>
      if (lower <=? x) && (x <=? upper) then
        let cp' := cp * 64 + x mod 64 in
        match needed with
        | S (S n) => (Pending cp' (S n) 0x80 0xBF, [])
        | _ => (Clean, emit_cp cp')
        end
      else
        (* the open sequence is given up and the byte is read again *)
        let '(st', out) := dec_lead x in (st', replacement :: out)
  end.

Fixpoint utf8_dec (st : dec_state) (bs : list byte) : jsstring :=
  match bs with
  | [] => match st with Clean => [] | Pending _ _ _ _ => [replacement] end
  | b :: bs' => let '(st', out) := dec_step st b in out ++ utf8_dec st' bs'
  end.

Definition utf8_decode (bs : list byte) : jsstring := utf8_dec Clean bs.

(** A string is well formed when every surrogate is half of a pair. *)
Fixpoint well_formed (s : jsstring) : bool :=
  match s with
  | [] => true
  | c :: s' =>
      if is_high (cu_to_N c) then
        match s' with
        | d :: s'' => is_low (cu_to_N d) && well_formed s''
        | [] => false
        end
      else negb (is_low (cu_to_N c)) && well_formed s'
  end.

End Utf8.
Export Utf8.

(** *** JavaScript values and [JSON.stringify] *)

Module Json.

#[local] Open Scope N_scope.
#[local] Set Warnings "-register-all".

Inductive value : Type :=
  | VUndef
  | VNull
  | VBool (b : bool)
  | VNum (repr : string)
  | VStr (s : jsstring)
  | VArr (items : list value)
  | VObj (props : list (jsstring * value)).

(** [Date.now()] and the like as a number. *)
Definition decimal (n : N) : string := NilEmpty.string_of_uint (N.to_uint n).

Definition VInt (n : N) : value := VNum (decimal n).

Inductive exn : Type :=
  | TypeError
  | SyntaxError
  | NoAIService                          (* [new Error('No AI service available')] *)
  | External (status : option N) (id : nat).
                                         (* an error of a remote service *)

Definition exn_status (e : exn) : option N :=
  match e with External st _ => st | _ => None end.

Fixpoint assoc (k : jsstring) (ps : list (jsstring * value)) : option value :=
  match ps with
  | [] => None
  | (k', x) :: ps' => if bool_decide (k' = k) then Some x else assoc k ps'
  end.

Fixpoint assoc_set (k : jsstring) (x : value) (ps : list (jsstring * value))
  : list (jsstring * value) :=
  match ps with
  | [] => [(k, x)]
  | (k', y) :: ps' =>
      if bool_decide (k' = k) then (k', x) :: ps' else (k', y) :: assoc_set k x ps'
  end.

(** [v.k] for the property names the program reads ([category], [tags],
    the titles and descriptions, [priority]): reading from [null] or
    [undefined] throws, an object gives its own property, and a primitive
    or an array has none of these names. *)
Definition get_prop (v : value) (k : string) : exn + value :=
  match v with
  | VUndef | VNull => inl TypeError
  | VObj ps => inr (default VUndef (assoc (js k) ps))
  | _ => inr VUndef
  end.

(** [v.k = x]: throws on [null] and [undefined], is silently dropped on a
    primitive (the module is not in strict mode). On an array the new
    property is not kept here: its only reader, [addNewsToWebsite], fails on
    [title_english.slice], which an array never has, before it looks at the
    record again. *)
Definition set_prop (v : value) (k : string) (x : value) : exn + value :=
  match v with
  | VUndef | VNull => inl TypeError
  | VObj ps => inr (VObj (assoc_set (js k) x ps))
  | _ => inr v
  end.

(** [v.slice(0, n)]: strings and arrays have the method. *)
Definition slice_value (n : nat) (v : value) : exn + value :=
  match v with
  | VStr s => inr (VStr (take n s))
  | VArr l => inr (VArr (take n l))
  | _ => inl TypeError
  end.

(** Whether [ToString] (as a template literal applies it) returns: a plain
    object with an own [toString] property, which after [JSON.parse] is no
    function, cannot be converted; an array converts its items. *)
Fixpoint to_string_ok (v : value) : bool :=
  match v with
  | VObj ps => bool_decide (assoc (js "toString") ps = None)
  | VArr l => forallb to_string_ok l
  | _ => true
  end.

Definition truthy_string (s : jsstring) : bool :=
  match s with [] => false | _ => true end.

(** [a || b] on strings that may be [undefined]. *)
Definition or_else (a b : option jsstring) : option jsstring :=
  match a with
  | Some s => if truthy_string s then a else b
  | None => b
  end.

Definition hex_digit (n : N) : code_unit :=
  cu_of_N (if n <? 10 then 48 + n else 87 + n).

(** Four lower-case hexadecimal digits after [\u]. *)
Definition unicode_escape (u : N) : jsstring :=
  js "\u" ++ [hex_digit (u / 4096 mod 16); hex_digit (u / 256 mod 16);
              hex_digit (u / 16 mod 16); hex_digit (u mod 16)].

Definition escape_unit (c : code_unit) : jsstring :=
  let u := cu_to_N c in
  if u =? 8 then js "\b"
  else if u =? 9 then js "\t"
  else if u =? 10 then js "\n"
  else if u =? 12 then js "\f"
  else if u =? 13 then js "\r"
  else if u =? 34 then [cu_of_N 92; cu_of_N 34]
  else if u =? 92 then [cu_of_N 92; cu_of_N 92]
  else if u <? 32 then unicode_escape u
  else [c].

(** [QuoteJSONString] walks the code points: a surrogate pair is copied,
    a surrogate on its own is escaped. *)
Fixpoint quote_body (s : jsstring) : jsstring :=
  match s with
  | [] => []
  | c :: s' =>
      let u := cu_to_N c in
      if is_high u then
        match s' with
        | d :: s'' =>
            if is_low (cu_to_N d) then c :: d :: quote_body s''
            else unicode_escape u ++ quote_body s'
        | [] => unicode_escape u
        end
      else if is_low u then unicode_escape u ++ quote_body s'
      else escape_unit c ++ quote_body s'
  end.

Definition quote (s : jsstring) : jsstring :=
  cu_of_N 34 :: quote_body s ++ [cu_of_N 34].

Definition number_text (repr : string) : jsstring :=
  if bool_decide (repr = "NaN"%string) || bool_decide (repr = "Infinity"%string)
     || bool_decide (repr = "-Infinity"%string)
  then js "null" else js repr.

Definition spaces (n : nat) : jsstring := replicate n (cu_of_N 32).

Fixpoint join (sep : jsstring) (parts : list jsstring) : jsstring :=
  match parts with
  | [] => []
  | [p] => p
  | p :: ps => p ++ sep ++ join sep ps
  end.

(** An array or object at indentation [ind]: one item per line, two
    spaces deeper. *)
Definition block (opening closing : string) (ind : nat) (items : list jsstring)
  : jsstring :=
  match items with
  | [] => js opening ++ js closing
  | _ =>
      js opening ++ [newline] ++ spaces (ind + 2)
      ++ join ([cu_of_N 44; newline] ++ spaces (ind + 2)) items
      ++ [newline] ++ spaces ind ++ js closing
  end.

(** [None] is [undefined]: such a property is left out of an object, and
    such an item is written [null] in an array. *)
Fixpoint serialize (ind : nat) (v : value) : option jsstring :=
  match v with
  | VUndef => None
  | VNull => Some (js "null")
  | VBool b => Some (js (if b then "true" else "false"))
  | VNum r => Some (number_text r)
  | VStr s => Some (quote s)
  | VArr l =>
      Some (block "[" "]" ind
              (map (λ x, default (js "null") (serialize (ind + 2) x)) l))
  | VObj ps =>
      Some (block "{" "}" ind
              (flat_map (λ kv,
                 match serialize (ind + 2) kv.2 with
                 | Some t => [quote kv.1 ++ js ": " ++ t]
                 | None => []
                 end) ps))
  end.

(** [JSON.stringify(items, null, 2)] of an array, which is always a
    string. *)
Definition JSON_stringify (items : list value) : jsstring :=
  default [] (serialize 0 (VArr items)).

End Json.
Export Json.

(** *** The agent: runtime, store client, classifier, handlers *)

Module Agent.

(** **** What the program talks to *)

(** A file of the repository: its bytes and its blob hash. *)
Record file : Type := { file_bytes : list byte; file_sha : jsstring }.

(** An entry of [config.telegram.adminIds]: what [parseInt] returned. *)
Inductive jsnum : Type := NaN | Int (z : Z).

#[global] Instance jsnum_eq_dec : EqDecision jsnum.
Proof. solve_decision. Defined.

(** The prompt is a fixed template around the text and the flag. *)
Record prompt : Type := { prompt_text : option jsstring; prompt_hasImage : bool }.

(** Commit messages and replies are templates too; they are kept as the
    template and the values put into it. *)
Inductive commit_message : Type :=
  | MsgAddImage (filename : jsstring)
  | MsgAddNews (title : value)
  | MsgAddGallery (title : value)
  | MsgAddDocument (file_name : option jsstring).

(** The parameters of [octokit.rest.repos.createOrUpdateFileContents];
    [put_sha = None] when [params.sha] was never set. *)
Record put_request : Type := {
  put_path : jsstring;
  put_message : commit_message;
  put_content : jsstring;
  put_sha : option jsstring
}.

Inductive handler : Type := HText | HPhoto | HDocument.

Inductive reply : Type :=
  | RNotAuthorized (h : handler)
  | RProcessing (h : handler)
  | RTextAck (category title : value) (newsId : jsstring)
  | RPhotoAck (category title : value) (imagePath : jsstring)
  | RDocumentAck (file_name : option jsstring) (path : jsstring)
  | RError (h : handler) (e : exn).

(** Everything the process does to the outside, in order. *)
Inductive event : Type :=
  | EReply (r : reply)
  | EOpenAI (p : prompt)
  | EGemini (p : prompt)
  | EGetContent (path : jsstring)
  | EPut (req : put_request)
  | EGetFileLink (file_id : jsstring)
  | EDownload (url : jsstring).

(** The state: the remote repository, a counter of the questions asked to
    the environment so far, and the events so far. *)
Record world : Type := {
  store : gmap jsstring file;
  tick : nat;
  trace : list event
}.

(** The environment: configuration, the library functions the program
    calls, and the remote services. A service or a clock may answer
    differently each time, so its answer depends on [tick]. *)
Record Env : Type := {
  adminIds : list jsnum;
  openai : option (nat → prompt → exn + jsstring);
      (* [response.choices[0].message.content], or what the call threw *)
  genAI : option (nat → prompt → exn + jsstring);
      (* [result.response.text()], or what the call threw *)
  JSON_parse : jsstring → option value;     (* [None]: a SyntaxError *)
  clock : nat → N;                          (* [Date.now()] *)
  locale_date : N → jsstring;               (* [toLocaleDateString('hi-IN')] *)
  random : nat → list byte;                 (* the 16 random bytes of a uuid *)
  transport_fault : nat → option exn;       (* a request to the store fails *)
  store_rejects : gmap jsstring file → put_request → option exn;
      (* the store refuses the write (stale or missing version token) *)
  blob_sha : list byte → jsstring;
  line_width : nat;                         (* of the base64 text it returns *)
  file_link : nat → jsstring → exn + jsstring;  (* [getFileLink(id).href] *)
  download : nat → jsstring → exn + list byte;  (* [axios.get(url).data] *)
  sharp : list byte → exn + list byte;      (* resize and re-encode as JPEG *)
  reply_fault : nat → reply → option exn    (* Telegram refuses the message *)
}.

(** **** The monad of the handlers: state and exceptions *)

Definition M (A : Type) : Type := world → (exn + A) * world.

Definition ret {A} (a : A) : M A := λ w, (inr a, w).

Definition throw {A} (e : exn) : M A := λ w, (inl e, w).

Definition bind {A B} (m : M A) (f : A → M B) : M B :=
  λ w, match m w with
       | (inr a, w') => f a w'
       | (inl e, w') => (inl e, w')
       end.

Definition try_catch {A} (m : M A) (h : exn → M A) : M A :=
  λ w, match m w with
       | (inr a, w') => (inr a, w')
       | (inl e, w') => h e w'
       end.

Definition lift {A} (r : exn + A) : M A := λ w, (r, w).

Notation "'let*' x ':=' m 'in' k" := (bind m (λ x, k))
  (at level 10, x name, m at level 100, k at level 200, only parsing).

Definition bump (w : world) : world :=
  {| store := store w; tick := S (tick w); trace := trace w |}.

Definition record_event (e : event) (w : world) : world :=
  {| store := store w; tick := tick w; trace := trace w ++ [e] |}.

(** A template literal converts each value with [ToString]. *)
Definition check_string (v : value) : M unit :=
  if to_string_ok v then ret tt else throw TypeError.

Section WithEnv.

Context (E : Env).

(** **** Replies *)

(** What comes of a message handed to Telegram: it is delivered, or the
    request is refused (a text that is too long, a chat that is gone, too
    many requests) and the promise is rejected with the error. *)
Definition sendMessage (t : nat) (r : reply) : exn + unit :=
  match reply_fault E t r with Some e => inl e | None => inr tt end.

(** [await ctx.reply(...)], and [return ctx.reply(...)] at the end of an
    [async] function: the outcome of the request is the outcome of the
    step. *)
Definition reply_with (r : reply) : M unit :=
  λ w, (sendMessage (tick w) r, record_event (EReply r) w).

(** [ctx.reply(...)] as the [catch] blocks call it, without [await]: the
    message is handed over and the handler returns, whatever comes of
    it. *)
Definition reply_unawaited (r : reply) : M unit :=
  λ w, (inr tt, record_event (EReply r) w).

(** **** Clock and identifiers *)

Definition Date_now : M N := λ w, (inr (clock E (tick w)), bump w).

Definition toLocaleDateString : M jsstring :=
  λ w, (inr (locale_date E (clock E (tick w))), bump w).

Definition hex2 (b : N) : jsstring := [hex_digit (b / 16); hex_digit (b mod 16)].

(** [uuidv4()]: sixteen random bytes, the version and variant bits set,
    written as hexadecimal in groups of 8-4-4-4-12. *)
Definition uuid_string (rnd : list byte) : jsstring :=
  let b i := Byte.to_N (nth i rnd x00) in
  let dash := js "-" in
  (hex2 (b 0%nat) ++ hex2 (b 1%nat) ++ hex2 (b 2%nat) ++ hex2 (b 3%nat) ++ dash
   ++ hex2 (b 4%nat) ++ hex2 (b 5%nat) ++ dash
   ++ hex2 (0x40 + b 6%nat mod 16) ++ hex2 (b 7%nat) ++ dash
   ++ hex2 (0x80 + b 8%nat mod 64) ++ hex2 (b 9%nat) ++ dash
   ++ hex2 (b 10%nat) ++ hex2 (b 11%nat) ++ hex2 (b 12%nat)
   ++ hex2 (b 13%nat) ++ hex2 (b 14%nat) ++ hex2 (b 15%nat))%N.

Definition uuidv4 : M jsstring :=
  λ w, (inr (uuid_string (random E (tick w))), bump w).

(** **** GitHub functions *)

(** [octokit.rest.repos.getContent]: the base64 text of the file and its
    hash; a missing file is an error of status 404. *)
Definition octokit_getContent (path : jsstring) : M (jsstring * jsstring) :=
  λ w,
    let w' := record_event (EGetContent path) (bump w) in
    match transport_fault E (tick w) with
    | Some e => (inl e, w')
    | None =>
        match store w !! path with
        | None => (inl (External (Some 404%N) 0), w')
        | Some f =>
            (inr (wrap_lines (line_width E) (base64_encode (file_bytes f)),
                  file_sha f), w')
        end
    end.

(** [octokit.rest.repos.createOrUpdateFileContents]: unless the request
    fails or is refused, the file at the path now holds the decoded
    content. *)
Definition octokit_createOrUpdateFileContents (req : put_request) : M unit :=
  λ w,
    let w' := record_event (EPut req) (bump w) in
    match transport_fault E (tick w) with
    | Some e => (inl e, w')
    | None =>
        match store_rejects E (store w) req with
        | Some e => (inl e, w')
        | None =>
            let bytes := base64_decode (put_content req) in
            (inr tt,
             {| store := <[put_path req :=
                             {| file_bytes := bytes;
                                file_sha := blob_sha E bytes |}]> (store w);
                tick := tick w'; trace := trace w' |})
        end
    end.

Definition getFileFromGitHub (path : jsstring)
  : M (option jsstring * option jsstring) :=
  try_catch
    (let* response := octokit_getContent path in
     let content := utf8_decode (base64_decode response.1) in
     ret (Some content, Some response.2))
    (λ error,
       if bool_decide (exn_status error = Some 404%N) then ret (None, None)
       else throw error).

(** The [content] argument is a string or a [Buffer]. *)
Inductive content : Type :=
  | Text (s : jsstring)
  | Bytes (b : list byte).

Definition Buffer_from (c : content) : list byte :=
  match c with Text s => utf8_encode s | Bytes b => b end.

Definition truthy_sha (sha : option jsstring) : bool :=
  match sha with Some s => truthy_string s | None => false end.

Definition updateFileOnGitHub (path : jsstring) (c : content)
    (message : commit_message) (sha : option jsstring) : M unit :=
  let params :=
    {| put_path := path;
       put_message := message;
       put_content := base64_encode (Buffer_from c);
       put_sha := if truthy_sha sha then sha else None |} in
  octokit_createOrUpdateFileContents params.

Definition uploadImageToGitHub (imageBuffer : list byte) (filename : jsstring)
  : M jsstring :=
  let* optimizedBuffer := lift (sharp E imageBuffer) in
  let path := js "images/" ++ filename in
  let* _ := updateFileOnGitHub path (Bytes optimizedBuffer)
              (MsgAddImage filename) None in
  ret path.

(** **** AI functions *)

Definition open_brace : code_unit := cu_of_N 123.

Definition close_brace : code_unit := cu_of_N 125.

(** [text.match(/\{[\s\S]*\}/)]: from the first [{] to the last [}] that
    follows it. *)
Fixpoint after_first_open (s : jsstring) : option jsstring :=
  match s with
  | [] => None
  | c :: s' => if bool_decide (c = open_brace) then Some s' else after_first_open s'
  end.

Fixpoint up_to_last_close (s : jsstring) : option jsstring :=
  match s with
  | [] => None
  | c :: s' =>
      match up_to_last_close s' with
      | Some p => Some (c :: p)
      | None => if bool_decide (c = close_brace) then Some [c] else None
      end
  end.

Definition match_object (s : jsstring) : option jsstring :=
  match after_first_open s with
  | None => None
  | Some rest =>
      match up_to_last_close rest with
      | Some p => Some (open_brace :: p)
      | None => None
      end
  end.

Definition parse (s : jsstring) : M value :=
  match JSON_parse E s with
  | Some v => ret v
  | None => throw SyntaxError
  end.

Definition openai_create (create : nat → prompt → exn + jsstring) (p : prompt)
  : M jsstring :=
  λ w, (create (tick w) p, record_event (EOpenAI p) (bump w)).

Definition gemini_generate (generate : nat → prompt → exn + jsstring)
    (p : prompt) : M jsstring :=
  λ w, (generate (tick w) p, record_event (EGemini p) (bump w)).

(** The record of the [catch] block. *)
Definition default_analysis (text : jsstring) (hasImage : bool) : value :=
  VObj [ (js "category", VStr (js (if hasImage then "gallery" else "news")));
         (js "title_hindi", VStr (slice0 50 text));
         (js "title_english", VStr (slice0 50 text));
         (js "description_hindi", VStr text);
         (js "description_english", VStr text);
         (js "suggested_section", VStr (js "general"));
         (js "priority", VStr (js "medium"));
         (js "tags", VArr []) ].

Definition analyzeContent (text : option jsstring) (hasImage : bool) : M value :=
  let prompt := {| prompt_text := text; prompt_hasImage := hasImage |} in
  try_catch
    (match openai E with
     | Some create =>
         (* Try OpenAI first *)
         let* content := openai_create create prompt in
         parse content
     | None =>
         match genAI E with
         | Some generate =>
             (* Fallback to Gemini *)
             let* answer := gemini_generate generate prompt in
             match match_object answer with
             | Some jsonMatch => parse jsonMatch
             | None => throw NoAIService
             end
         | None => throw NoAIService
         end
     end)
    (λ _,
       (* Return default categorization; [text.slice] needs a string *)
       match text with
       | Some t => ret (default_analysis t hasImage)
       | None => throw TypeError
       end).

(** **** Website update functions *)

Definition news_path : jsstring := js "data/news.json".

Definition gallery_path : jsstring := js "data/gallery.json".

(** [let data = []; if (content) { try { data = JSON.parse(content) }
    catch (e) { data = [] } }] *)
Definition parse_collection (content : option jsstring) : value :=
  match content with
  | Some c =>
      if truthy_string c then default (VArr []) (JSON_parse E c) else VArr []
  | None => VArr []
  end.

(** [data.unshift(record)] goes in three steps. The method is looked up,
    which throws on [null]; the record is built, which asks the clock; and
    the call is made, which throws when what was looked up is no function:
    [unshift] is there for arrays only. *)
Definition lookup_unshift (data : value) : M unit :=
  match data with
  | VUndef | VNull => throw TypeError
  | _ => ret tt
  end.

Definition as_array (data : value) : M (list value) :=
  match data with
  | VArr items => ret items
  | _ => throw TypeError
  end.

Definition image_value (imagePath : option jsstring) : value :=
  match imagePath with Some p => VStr p | None => VNull end.

Definition news_record (newsId date : jsstring) (timestamp : N)
    (title_hindi title_english description_hindi description_english : value)
    (imagePath : option jsstring) (category priority tags : value) : value :=
  VObj [ (js "id", VStr newsId);
         (js "date", VStr date);
         (js "timestamp", VInt timestamp);
         (js "title_hindi", title_hindi);
         (js "title_english", title_english);
         (js "description_hindi", description_hindi);
         (js "description_english", description_english);
         (js "image", image_value imagePath);
         (js "category", category);
         (js "priority", priority);
         (js "tags", tags) ].

(** [newsData.unshift(record); newsData = newsData.slice(0, 50)] *)
Definition unshift_and_trim (record : value) (newsData : list value) : list value :=
  take 50 (record :: newsData).

Definition addNewsToWebsite (analysis : value) (imagePath : option jsstring)
  : M jsstring :=
  let* u := uuidv4 in
  let newsId := slice0 8 u in
  let* date := toLocaleDateString in
  (* the HTML snippet reads and prints four properties *)
  let* title_hindi := lift (get_prop analysis "title_hindi") in
  let* _ := check_string title_hindi in
  let* title_english := lift (get_prop analysis "title_english") in
  let* _ := check_string title_english in
  let* description_hindi := lift (get_prop analysis "description_hindi") in
  let* _ := check_string description_hindi in
  let* description_english := lift (get_prop analysis "description_english") in
  let* _ := check_string description_english in
  (* Get current news data file or create new one *)
  let* r := getFileFromGitHub news_path in
  let '(content, sha) := r in
  let newsData := parse_collection content in
  (* Add new news item *)
  let* _ := lookup_unshift newsData in
  let* timestamp := Date_now in
  let* category := lift (get_prop analysis "category") in
  let* priority := lift (get_prop analysis "priority") in
  let* tags := lift (get_prop analysis "tags") in
  let record :=
    news_record newsId date timestamp title_hindi title_english
      description_hindi description_english imagePath category priority tags in
  let* newsData := as_array newsData in
  (* Keep only last 50 news items *)
  let newsData := unshift_and_trim record newsData in
  let* title := lift (slice_value 50 title_english) in
  let* _ := check_string title in
  let* _ := updateFileOnGitHub news_path (Text (JSON_stringify newsData))
              (MsgAddNews title) sha in
  ret newsId.

Definition gallery_record (photoId imagePath : jsstring)
    (title_hindi title_english category tags : value) (timestamp : N)
    (date : jsstring) : value :=
  VObj [ (js "id", VStr photoId);
         (js "path", VStr imagePath);
         (js "title_hindi", title_hindi);
         (js "title_english", title_english);
         (js "category", category);
         (js "tags", tags);
         (js "timestamp", VInt timestamp);
         (js "date", VStr date) ].

Definition addPhotoToGallery (imagePath : jsstring) (analysis : value)
  : M jsstring :=
  let* r := getFileFromGitHub gallery_path in
  let '(content, sha) := r in
  let* u := uuidv4 in
  let photoId := slice0 8 u in
  let galleryData := parse_collection content in
  let* _ := lookup_unshift galleryData in
  let* title_hindi := lift (get_prop analysis "title_hindi") in
  let* title_english := lift (get_prop analysis "title_english") in
  let* category := lift (get_prop analysis "category") in
  let* tags := lift (get_prop analysis "tags") in
  let* timestamp := Date_now in
  let* date := toLocaleDateString in
  let record :=
    gallery_record photoId imagePath title_hindi title_english category tags
      timestamp date in
  let* galleryData := as_array galleryData in
  let* title := lift (slice_value 30 title_english) in
  let* _ := check_string title in
  let* _ := updateFileOnGitHub gallery_path
              (Text (JSON_stringify (record :: galleryData)))
              (MsgAddGallery title) sha in
  ret photoId.

(** **** Telegram bot handlers *)

(** [adminIds.includes(userId)]: [userId] is an integer or [undefined]. *)
Definition includes (ids : list jsnum) (userId : option Z) : bool :=
  match userId with
  | Some z => bool_decide (Int z ∈ ids)
  | None => false
  end.

Definition isAdmin (userId : option Z) : bool :=
  (* If no admin IDs configured, allow all (for testing) *)
  if bool_decide (length (adminIds E) = 0%nat) then true
  else includes (adminIds E) userId.

Record text_message : Type := {
  text_from : option Z;                (* [ctx.from?.id] *)
  text_body : jsstring                 (* [ctx.message.text] *)
}.

Record photo_message : Type := {
  photo_from : option Z;
  photo_sizes : list jsstring;         (* the [file_id] of each size *)
  photo_caption : option jsstring
}.

Record document_message : Type := {
  document_from : option Z;
  document_file_id : jsstring;
  document_file_name : option jsstring;
  document_caption : option jsstring
}.

Definition getFileLink (file_id : jsstring) : M jsstring :=
  λ w, (file_link E (tick w) file_id, record_event (EGetFileLink file_id) (bump w)).

Definition axios_get (url : jsstring) : M (list byte) :=
  λ w, (download E (tick w) url, record_event (EDownload url) (bump w)).

Definition on_text (ctx : text_message) : M unit :=
  if negb (isAdmin (text_from ctx)) then reply_with (RNotAuthorized HText)
  else
    let text := text_body ctx in
    (* Skip commands *)
    if startsWith (js "/") text then ret tt
    else
      try_catch
        (let* _ := reply_with (RProcessing HText) in
         let* analysis := analyzeContent (Some text) false in
         let* newsId := addNewsToWebsite analysis None in
         let* category := lift (get_prop analysis "category") in
         let* _ := check_string category in
         let* title_hindi := lift (get_prop analysis "title_hindi") in
         let* _ := check_string title_hindi in
         reply_with (RTextAck category title_hindi newsId))
        (λ error, reply_unawaited (RError HText error)).

(** [v === 's'] *)
Definition is_string (v : value) (s : string) : bool :=
  match v with
  | VStr t => bool_decide (t = js s)
  | _ => false
  end.

Definition image_filename (now : N) (u : jsstring) : jsstring :=
  js (decimal now) ++ js "_" ++ slice0 8 u ++ js ".jpg".

Definition on_photo (ctx : photo_message) : M unit :=
  if negb (isAdmin (photo_from ctx)) then reply_with (RNotAuthorized HPhoto)
  else
    try_catch
      (let* _ := reply_with (RProcessing HPhoto) in
       (* Get highest resolution photo *)
       let photo := last (photo_sizes ctx) in
       let caption := or_else (photo_caption ctx) (Some (js "Village Photo")) in
       let* file_id := match photo with Some id => ret id | None => throw TypeError end in
       let* href := getFileLink file_id in
       let* imageBuffer := axios_get href in
       let* analysis := analyzeContent caption true in
       let* now := Date_now in
       let* u := uuidv4 in
       let filename := image_filename now u in
       let* imagePath := uploadImageToGitHub imageBuffer filename in
       let* category := lift (get_prop analysis "category") in
       (* Add to appropriate section *)
       let* _ :=
         if is_string category "gallery" || is_string category "heritage"
         then addPhotoToGallery imagePath analysis
         else addNewsToWebsite analysis (Some imagePath) in
       let* _ := check_string category in
       let* title_hindi := lift (get_prop analysis "title_hindi") in
       let* _ := check_string title_hindi in
       reply_with (RPhotoAck category title_hindi imagePath))
      (λ error, reply_unawaited (RError HPhoto error)).

(** [`documents/${doc.file_name}`] *)
Definition document_path (file_name : option jsstring) : jsstring :=
  js "documents/" ++ default (js "undefined") file_name.

Definition on_document (ctx : document_message) : M unit :=
  if negb (isAdmin (document_from ctx)) then reply_with (RNotAuthorized HDocument)
  else
    try_catch
      (let* _ := reply_with (RProcessing HDocument) in
       let file_name := document_file_name ctx in
       let caption := or_else (document_caption ctx) file_name in
       let* href := getFileLink (document_file_id ctx) in
       let* docBuffer := axios_get href in
       let path := document_path file_name in
       let* _ := updateFileOnGitHub path (Bytes docBuffer)
                   (MsgAddDocument file_name) None in
       let* analysis := analyzeContent caption false in
       let* analysis := lift (set_prop analysis "category" (VStr (js "document"))) in
       let* _ := addNewsToWebsite analysis None in
       reply_with (RDocumentAck file_name path))
      (λ error, reply_unawaited (RError HDocument error)).

End WithEnv.

End Agent.
Export Agent.

(** *** The configuration: the allow-list read from the environment *)

Module Config.

#[local] Open Scope N_scope.

Definition comma : code_unit := cu_of_N 44.

(** [String.prototype.split] at a code unit: the pieces between the
    separators, one piece at least. *)
Fixpoint String_split (sep : code_unit) (s : jsstring) : list jsstring :=
  match s with
  | [] => [[]]
  | c :: s' =>
      if bool_decide (c = sep) then [] :: String_split sep s'
      else
        match String_split sep s' with
        | p :: ps => (c :: p) :: ps
        | [] => [[c]]
        end
  end.

(** White space and line terminators of the language. *)
Definition is_white_space (c : code_unit) : bool :=
  let u := cu_to_N c in
  ((0x9 <=? u) && (u <=? 0xD)) || (u =? 0x20) || (u =? 0xA0) || (u =? 0x1680)
  || ((0x2000 <=? u) && (u <=? 0x200A)) || (u =? 0x2028) || (u =? 0x2029)
  || (u =? 0x202F) || (u =? 0x205F) || (u =? 0x3000) || (u =? 0xFEFF).

Fixpoint trimStart (s : jsstring) : jsstring :=
  match s with
  | c :: s' => if is_white_space c then trimStart s' else s
  | [] => []
  end.

Definition trimEnd (s : jsstring) : jsstring :=
  reverse (trimStart (reverse s)).

(** [String.prototype.trim] *)
Definition trim (s : jsstring) : jsstring := trimEnd (trimStart s).

(** The value of a digit or letter as a digit, up to base 36. *)
Definition digit_value (c : code_unit) : option N :=
  let u := cu_to_N c in
  if (48 <=? u) && (u <=? 57) then Some (u - 48)
  else if (97 <=? u) && (u <=? 122) then Some (u - 87)
  else if (65 <=? u) && (u <=? 90) then Some (u - 55)
  else None.

(** The digits of the radix that the string begins with. *)
Fixpoint leading_digits (radix : N) (s : jsstring) : list N :=
  match s with
  | [] => []
  | c :: s' =>
      match digit_value c with
      | Some d => if d <? radix then d :: leading_digits radix s' else []
      | None => []
      end
  end.

Definition digits_value (radix : N) (ds : list N) : N :=
  fold_left (λ n d, n * radix + d) ds 0.

(** The Number next to a natural number, ties going to the even
    significand: a Number has 53 significant bits, and from [2 ^ 1024] on
    it is [Infinity], which is [None] here. *)
Definition to_double (n : N) : option N :=
  let size := N.size n in
  if size <=? 53 then Some n
  else
    let e := size - 53 in
    let q := n / 2 ^ e in
    let r := n mod 2 ^ e in
    let half := 2 ^ (e - 1) in
    let q' := if (half <? r) || ((r =? half) && N.odd q) then q + 1 else q in
    if 2 ^ 1024 <=? q' * 2 ^ e then None else Some (q' * 2 ^ e).

(** A Number that [parseInt] can return; [-0] is kept as [0], from which
    [includes] does not tell it apart. *)
Inductive number : Type :=
  | NotANumber
  | Infinite (negative : bool)
  | Integer (z : Z).

(** A leading [-] or [+]. *)
Definition strip_sign (s : jsstring) : bool * jsstring :=
  match s with
  | c :: s' =>
      if bool_decide (c = cu_of_N 45) then (true, s')
      else if bool_decide (c = cu_of_N 43) then (false, s')
      else (false, s)
  | [] => (false, [])
  end.

(** A leading [0x] or [0X] makes the radix 16. *)
Definition strip_prefix (s : jsstring) : N * jsstring :=
  match s with
  | c0 :: c1 :: s' =>
      if bool_decide (c0 = cu_of_N 48)
         && (bool_decide (c1 = cu_of_N 120) || bool_decide (c1 = cu_of_N 88))
      then (16, s')
      else (10, s)
  | _ => (10, s)
  end.

Definition parse_digits (negative : bool) (radix : N) (s : jsstring) : number :=
  match leading_digits radix s with
  | [] => NotANumber
  | ds =>
      match to_double (digits_value radix ds) with
      | Some n => Integer (if negative then - Z.of_N n else Z.of_N n)
      | None => Infinite negative
      end
  end.

(** [parseInt(string)] without a radix: white space, a sign, [0x] or [0X]
    for base 16, and then the longest run of digits; what follows the
    digits is ignored. *)
Definition parseInt (string : jsstring) : number :=
  let '(negative, s) := strip_sign (trimStart string) in
  let '(radix, s) := strip_prefix s in
  parse_digits negative radix s.

(** An entry of the allow-list. [jsnum] has no infinity: an infinite entry
    is kept as [NaN], which like it is equal to no user id. *)
Definition entry (n : number) : jsnum :=
  match n with Integer z => Int z | _ => NaN end.

(** [process.env.ADMIN_IDS?.split(',').map(id => parseInt(id.trim())) || []]:
    the variable is a string or is not set. *)
Definition adminIds_of (ADMIN_IDS : option jsstring) : list jsnum :=
  match ADMIN_IDS with
  | Some s => map (λ id, entry (parseInt (trim id))) (String_split comma s)
  | None => []
  end.

End Config.
Export Config.

(** *** The page: the loader of [sewa-dynamic.js] *)

Module Site.

(** Whether a value counts as true; a number is kept as the text
    [ToString] gives it. *)
Definition truthy (v : value) : bool :=
  match v with
  | VUndef | VNull => false
  | VBool b => b
  | VNum r =>
      negb (bool_decide (r = "0"%string) || bool_decide (r = "-0"%string)
            || bool_decide (r = "NaN"%string))
  | VStr s => truthy_string s
  | VArr _ | VObj _ => true
  end.

(** [`${item.k}`]: reading from [null] throws, and so does printing an
    object that has a [toString] of its own. None of the names the loader
    reads is a property of a prototype. *)
Definition shown (item : value) (k : string) : exn + value :=
  match get_prop item k with
  | inr v => if to_string_ok v then inr v else inl TypeError
  | inl e => inl e
  end.

Definition and_then {A B} (r : exn + A) (f : A → exn + B) : exn + B :=
  match r with inr a => f a | inl e => inl e end.

Notation "'do*' x ':=' r 'in' k" := (and_then r (λ x, k))
  (at level 10, x name, r at level 100, k at level 200, only parsing).

(** The markup of a news item is the template with these values in it. *)
Record news_card : Type := {
  card_high : bool;                    (* the class [news-priority] *)
  card_id : value;
  card_date : value;
  card_title_hindi : value;
  card_title_english : value;
  card_image : option value;           (* the source of the [<img>] *)
  card_description_hindi : value;
  card_category : value
}.

Definition news_card_of (item : value) : exn + news_card :=
  do* priority := get_prop item "priority" in
  do* id := shown item "id" in
  do* date := shown item "date" in
  do* title_hindi := shown item "title_hindi" in
  do* title_english := shown item "title_english" in
  do* image := get_prop item "image" in
  do* img :=
    (if truthy image then
       do* src := shown item "image" in
       do* alt := shown item "title_hindi" in
       inr (Some src)
     else inr None) in
  do* description_hindi := shown item "description_hindi" in
  do* category := shown item "category" in
  inr {| card_high := is_string priority "high";
         card_id := id;
         card_date := date;
         card_title_hindi := title_hindi;
         card_title_english := title_english;
         card_image := img;
         card_description_hindi := description_hindi;
         card_category := category |}.

Record gallery_card : Type := {
  photo_id : value;
  photo_src : value;
  photo_title_hindi : value;
  photo_date : value
}.

Definition gallery_card_of (item : value) : exn + gallery_card :=
  do* id := shown item "id" in
  do* path := shown item "path" in
  do* title_hindi := shown item "title_hindi" in
  do* date := shown item "date" in
  inr {| photo_id := id;
         photo_src := path;
         photo_title_hindi := title_hindi;
         photo_date := date |}.

(** [data.slice(0, n)] as the receiver of [map]: an array has both
    methods, a string has [slice] and no [map]. *)
Definition first_items (n : nat) (data : value) : exn + list value :=
  match slice_value n data with
  | inr (VArr l) => inr l
  | inr _ => inl TypeError
  | inl e => inl e
  end.

(** [items.map(f)], where [f] may throw. *)
Fixpoint map_items {A} (f : value → exn + A) (items : list value)
  : exn + list A :=
  match items with
  | [] => inr []
  | x :: items' =>
      do* a := f x in
      do* l := map_items f items' in
      inr (a :: l)
  end.

(** What a container holds: the markup the page came with, or a list the
    loader put there. *)
Inductive html : Type :=
  | Markup (static : jsstring)
  | NewsList (cards : list news_card)
  | GalleryList (cards : list gallery_card).

(** The two elements the loader looks up by id; [None]: the page has no
    such element. *)
Record page : Type := {
  news_container : option html;
  gallery_container : option html
}.

(** The browser: the clock, and [fetch] followed by [response.json()],
    which gives the parsed body or throws. *)
Record Browser : Type := {
  date_now : nat → N;                       (* [Date.now()] *)
  fetch_json : nat → jsstring → exn + value
}.

Record site : Type := {
  dom : page;
  site_tick : nat;
  requests : list jsstring
}.

Section WithBrowser.

Context (B : Browser).

Definition newsUrl : jsstring := js "./data/news.json".

Definition galleryUrl : jsstring := js "./data/gallery.json".

(** [url + '?t=' + Date.now()] *)
Definition fresh (url : jsstring) (t : N) : jsstring :=
  url ++ js "?t=" ++ js (decimal t).

Definition requested (url : jsstring) (d : page) (s : site) : site :=
  {| dom := d; site_tick := S (site_tick s); requests := requests s ++ [url] |}.

Definition loadNews (s : site) : site :=
  let url := fresh newsUrl (date_now B (site_tick s)) in
  match
    (do* news := fetch_json B (site_tick s) url in
     match news_container (dom s) with
     | None => inr (dom s)
     | Some _ =>
         do* items := first_items 10 news in
         do* cards := map_items news_card_of items in
         inr {| news_container := Some (NewsList cards);
                gallery_container := gallery_container (dom s) |}
     end)
  with
  | inr d => requested url d s
  | inl _ => requested url (dom s) s  (* [console.log('News not available yet')] *)
  end.

Definition loadGallery (s : site) : site :=
  let url := fresh galleryUrl (date_now B (site_tick s)) in
  match
    (do* gallery := fetch_json B (site_tick s) url in
     match gallery_container (dom s) with
     | None => inr (dom s)
     | Some _ =>
         do* items := first_items 20 gallery in
         do* cards := map_items gallery_card_of items in
         inr {| news_container := news_container (dom s);
                gallery_container := Some (GalleryList cards) |}
     end)
  with
  | inr d => requested url d s
  | inl _ => requested url (dom s) s
  end.

End WithBrowser.

End Site.
Export Site.

(* ===================================================================== *)
(** ** Part II. The vocabulary of the properties *)
(* ===================================================================== *)

Module Vocabulary.

Section WithEnv.

Context (E : Env).

(** What [getFileFromGitHub] returns, from the repository and the moment
    of the request. *)
Definition read_result (st : gmap jsstring file) (t : nat) (path : jsstring)
  : exn + (option jsstring * option jsstring) :=
  match transport_fault E t with
  | Some e =>
      if bool_decide (exn_status e = Some 404%N) then inr (None, None) else inl e
  | None =>
      match st !! path with
      | None => inr (None, None)
      | Some f => inr (Some (utf8_decode (file_bytes f)), Some (file_sha f))
      end
  end.

(** The request [updateFileOnGitHub] sends, and what comes of it. *)
Definition put_of (path : jsstring) (c : content) (message : commit_message)
    (sha : option jsstring) : put_request :=
  {| put_path := path;
     put_message := message;
     put_content := base64_encode (Buffer_from c);
     put_sha := if truthy_sha sha then sha else None |}.

Definition write_result (st : gmap jsstring file) (t : nat) (req : put_request)
  : option exn :=
  match transport_fault E t with
  | Some e => Some e
  | None => store_rejects E st req
  end.

Definition file_of (bytes : list byte) : file :=
  {| file_bytes := bytes; file_sha := blob_sha E bytes |}.

Definition world_at (st : gmap jsstring file) (t : nat) (tr : list event) : world :=
  {| store := st; tick := t; trace := tr |}.

(** A property can be read from anything but [null] and [undefined]. *)
Definition readable (v : value) : bool :=
  match v with VUndef | VNull => false | _ => true end.

Definition prop (v : value) (k : string) : value :=
  match get_prop v k with inr x => x | inl _ => VUndef end.

(** The HTML snippet of [addNewsToWebsite] can be built. *)
Definition html_ok (analysis : value) : bool :=
  readable analysis
  && to_string_ok (prop analysis "title_hindi")
  && to_string_ok (prop analysis "title_english")
  && to_string_ok (prop analysis "description_hindi")
  && to_string_ok (prop analysis "description_english").

(** [analysis.title_english.slice(0, n)] inside the commit message. *)
Definition commit_title (n : nat) (analysis : value) : option value :=
  match slice_value n (prop analysis "title_english") with
  | inr t => if to_string_ok t then Some t else None
  | inl _ => None
  end.

Definition news_record_of (analysis : value) (imagePath : option jsstring)
    (newsId date : jsstring) (timestamp : N) : value :=
  news_record newsId date timestamp
    (prop analysis "title_hindi") (prop analysis "title_english")
    (prop analysis "description_hindi") (prop analysis "description_english")
    imagePath
    (prop analysis "category") (prop analysis "priority") (prop analysis "tags").

Definition gallery_record_of (analysis : value) (imagePath photoId : jsstring)
    (timestamp : N) (date : jsstring) : value :=
  gallery_record photoId imagePath
    (prop analysis "title_hindi") (prop analysis "title_english")
    (prop analysis "category") (prop analysis "tags") timestamp date.

(** The answer of the configured provider, if it gives one that parses,
    and the calls made. *)
Definition classify (t : nat) (p : prompt) : option value * list event :=
  match openai E with
  | Some create =>
      (match create t p with
       | inr content => JSON_parse E content
       | inl _ => None
       end, [EOpenAI p])
  | None =>
      match genAI E with
      | Some generate =>
          (match generate t p with
           | inr answer =>
               match match_object answer with
               | Some jsonMatch => JSON_parse E jsonMatch
               | None => None
               end
           | inl _ => None
           end, [EGemini p])
      | None => (None, [])
      end
  end.

(** A provider fails when it is not configured, when its call throws, or
    when what it answers does not parse. *)
Definition openai_fails (t : nat) (p : prompt) : Prop :=
  match openai E with
  | None => True
  | Some create =>
      match create t p with
      | inl _ => True
      | inr content => JSON_parse E content = None
      end
  end.

Definition gemini_fails (t : nat) (p : prompt) : Prop :=
  match genAI E with
  | None => True
  | Some generate =>
      match generate t p with
      | inl _ => True
      | inr answer =>
          match match_object answer with
          | Some jsonMatch => JSON_parse E jsonMatch = None
          | None => True
          end
      end
  end.

Definition is_digit (c : code_unit) : bool :=
  let u := cu_to_N c in ((48 <=? u) && (u <=? 57))%N.

Definition is_hex (c : code_unit) : bool :=
  let u := cu_to_N c in (is_digit c || ((97 <=? u) && (u <=? 102)))%N.

(** [images/<digits>_<8-hex>.jpg] *)
Definition image_path_pattern (path : jsstring) : Prop :=
  ∃ digits hex,
    path = js "images/" ++ digits ++ js "_" ++ hex ++ js ".jpg"
    ∧ digits ≠ [] ∧ forallb is_digit digits = true
    ∧ length hex = 8 ∧ forallb is_hex hex = true.

(** The write requests among some events. *)
Definition puts (events : list event) : list put_request :=
  omap (λ e, match e with EPut req => Some req | _ => None end) events.

End WithEnv.

End Vocabulary.
Export Vocabulary.

(** *** More words, for the properties beyond the specification *)

Module Vocabulary2.

(** [String.prototype.toWellFormed]: every surrogate that is not half of a
    pair becomes U+FFFD. *)
Fixpoint toWellFormed (s : jsstring) : jsstring :=
  match s with
  | [] => []
  | c :: s' =>
      if is_high (cu_to_N c) then
        match s' with
        | d :: s'' =>
            if is_low (cu_to_N d) then c :: d :: toWellFormed s''
            else replacement :: toWellFormed s'
        | [] => [replacement]
        end
      else if is_low (cu_to_N c) then replacement :: toWellFormed s'
      else c :: toWellFormed s'
  end.

(** The text [JSON.stringify] writes for an item of an array. *)
Definition item_text (x : value) : jsstring :=
  default (js "null") (serialize 2 x).

(** Two collections that [JSON.stringify] cannot tell apart: [JSON.parse]
    gives back a property that was [undefined] as a missing one. *)
Definition same_text (l k : list value) : Prop :=
  map item_text l = map item_text k.

(** Whether a value has a [slice] method. *)
Definition sliceable (v : value) : bool :=
  match v with VStr _ | VArr _ => true | _ => false end.

(** An analysis whose [category] and [title_hindi] a reply can print. *)
Definition reply_ok (analysis : value) : bool :=
  to_string_ok (prop analysis "category")
  && to_string_ok (prop analysis "title_hindi").

End Vocabulary2.
Export Vocabulary2.

(** *** Words for the configuration and the page *)

Module Vocabulary3.

(** An id as it may be written in [ADMIN_IDS]: in decimal, with white
    space around it. *)
Definition written_id (e : jsstring * Z * jsstring) : jsstring :=
  e.1.1 ++ (if (e.1.2 <? 0)%Z then js "-" else []) ++ js (decimal (Z.abs_N e.1.2))
  ++ e.2.

Definition blank (s : jsstring) : Prop := forallb is_white_space s = true.

(** The card of a record [addNewsToWebsite] wrote. *)
Definition card_of_news (analysis : value) (imagePath : option jsstring)
    (newsId date : jsstring) : news_card :=
  {| card_high := is_string (prop analysis "priority") "high";
     card_id := VStr newsId;
     card_date := VStr date;
     card_title_hindi := prop analysis "title_hindi";
     card_title_english := prop analysis "title_english";
     card_image :=
       match imagePath with
       | Some p => if truthy_string p then Some (VStr p) else None
       | None => None
       end;
     card_description_hindi := prop analysis "description_hindi";
     card_category := prop analysis "category" |}.

(** The card of a record [addPhotoToGallery] wrote. *)
Definition card_of_photo (analysis : value) (imagePath photoId date : jsstring)
  : gallery_card :=
  {| photo_id := VStr photoId;
     photo_src := VStr imagePath;
     photo_title_hindi := prop analysis "title_hindi";
     photo_date := VStr date |}.

End Vocabulary3.
Export Vocabulary3.

(* ===================================================================== *)
(** ** Part III. Concrete inputs *)
(* ===================================================================== *)

Module Examples.

(** [JSON.parse] on the documents of an example: the inverse of
    [JSON.stringify] on them, and a [SyntaxError] on everything else. *)
Fixpoint parse_only (docs : list value) (s : jsstring) : option value :=
  match docs with
  | [] => None
  | v :: docs' =>
      if bool_decide (serialize 0 v = Some s) then Some v else parse_only docs' s
  end.

(** The store turns down an update that comes without the hash of the
    file it replaces. *)
Definition github_rejects (st : gmap jsstring file) (req : put_request)
  : option exn :=
  match st !! put_path req, put_sha req with
  | Some f, Some sha =>
      if bool_decide (sha = file_sha f) then None
      else Some (External (Some 409%N) 0)
  | Some _, None => Some (External (Some 422%N) 0)
  | None, _ => None
  end.

Definition example_env (admins : list jsnum)
    (primary secondary : option (nat → prompt → exn + jsstring))
    (docs : list value) : Env :=
  {| adminIds := admins;
     openai := primary;
     genAI := secondary;
     JSON_parse := parse_only docs;
     clock := λ t, (1793577600000 + N.of_nat t)%N;
     locale_date := λ _, js "2/11/2026";
     random := λ t, replicate 16 (byte_of_N (N.of_nat (37 * t + 11)));
     transport_fault := λ _, None;
     store_rejects := github_rejects;
     blob_sha := λ bs, js "blob-" ++ js (decimal (N.of_nat (length bs)));
     line_width := 60;
     file_link := λ _ id, inr (js "https://api.telegram.org/file/" ++ id);
     download := λ _ _, inr (list_byte_of_string "raw bytes of the file");
     sharp := λ bs, inr (list_byte_of_string "jpeg:" ++ bs);
     reply_fault := λ _ _, None |}.

Definition empty_world : world := {| store := ∅; tick := 0; trace := [] |}.

(** "कल बैठक होगी" *)
Definition meeting_text : jsstring :=
  map cu_of_N [0x915; 0x932; 0x20; 0x92C; 0x948; 0x920; 0x915; 0x20;
               0x939; 0x94B; 0x917; 0x940]%N.

(** "मंदिर" *)
Definition temple_text : jsstring :=
  map cu_of_N [0x92E; 0x902; 0x926; 0x93F; 0x930]%N.

Definition analysis_of (category : string) (title : jsstring) : value :=
  VObj [ (js "category", VStr (js category));
         (js "title_hindi", VStr title);
         (js "title_english", VStr (js "Village update"));
         (js "description_hindi", VStr title);
         (js "description_english", VStr (js "Village update"));
         (js "suggested_section", VStr (js "general"));
         (js "priority", VStr (js "high"));
         (js "tags", VArr [VStr (js "village")]) ].

Definition answer_of (v : value) : jsstring := default [] (serialize 0 v).

Definition rate_limited : nat → prompt → exn + jsstring :=
  λ _ _, inl (External (Some 429%N) 1).

(** The secondary provider wraps its JSON in a sentence. *)
Definition chatty (v : value) : nat → prompt → exn + jsstring :=
  λ _ _, inr (js "Here is the JSON: " ++ answer_of v ++ js " Hope it helps.").

(** Classifier: the primary provider is rate limited, the secondary one
    would have classified the text as an event. *)
Definition event_answer : value := analysis_of "event" meeting_text.

Definition primary_down_env : Env :=
  example_env [] (Some rate_limited) (Some (chatty event_answer)) [event_answer].

Definition secondary_only_env : Env :=
  example_env [] None (Some (chatty event_answer)) [event_answer].

Definition meeting_prompt : prompt :=
  {| prompt_text := Some meeting_text; prompt_hasImage := false |}.

(** Both providers failing: the primary call throws, the secondary
    answers without any JSON. *)
Definition both_down_env : Env :=
  example_env [] (Some rate_limited)
    (Some (λ _ _, inr (js "I cannot answer that."))) [].

(** News: a collection of fifty records gets one more. *)
Definition old_news : list value :=
  map (λ n, VObj [(js "id", VStr (js (decimal (N.of_nat n))))]) (seq 0 50).

Definition news_env : Env := example_env [] None None [VArr old_news].

Definition full_world : world :=
  {| store := {[ news_path := file_of news_env
                                 (utf8_encode (JSON_stringify old_news)) ]};
     tick := 0; trace := [] |}.

Definition news_analysis : value := analysis_of "news" meeting_text.

Definition news_after : world :=
  (addNewsToWebsite news_env news_analysis None full_world).2.

Definition news_id : jsstring := js "0b0b0b0b".

Definition written_world : world :=
  (updateFileOnGitHub news_env news_path (Text (JSON_stringify old_news))
     (MsgAddNews VUndef) None empty_world).2.



(** Text handler. *)
Definition guarded_env : Env := example_env [Int 42] None None [].

Definition stranger_text : text_message :=
  {| text_from := Some 7%Z; text_body := meeting_text |}.

(** [/recent] is announced in the help text and is no registered
    command. *)
Definition recent_command : text_message :=
  {| text_from := Some 42%Z; text_body := js "/recent" |}.

(** Photo handler: a photo of the temple, classified as heritage. *)
Definition heritage_answer : value := analysis_of "heritage" temple_text.

Definition photo_env : Env :=
  example_env [Int 42] (Some (λ _ _, inr (answer_of heritage_answer))) None
    [heritage_answer].

Definition temple_photo : photo_message :=
  {| photo_from := Some 42%Z;
     photo_sizes := [js "file-small"; js "file-large"];
     photo_caption := Some temple_text |}.

Definition photo_after : world := (on_photo photo_env temple_photo empty_world).2.

Definition photo_path : jsstring := js "images/1793577600003_9f9f9f9f.jpg".

(** Document handler: [notice.pdf] without a caption, no provider
    configured. *)
Definition notice : document_message :=
  {| document_from := Some 7%Z;
     document_file_id := js "file-notice";
     document_file_name := Some (js "notice.pdf");
     document_caption := None |}.






End Examples.
Export Examples.

(** *** More concrete inputs *)

Module Examples2.

(** The JSON object inside the answer of the chatty provider, without its
    braces. *)
Definition event_body : jsstring :=
  removelast (tail (answer_of event_answer)).

(** A text that ends in half of a surrogate pair. *)
Definition cut_text : jsstring := meeting_text ++ [cu_of_N 0xD83D].

Definition cut_written : world :=
  (updateFileOnGitHub news_env news_path (Text cut_text) (MsgAddNews VUndef)
     None empty_world).2.

(** Collection files that hold an object where an array belongs. *)
Definition object_env : Env := example_env [] None None [VObj []].

Definition object_file : file :=
  file_of object_env (list_byte_of_string "{}").

Definition object_world : world :=
  {| store := {[ news_path := object_file; gallery_path := object_file ]};
     tick := 0; trace := [] |}.

(** An analysis that has a category and nothing else. *)
Definition bare_analysis : value := VObj [(js "category", VStr (js "news"))].

(** A text from an accepted sender, classified by the primary provider. *)
Definition answering (v : value) : nat → prompt → exn + jsstring :=
  λ _ _, inr (answer_of v).

Definition event_env : Env :=
  example_env [Int 42] (Some (answering event_answer)) None [event_answer].

Definition meeting_message : text_message :=
  {| text_from := Some 42%Z; text_body := meeting_text |}.

Definition meeting_after : world :=
  (on_text event_env meeting_message empty_world).2.

Definition meeting_id : jsstring := js "30303030".

(** Photos. *)
Definition gallery_photo_after : world :=
  (on_photo guarded_env temple_photo empty_world).2.

Definition gallery_photo_path : jsstring :=
  js "images/1793577600002_7a7a7a7a.jpg".

Definition stranger_photo : photo_message :=
  {| photo_from := Some 7%Z;
     photo_sizes := [js "file-small"; js "file-large"];
     photo_caption := None |}.




(** Telegram refuses every acknowledgment and takes every other reply. *)
Definition refusal : exn := External (Some 400%N) 2.

Definition refuse_acks : nat → reply → option exn :=
  λ _ r,
    match r with
    | RTextAck _ _ _ | RPhotoAck _ _ _ | RDocumentAck _ _ => Some refusal
    | _ => None
    end.

Definition with_replies (E : Env) (fault : nat → reply → option exn) : Env :=
  {| adminIds := adminIds E;
     openai := openai E;
     genAI := genAI E;
     JSON_parse := JSON_parse E;
     clock := clock E;
     locale_date := locale_date E;
     random := random E;
     transport_fault := transport_fault E;
     store_rejects := store_rejects E;
     blob_sha := blob_sha E;
     line_width := line_width E;
     file_link := file_link E;
     download := download E;
     sharp := sharp E;
     reply_fault := fault |}.

Definition unacknowledged_env : Env := with_replies news_env refuse_acks.


Definition unacknowledged_photo_after : world :=
  (on_photo unacknowledged_env temple_photo empty_world).2.

Definition unacknowledged_notice_after : world :=
  (on_document unacknowledged_env notice empty_world).2.

(** The allow-list [ 42,7 ]. *)
Definition two_ids : list (jsstring * Z * jsstring) :=
  [(js " ", 42%Z, []); ([], 7%Z, js " ")].

Definition two_ids_env : Env :=
  example_env (adminIds_of (Some (js " 42,7 "))) None None [].

Definition empty_ids_env : Env :=
  example_env (adminIds_of (Some [])) None None [].

(** The page, with both containers, and a browser that is served a given
    array. *)
Definition served (data : value) : Browser :=
  {| date_now := λ t, (1793577600000 + N.of_nat t)%N;
     fetch_json := λ _ _, inr data |}.

Definition fresh_page : site :=
  {| dom := {| news_container := Some (Markup (js "Loading..."));
               gallery_container := Some (Markup (js "Loading...")) |};
     site_tick := 0; requests := [] |}.

Definition news_item : value :=
  news_record_of news_analysis None news_id (js "2/11/2026") 1793577600003.

End Examples2.
Export Examples2.

(* ===================================================================== *)
(** ** Part IV. Facts about the encodings *)
(* ===================================================================== *)

Section UnitsFacts.

#[local] Open Scope N_scope.

Lemma byte_of_to_N (b : byte) : byte_of_N (Byte.to_N b) = b.
Proof.
  unfold byte_of_N. pose proof (Byte.to_N_bounded b).
  rewrite N.mod_small by lia. by rewrite Byte.of_to_N.
Qed.

Lemma byte_to_of_N (n : N) : Byte.to_N (byte_of_N n) = n mod 256.
Proof.
  unfold byte_of_N. destruct (Byte.of_N (n mod 256)) as [b|] eqn:E.
  - by apply Byte.to_of_N in E.
  - apply Byte.of_N_None_iff in E. lia.
Qed.

Lemma byte_of_N_eq (n : N) (b : byte) : n = Byte.to_N b → byte_of_N n = b.
Proof. intros ->. apply byte_of_to_N. Qed.

Lemma byte_lt (b : byte) : Byte.to_N b < 256.
Proof. pose proof (Byte.to_N_bounded b). lia. Qed.

Lemma cu_to_N_lt (c : code_unit) : cu_to_N c < 65536.
Proof.
  destruct c as [h l]. unfold cu_to_N. simpl.
  pose proof (byte_lt h). pose proof (byte_lt l). lia.
Qed.

Lemma cu_of_to_N (c : code_unit) : cu_of_N (cu_to_N c) = c.
Proof.
  destruct c as [h l]. unfold cu_of_N, cu_to_N. simpl.
  pose proof (byte_lt h). pose proof (byte_lt l).
  f_equal.
  - apply byte_of_N_eq. lia.
  - unfold byte_of_N. replace ((256 * Byte.to_N h + Byte.to_N l) mod 256)
      with (Byte.to_N l mod 256) by lia. apply byte_of_to_N.
Qed.

Lemma cu_to_of_N (n : N) : n < 65536 → cu_to_N (cu_of_N n) = n.
Proof.
  intros Hn. unfold cu_to_N, cu_of_N. simpl.
  rewrite !byte_to_of_N. lia.
Qed.

Lemma cu_of_N_eq (n : N) (c : code_unit) : n = cu_to_N c → cu_of_N n = c.
Proof. intros ->. apply cu_of_to_N. Qed.

End UnitsFacts.

Section Base64Facts.

#[local] Open Scope N_scope.

Lemma list_ind3 {A} (P : list A → Prop) :
  P [] → (∀ a, P [a]) → (∀ a b, P [a; b]) →
  (∀ a b c l, P l → P (a :: b :: c :: l)) → ∀ l, P l.
Proof.
  intros H0 H1 H2 H3.
  assert (∀ l, P l ∧ (∀ a, P (a :: l)) ∧ (∀ a b, P (a :: b :: l))) as H.
  { induction l as [|x l (IH0 & IH1 & IH2)]; [by auto|].
    repeat split; auto. }
  intros l. apply H.
Qed.

Lemma b64_value_char (n : N) :
  n < 64 → b64_value (b64_char n) = Some n ∧ (b64_char n).2 ≠ pad_char.2.
Proof.
  intros Hn.
  assert (∃ m : nat, (m < 64)%nat ∧ n = N.of_nat m) as (m & Hm & ->).
  { exists (N.to_nat n). lia. }
  clear Hn.
  do 64 (destruct m as [|m]; [by vm_compute|]). lia.
Qed.

Lemma b64_value_newline : b64_value newline = None ∧ newline.2 ≠ pad_char.2.
Proof. by vm_compute. Qed.

Lemma b64_value_pad : b64_value pad_char = None.
Proof. by vm_compute. Qed.

Lemma enc_sextets_lt (bs : list byte) : Forall (λ n, n < 64) (enc_sextets bs).
Proof.
  induction bs as [|a|a b|a b c l IH] using list_ind3; simpl.
  - constructor.
  - pose proof (byte_lt a). repeat constructor; lia.
  - pose proof (byte_lt a). pose proof (byte_lt b). repeat constructor; lia.
  - pose proof (byte_lt a). pose proof (byte_lt b). pose proof (byte_lt c).
    repeat (constructor; [lia|]). exact IH.
Qed.

Lemma base64_encode_split (bs : list byte) :
  base64_encode bs = map b64_char (enc_sextets bs) ++ padding bs.
Proof.
  induction bs as [|a|a b|a b c l IH] using list_ind3; try done.
  cbn [base64_encode enc_sextets map app]. rewrite IH.
  do 5 f_equal. unfold padding.
  replace (length (a :: b :: c :: l) mod 3)%nat with (length l mod 3)%nat;
    [done|].
  rewrite <- (Nat.Div0.mod_add (length l) 1 3). f_equal. simpl. lia.
Qed.

Lemma bytes_of_enc_sextets (bs : list byte) :
  bytes_of_sextets (enc_sextets bs) = bs.
Proof.
  induction bs as [|a|a b|a b c l IH] using list_ind3; simpl.
  - done.
  - pose proof (byte_lt a). f_equal. apply byte_of_N_eq. lia.
  - pose proof (byte_lt a). pose proof (byte_lt b).
    f_equal; [|f_equal]; apply byte_of_N_eq; lia.
  - pose proof (byte_lt a). pose proof (byte_lt b). pose proof (byte_lt c).
    rewrite IH. f_equal; [|f_equal; [|f_equal]]; apply byte_of_N_eq; lia.
Qed.

(** Line breaks do not change what the decoder reads. *)
Lemma sextets_wrap_from (width k : nat) (s : jsstring) :
  sextets (wrap_from width k s) = sextets s.
Proof.
  destruct b64_value_newline as [Hnl Hne].
  revert k. induction s as [|c s IH]; intros k.
  - destruct width; [done|]. cbn [wrap_from sextets].
    rewrite Hnl. by rewrite bool_decide_false.
  - destruct width as [|w].
    + cbn [wrap_from sextets]. rewrite (IH k). done.
    + destruct k as [|k'].
      * cbn [wrap_from]. cbn [sextets]. rewrite Hnl.
        rewrite bool_decide_false by done. fold sextets.
        rewrite IH. done.
      * cbn [wrap_from]. cbn [sextets]. rewrite IH. done.
Qed.

Lemma sextets_padded (l : list N) (p : jsstring) :
  Forall (λ n, n < 64) l → (p = [] ∨ ∃ p', p = pad_char :: p') →
  sextets (map b64_char l ++ p) = l.
Proof.
  intros Hl Hp. induction Hl as [|n l Hn _ IH]; cbn [map app].
  - destruct Hp as [->|[p' ->]]; [done|].
    cbn [sextets]. rewrite b64_value_pad. by rewrite bool_decide_true.
  - cbn [sextets]. destruct (b64_value_char n Hn) as [-> _]. by rewrite IH.
Qed.

Lemma padding_shape (bs : list byte) :
  padding bs = [] ∨ ∃ p', padding bs = pad_char :: p'.
Proof.
  unfold padding. destruct (length bs mod 3)%nat as [|[|[|?]]]; eauto.
Qed.

(** Decoding what was encoded gives the bytes back, whatever the line
    width the text was broken at. *)
Lemma base64_decode_encode (width : nat) (bs : list byte) :
  base64_decode (wrap_lines width (base64_encode bs)) = bs.
Proof.
  unfold base64_decode, wrap_lines.
  rewrite sextets_wrap_from, base64_encode_split.
  rewrite sextets_padded.
  - apply bytes_of_enc_sextets.
  - apply enc_sextets_lt.
  - apply padding_shape.
Qed.

Lemma base64_decode_plain (bs : list byte) :
  base64_decode (base64_encode bs) = bs.
Proof.
  rewrite <- (base64_decode_encode 0 bs) at 2. f_equal.
  unfold wrap_lines. generalize (base64_encode bs). intros s.
  induction s as [|c s IH]; [done|]. cbn [wrap_from]. by f_equal.
Qed.

End Base64Facts.

Ltac branches :=
  repeat match goal with
    | |- context [N.leb ?a ?b] => destruct (N.leb_spec a b); try lia
    | |- context [N.ltb ?a ?b] => destruct (N.ltb_spec a b); try lia
    | |- context [N.eqb ?a ?b] => destruct (N.eqb_spec a b); try lia
    end.

Section Utf8Facts.

#[local] Open Scope N_scope.

Lemma dec_lead_ascii (x : N) :
  x < 0x80 → dec_step Clean (byte_of_N x) = (Clean, [cu_of_N x]).
Proof.
  intros Hx. unfold dec_step, dec_lead. rewrite byte_to_of_N.
  rewrite N.mod_small by lia. branches. done.
Qed.

Lemma dec_lead_open (x : N) :
  0xC2 <= x <= 0xF4 →
  dec_step Clean (byte_of_N x) =
    if x <? 0xE0 then (Pending (x mod 32) 1 0x80 0xBF, [])
    else if x <? 0xF0 then
      (Pending (x mod 16) 2 (if x =? 0xE0 then 0xA0 else 0x80)
                            (if x =? 0xED then 0x9F else 0xBF), [])
    else
      (Pending (x mod 8) 3 (if x =? 0xF0 then 0x90 else 0x80)
                           (if x =? 0xF4 then 0x8F else 0xBF), []).
Proof.
  intros Hx. unfold dec_step, dec_lead. rewrite byte_to_of_N.
  rewrite N.mod_small by lia.
  destruct (N.ltb_spec x 0xE0); [|destruct (N.ltb_spec x 0xF0)];
    branches; done.
Qed.

Lemma dec_cont (cp : N) (needed : nat) (lower upper x : N) :
  x < 256 → lower <= x <= upper →
  dec_step (Pending cp needed lower upper) (byte_of_N x) =
    match needed with
    | S (S n) => (Pending (cp * 64 + x mod 64) (S n) 0x80 0xBF, [])
    | _ => (Clean, emit_cp (cp * 64 + x mod 64))
    end.
Proof.
  intros Hx Hr. unfold dec_step. rewrite byte_to_of_N.
  rewrite N.mod_small by lia. branches. done.
Qed.

Lemma utf8_dec_encode_cp (cp : N) (rest : list byte) :
  cp < 0x110000 → ¬ (0xD800 <= cp <= 0xDFFF) →
  utf8_dec Clean (encode_cp cp ++ rest) = emit_cp cp ++ utf8_dec Clean rest.
Proof.
  intros Hmax Hsur. unfold encode_cp.
  destruct (N.ltb_spec cp 0x80); [|destruct (N.ltb_spec cp 0x800);
    [|destruct (N.ltb_spec cp 0x10000)]]; cbn [app utf8_dec].
  - rewrite dec_lead_ascii by done. unfold emit_cp. branches. done.
  - rewrite dec_lead_open by lia. branches.
    rewrite dec_cont by lia. cbn [app]. do 2 f_equal. lia.
  - rewrite dec_lead_open by lia. branches;
      rewrite dec_cont by lia; rewrite dec_cont by lia;
      cbn [app]; do 2 f_equal; lia.
  - rewrite dec_lead_open by lia. branches;
      rewrite dec_cont by lia; rewrite dec_cont by lia;
      rewrite dec_cont by lia; cbn [app]; do 2 f_equal; lia.
Qed.

Lemma emit_cp_unit (c : code_unit) : emit_cp (cu_to_N c) = [c].
Proof.
  unfold emit_cp. pose proof (cu_to_N_lt c). branches.
  by rewrite cu_of_to_N.
Qed.

Lemma emit_cp_pair (c d : code_unit) :
  is_high (cu_to_N c) = true → is_low (cu_to_N d) = true →
  emit_cp (0x10000 + (cu_to_N c - 0xD800) * 1024 + (cu_to_N d - 0xDC00))
  = [c; d].
Proof.
  unfold is_high, is_low, emit_cp. intros Hc Hd.
  apply andb_prop in Hc as [Hc1 Hc2]. apply andb_prop in Hd as [Hd1 Hd2].
  apply N.leb_le in Hc1, Hc2, Hd1, Hd2.
  branches. f_equal; [|f_equal]; apply cu_of_N_eq; lia.
Qed.

(** Encoding a well-formed string and decoding the bytes gives the string
    back. *)
Lemma utf8_decode_encode (s : jsstring) :
  well_formed s = true → utf8_decode (utf8_encode s) = s.
Proof.
  unfold utf8_decode.
  assert (∀ s, (well_formed s = true → utf8_dec Clean (utf8_encode s) = s)
             ∧ (∀ c, well_formed (c :: s) = true →
                     utf8_dec Clean (utf8_encode (c :: s)) = c :: s)) as H;
    [|apply H].
  clear s. induction s as [|d s [IH0 IH1]].
  - split; [done|]. intros c. cbn [well_formed utf8_encode].
    destruct (is_high (cu_to_N c)) eqn:Hh; [done|].
    destruct (is_low (cu_to_N c)) eqn:Hl; [done|]. intros _.
    pose proof (cu_to_N_lt c). unfold is_high, is_low in *.
    rewrite utf8_dec_encode_cp.
    + by rewrite emit_cp_unit.
    + lia.
    + revert Hh Hl. branches; cbn [andb]; intros; try done; lia.
  - split; [apply IH1|]. intros c. cbn [well_formed utf8_encode].
    destruct (is_high (cu_to_N c)) eqn:Hh.
    + destruct (is_low (cu_to_N d)) eqn:Hl; [|done].
      cbn [andb]. intros Hs.
      pose proof (cu_to_N_lt c). pose proof (cu_to_N_lt d).
      rewrite utf8_dec_encode_cp.
      * rewrite emit_cp_pair by done. cbn [app]. by rewrite IH0.
      * unfold is_high, is_low in *. revert Hh Hl.
        branches; cbn [andb]; intros; try done; lia.
      * unfold is_high, is_low in *. revert Hh Hl.
        branches; cbn [andb]; intros; try done; lia.
    + destruct (is_low (cu_to_N c)) eqn:Hl; [done|]. cbn [negb andb].
      intros Hs. pose proof (cu_to_N_lt c).
      rewrite utf8_dec_encode_cp.
      * rewrite emit_cp_unit. cbn [app]. f_equal. by apply IH1.
      * lia.
      * unfold is_high, is_low in *. revert Hh Hl.
        branches; cbn [andb]; intros; try done; lia.
Qed.

Lemma well_formed_app (s t : jsstring) :
  well_formed s = true → well_formed t = true → well_formed (s ++ t) = true.
Proof.
  intros Hs Ht.
  assert (∀ s, (well_formed s = true → well_formed (s ++ t) = true)
             ∧ (∀ c, well_formed (c :: s) = true →
                     well_formed ((c :: s) ++ t) = true)) as H;
    [|by apply H].
  clear s Hs. induction s as [|d s [IH0 IH1]].
  - split; [done|]. intros c. cbn [well_formed app].
    destruct (is_high (cu_to_N c)); [done|].
    destruct (is_low (cu_to_N c)); [done|]. cbn [negb andb].
    intros _. done.
  - split; [apply IH1|]. intros c. cbn [well_formed app].
    destruct (is_high (cu_to_N c)).
    + destruct (is_low (cu_to_N d)); [|done]. cbn [andb]. apply IH0.
    + destruct (is_low (cu_to_N c)); [done|]. cbn [negb andb]. apply IH1.
Qed.

End Utf8Facts.

Section JsonFacts.

#[local] Open Scope N_scope.

Lemma value_ind' (P : value → Prop) :
  P VUndef → P VNull → (∀ b, P (VBool b)) → (∀ r, P (VNum r)) →
  (∀ s, P (VStr s)) →
  (∀ l, Forall P l → P (VArr l)) →
  (∀ ps, Forall (λ kv, P kv.2) ps → P (VObj ps)) →
  ∀ v, P v.
Proof.
  intros HU HN HB HNum HS HA HO.
  fix IH 1. intros [| |b|r|s|l|ps];
    [exact HU|exact HN|apply HB|apply HNum|apply HS| |].
  - apply HA. induction l as [|x l IHl]; constructor; [apply IH|apply IHl].
  - apply HO. induction ps as [|[k x] ps IHps]; constructor;
      [apply IH|apply IHps].
Qed.

Lemma well_formed_js (s : string) : well_formed (js s) = true.
Proof.
  unfold js. induction (list_byte_of_string s) as [|b l IH]; [done|].
  cbn [map well_formed].
  assert (cu_to_N (x00, b) < 256) as Hb.
  { unfold cu_to_N. simpl. pose proof (byte_lt b). lia. }
  unfold is_high, is_low. branches. cbn [andb negb]. exact IH.
Qed.

Lemma well_formed_below (n : N) :
  n < 0xD800 → well_formed [cu_of_N n] = true.
Proof.
  intros Hn. cbn [well_formed]. rewrite cu_to_of_N by lia.
  unfold is_high, is_low. branches. done.
Qed.

Lemma well_formed_cons_below (n : N) (s : jsstring) :
  n < 0xD800 → well_formed s = true → well_formed (cu_of_N n :: s) = true.
Proof.
  intros Hn Hs. apply (well_formed_app [cu_of_N n] s); [|done].
  by apply well_formed_below.
Qed.

Lemma well_formed_hex (n : N) : n < 16 → well_formed [hex_digit n] = true.
Proof. intros Hn. unfold hex_digit. apply well_formed_below. branches. Qed.

Lemma well_formed_unicode_escape (u : N) : well_formed (unicode_escape u) = true.
Proof.
  unfold unicode_escape. apply well_formed_app; [apply well_formed_js|].
  apply (well_formed_app [_] [_; _; _]); [apply well_formed_hex; lia|].
  apply (well_formed_app [_] [_; _]); [apply well_formed_hex; lia|].
  apply (well_formed_app [_] [_]); apply well_formed_hex; lia.
Qed.

Lemma well_formed_escape_unit (c : code_unit) :
  is_high (cu_to_N c) = false → is_low (cu_to_N c) = false →
  well_formed (escape_unit c) = true.
Proof.
  intros Hh Hl. unfold escape_unit.
  repeat match goal with
  | |- context [N.eqb ?a ?b] => destruct (N.eqb a b)
  | |- context [N.ltb ?a ?b] => destruct (N.ltb a b)
  end; try apply well_formed_js; try apply well_formed_unicode_escape;
    try done.
  cbn [well_formed]. by rewrite Hh, Hl.
Qed.

Lemma quote_body_cons (c : code_unit) (s : jsstring) :
  quote_body (c :: s) =
    if is_high (cu_to_N c) then
      match s with
      | d :: s'' =>
          if is_low (cu_to_N d) then c :: d :: quote_body s''
          else unicode_escape (cu_to_N c) ++ quote_body s
      | [] => unicode_escape (cu_to_N c)
      end
    else if is_low (cu_to_N c) then unicode_escape (cu_to_N c) ++ quote_body s
    else escape_unit c ++ quote_body s.
Proof. done. Qed.

Lemma well_formed_quote_body (s : jsstring) : well_formed (quote_body s) = true.
Proof.
  assert (∀ s, well_formed (quote_body s) = true
             ∧ ∀ c, well_formed (quote_body (c :: s)) = true) as H;
    [|apply H].
  clear s. induction s as [|d s [IH0 IH1]].
  - split; [done|]. intros c. rewrite quote_body_cons.
    destruct (is_high (cu_to_N c)) eqn:Hh;
      [apply well_formed_unicode_escape|].
    destruct (is_low (cu_to_N c)) eqn:Hl.
    + apply well_formed_app; [apply well_formed_unicode_escape|done].
    + apply well_formed_app; [by apply well_formed_escape_unit|done].
  - split; [apply IH1|]. intros c. rewrite quote_body_cons.
    destruct (is_high (cu_to_N c)) eqn:Hh.
    + destruct (is_low (cu_to_N d)) eqn:Hl.
      * cbn [well_formed]. by rewrite Hh, Hl.
      * apply well_formed_app; [apply well_formed_unicode_escape|apply IH1].
    + destruct (is_low (cu_to_N c)) eqn:Hl.
      * apply well_formed_app; [apply well_formed_unicode_escape|apply IH1].
      * apply well_formed_app; [by apply well_formed_escape_unit|apply IH1].
Qed.

Lemma well_formed_quote (s : jsstring) : well_formed (quote s) = true.
Proof.
  unfold quote. apply well_formed_cons_below; [lia|].
  apply well_formed_app; [apply well_formed_quote_body|].
  by apply well_formed_below.
Qed.

Lemma well_formed_spaces (n : nat) : well_formed (spaces n) = true.
Proof.
  unfold spaces. induction n as [|n IH]; [done|].
  cbn [replicate]. by apply well_formed_cons_below.
Qed.

Lemma well_formed_join (sep : jsstring) (parts : list jsstring) :
  well_formed sep = true → Forall (λ p, well_formed p = true) parts →
  well_formed (join sep parts) = true.
Proof.
  intros Hsep Hparts. induction Hparts as [|p ps Hp Hps IH]; [done|].
  cbn [join]. destruct ps as [|q ps]; [done|].
  apply well_formed_app; [done|]. by apply well_formed_app.
Qed.

Lemma well_formed_block (o c : string) (ind : nat) (items : list jsstring) :
  Forall (λ p, well_formed p = true) items →
  well_formed (block o c ind items) = true.
Proof.
  intros Hitems. unfold block. destruct items as [|i items].
  - apply well_formed_app; apply well_formed_js.
  - assert (well_formed [newline] = true) as Hnl by (by apply well_formed_below).
    repeat (apply well_formed_app;
            [first [apply well_formed_js | apply well_formed_spaces | exact Hnl
                   | idtac]|]);
      try apply well_formed_js.
    apply well_formed_join; [|done].
    apply (well_formed_app [_; _]); [|apply well_formed_spaces].
    apply well_formed_cons_below; [lia|done].
Qed.

Lemma well_formed_number_text (r : string) : well_formed (number_text r) = true.
Proof. unfold number_text. case_match; apply well_formed_js. Qed.

Lemma well_formed_serialize (v : value) :
  ∀ ind t, serialize ind v = Some t → well_formed t = true.
Proof.
  induction v as [| |b|r|s|l IH|ps IH] using value_ind';
    intros ind t; cbn [serialize]; intros Ht; simplify_eq.
  - apply well_formed_js.
  - apply well_formed_js.
  - apply well_formed_number_text.
  - apply well_formed_quote.
  - apply well_formed_block. induction IH as [|x l Hx _ IHl]; constructor;
      [|exact IHl].
    destruct (serialize (ind + 2) x) as [t|] eqn:E; cbn [default].
    + by eapply Hx.
    + apply well_formed_js.
  - apply well_formed_block. induction IH as [|[k x] l Hx _ IHl];
      [constructor|].
    cbn [flat_map]. apply Forall_app. split; [|exact IHl].
    cbn [fst snd] in *.
    destruct (serialize (ind + 2) x) as [t|] eqn:E; constructor; [|done].
    apply well_formed_app; [apply well_formed_quote|].
    apply well_formed_app; [apply well_formed_js|]. by eapply Hx.
Qed.

Lemma well_formed_JSON_stringify (items : list value) :
  well_formed (JSON_stringify items) = true.
Proof.
  unfold JSON_stringify.
  destruct (serialize 0 (VArr items)) as [t|] eqn:E; [|done].
  by eapply well_formed_serialize.
Qed.


Lemma get_prop_readable (v : value) (k : string) :
  get_prop v k = if readable v then inr (prop v k) else inl TypeError.
Proof. unfold prop. by destruct v. Qed.


End JsonFacts.

(* ===================================================================== *)
(** ** Part V. What the functions compute *)
(* ===================================================================== *)

Section Runs.

Context (E : Env).


Lemma bind_lift {A B} (r : exn + A) (f : A → M B) (w : world) :
  bind (lift r) f w = match r with inr a => f a w | inl e => (inl e, w) end.
Proof. unfold bind, lift. by destruct r. Qed.

Lemma bind_check_string {B} (v : value) (f : unit → M B) (w : world) :
  bind (check_string v) f w
  = if to_string_ok v then f tt w else (inl TypeError, w).
Proof. unfold bind, check_string. by destruct (to_string_ok v). Qed.

Lemma bind_lookup_unshift {B} (data : value) (f : unit → M B) (w : world) :
  bind (lookup_unshift data) f w
  = if readable data then f tt w else (inl TypeError, w).
Proof. unfold bind. by destruct data. Qed.

Lemma bind_as_array {B} (data : value) (f : list value → M B) (w : world) :
  bind (as_array data) f w
  = match data with VArr items => f items w | _ => (inl TypeError, w) end.
Proof. unfold bind. by destruct data. Qed.

Lemma pair_inr_inv {A} (a b : A) (w1 w2 : world) :
  (inr a : exn + A, w1) = (inr b, w2) → a = b ∧ w1 = w2.
Proof. by intros [= -> ->]. Qed.

(** A reply that was awaited and did not throw was delivered. *)
Lemma reply_with_ok (r : reply) (w w' : world) (u : unit) :
  reply_with E r w = (inr u, w') →
  reply_fault E (tick w) r = None ∧ w' = record_event (EReply r) w.
Proof.
  unfold reply_with, sendMessage.
  destruct (reply_fault E (tick w) r); [done|].
  intros H. by apply pair_inr_inv in H as [_ <-].
Qed.

Lemma reply_with_run (r : reply) (w : world) :
  reply_with E r w = (sendMessage E (tick w) r, record_event (EReply r) w).
Proof. reflexivity. Qed.

Lemma getFileFromGitHub_run (path : jsstring) (w : world) :
  getFileFromGitHub E path w
  = (read_result E (store w) (tick w) path,
     record_event (EGetContent path) (bump w)).
Proof.
  unfold getFileFromGitHub, try_catch, bind, octokit_getContent, read_result.
  destruct (transport_fault E (tick w)) as [e|].
  - by destruct (bool_decide (exn_status e = Some 404%N)).
  - destruct (store w !! path) as [f|]; [|done].
    cbn [fst snd ret]. by rewrite base64_decode_encode.
Qed.

Lemma updateFileOnGitHub_run (path : jsstring) (c : content)
    (message : commit_message) (sha : option jsstring) (w : world) :
  updateFileOnGitHub E path c message sha w
  = let req := put_of path c message sha in
    match write_result E (store w) (tick w) req with
    | Some e =>
        (inl e, {| store := store w; tick := S (tick w);
                   trace := trace w ++ [EPut req] |})
    | None =>
        (inr tt, {| store := <[path := file_of E (Buffer_from c)]> (store w);
                    tick := S (tick w);
                    trace := trace w ++ [EPut req] |})
    end.
Proof.
  unfold updateFileOnGitHub, octokit_createOrUpdateFileContents, write_result.
  fold (put_of path c message sha). cbv zeta.
  destruct (transport_fault E (tick w)) as [e|]; [done|].
  destruct (store_rejects E (store w) _) as [e|]; [done|].
  cbn [put_content put_path put_of store record_event bump tick trace].
  by rewrite base64_decode_plain.
Qed.

Lemma addNewsToWebsite_run (analysis : value) (imagePath : option jsstring)
    (w : world) :
  addNewsToWebsite E analysis imagePath w =
    let t := tick w in
    let newsId := slice0 8 (uuid_string (random E t)) in
    let date := locale_date E (clock E (1 + t)) in
    if html_ok analysis then
      let tr := trace w ++ [EGetContent news_path] in
      match read_result E (store w) (2 + t) news_path with
      | inl e => (inl e, world_at (store w) (3 + t) tr)
      | inr (content, sha) =>
          match parse_collection E content with
          | VArr items =>
              match commit_title 50 analysis with
              | Some title =>
                  let record :=
                    news_record_of analysis imagePath newsId date
                      (clock E (3 + t)) in
                  let text := JSON_stringify (unshift_and_trim record items) in
                  let req := put_of news_path (Text text) (MsgAddNews title) sha in
                  match write_result E (store w) (4 + t) req with
                  | Some e =>
                      (inl e, world_at (store w) (5 + t) (tr ++ [EPut req]))
                  | None =>
                      (inr newsId,
                       world_at (<[news_path := file_of E (utf8_encode text)]>
                                   (store w))
                         (5 + t) (tr ++ [EPut req]))
                  end
              | None => (inl TypeError, world_at (store w) (4 + t) tr)
              end
          | data =>
              (inl TypeError,
               world_at (store w) ((if readable data then 4 else 3) + t) tr)
          end
      end
    else (inl TypeError, world_at (store w) (2 + t) (trace w)).
Proof.
  unfold addNewsToWebsite, html_ok, commit_title, world_at, news_record_of.
  cbv zeta.
  unfold bind at 1. cbn [uuidv4]. unfold bind at 1. cbn [toLocaleDateString].
  rewrite !get_prop_readable.
  destruct (readable analysis); [|done]. cbn [andb].
  rewrite bind_lift, bind_check_string.
  destruct (to_string_ok (prop analysis "title_hindi")); [|done].
  rewrite bind_lift, bind_check_string.
  destruct (to_string_ok (prop analysis "title_english")); [|done].
  rewrite bind_lift, bind_check_string.
  destruct (to_string_ok (prop analysis "description_hindi")); [|done].
  rewrite bind_lift, bind_check_string.
  destruct (to_string_ok (prop analysis "description_english")); [|done].
  cbn [andb]. unfold bind at 1. rewrite getFileFromGitHub_run.
  cbn [bump record_event store tick trace].
  destruct (read_result E (store w) _ news_path) as [e|[content sha]]; [done|].
  rewrite bind_lookup_unshift.
  destruct (parse_collection E content) as [| | | | |items|];
    cbn [readable]; try done;
    unfold bind at 1; cbn [Date_now bump store tick trace];
    rewrite !bind_lift, bind_as_array; try done.
  rewrite bind_lift.
  destruct (prop analysis "title_english"); cbn [slice_value]; try done;
    rewrite bind_check_string; (destruct (to_string_ok _); [|done]);
    unfold bind at 1; rewrite updateFileOnGitHub_run;
    cbn [store tick trace Buffer_from bump record_event];
    by destruct (write_result E (store w) _ _).
Qed.

Lemma addPhotoToGallery_run (imagePath : jsstring) (analysis : value)
    (w : world) :
  addPhotoToGallery E imagePath analysis w =
    let t := tick w in
    let tr := trace w ++ [EGetContent gallery_path] in
    match read_result E (store w) t gallery_path with
    | inl e => (inl e, world_at (store w) (1 + t) tr)
    | inr (content, sha) =>
        let photoId := slice0 8 (uuid_string (random E (1 + t))) in
        match parse_collection E content with
        | VArr items =>
            if readable analysis then
              match commit_title 30 analysis with
              | Some title =>
                  let record :=
                    gallery_record_of analysis imagePath photoId
                      (clock E (2 + t)) (locale_date E (clock E (3 + t))) in
                  let text := JSON_stringify (record :: items) in
                  let req :=
                    put_of gallery_path (Text text) (MsgAddGallery title) sha in
                  match write_result E (store w) (4 + t) req with
                  | Some e =>
                      (inl e, world_at (store w) (5 + t) (tr ++ [EPut req]))
                  | None =>
                      (inr photoId,
                       world_at (<[gallery_path := file_of E (utf8_encode text)]>
                                   (store w))
                         (5 + t) (tr ++ [EPut req]))
                  end
              | None => (inl TypeError, world_at (store w) (4 + t) tr)
              end
            else (inl TypeError, world_at (store w) (2 + t) tr)
        | data =>
            (inl TypeError,
             world_at (store w)
               ((if readable data && readable analysis then 4 else 2) + t) tr)
        end
    end.
Proof.
  unfold addPhotoToGallery, commit_title, world_at, gallery_record_of.
  cbv zeta.
  unfold bind at 1. rewrite getFileFromGitHub_run.
  cbn [bump record_event store tick trace].
  destruct (read_result E (store w) _ gallery_path) as [e|[content sha]];
    [done|].
  unfold bind at 1. cbn [uuidv4 bump store tick trace].
  rewrite bind_lookup_unshift, !get_prop_readable.
  destruct (parse_collection E content) as [| | | | |items|];
    cbn [readable andb]; try done;
    (destruct (readable analysis); [|by rewrite bind_lift]);
    rewrite !bind_lift;
    unfold bind at 1; cbn [Date_now bump store tick trace];
    unfold bind at 1; cbn [toLocaleDateString bump store tick trace];
    rewrite bind_as_array; try done.
  rewrite bind_lift.
  destruct (prop analysis "title_english"); cbn [slice_value]; try done;
    rewrite bind_check_string; (destruct (to_string_ok _); [|done]);
    unfold bind at 1; rewrite updateFileOnGitHub_run;
    cbn [store tick trace Buffer_from bump record_event];
    by destruct (write_result E (store w) _ _).
Qed.

Lemma analyzeContent_run (text : option jsstring) (hasImage : bool) (w : world) :
  analyzeContent E text hasImage w =
    let p := {| prompt_text := text; prompt_hasImage := hasImage |} in
    let w' := world_at (store w) (length (classify E (tick w) p).2 + tick w)
                (trace w ++ (classify E (tick w) p).2) in
    match (classify E (tick w) p).1 with
    | Some v => (inr v, w')
    | None =>
        match text with
        | Some t => (inr (default_analysis t hasImage), w')
        | None => (inl TypeError, w')
        end
    end.
Proof.
  unfold analyzeContent, classify, try_catch, world_at. cbv zeta.
  destruct (openai E) as [create|].
  - unfold bind, openai_create, parse. cbn [fst snd length].
    destruct (create (tick w) _) as [e|c]; [by destruct text|].
    destruct (JSON_parse E c); [done|]. by destruct text.
  - destruct (genAI E) as [generate|].
    + unfold bind, gemini_generate, parse. cbn [fst snd length].
      destruct (generate (tick w) _) as [e|a]; [by destruct text|].
      destruct (match_object a) as [m|]; [|by destruct text].
      destruct (JSON_parse E m); [done|]. by destruct text.
    + cbn [fst snd length]. rewrite app_nil_r. destruct w.
      by destruct text.
Qed.

Lemma analyzeContent_ok (text : option jsstring) (hasImage : bool)
    (w w' : world) (analysis : value) :
  analyzeContent E text hasImage w = (inr analysis, w') →
  let p := {| prompt_text := text; prompt_hasImage := hasImage |} in
  let events := (classify E (tick w) p).2 in
  w' = world_at (store w) (length events + tick w) (trace w ++ events).
Proof.
  rewrite analyzeContent_run. cbv zeta.
  destruct (classify _ _ _).1; [|destruct text; [|done]];
    intros H; by apply pair_inr_inv in H as [_ <-].
Qed.

Lemma uploadImageToGitHub_ok (imageBuffer : list byte) (filename path : jsstring)
    (w w' : world) :
  uploadImageToGitHub E imageBuffer filename w = (inr path, w') →
  ∃ optimized,
    sharp E imageBuffer = inr optimized
    ∧ path = js "images/" ++ filename
    ∧ w' = world_at (<[path := file_of E optimized]> (store w)) (S (tick w))
             (trace w ++ [EPut (put_of path (Bytes optimized)
                                  (MsgAddImage filename) None)]).
Proof.
  unfold uploadImageToGitHub. rewrite bind_lift.
  destruct (sharp E imageBuffer) as [e|optimized]; [done|].
  unfold bind. rewrite updateFileOnGitHub_run. cbv zeta.
  destruct (write_result E _ _ _); [done|].
  unfold ret. intros H. apply pair_inr_inv in H as [<- <-].
  by exists optimized.
Qed.

Lemma addNewsToWebsite_ok (analysis : value) (imagePath : option jsstring)
    (w w' : world) (newsId : jsstring) :
  addNewsToWebsite E analysis imagePath w = (inr newsId, w') →
  ∃ content sha items title date timestamp,
    read_result E (store w) (2 + tick w) news_path = inr (content, sha)
    ∧ parse_collection E content = VArr items
    ∧ commit_title 50 analysis = Some title
    ∧ let record :=
        news_record_of analysis imagePath newsId date timestamp in
      let text := JSON_stringify (unshift_and_trim record items) in
      w' = world_at (<[news_path := file_of E (utf8_encode text)]> (store w))
             (5 + tick w)
             (trace w ++ [EGetContent news_path;
                          EPut (put_of news_path (Text text) (MsgAddNews title)
                                  sha)]).
Proof.
  intros Hrun. rewrite addNewsToWebsite_run in Hrun. cbv zeta in Hrun.
  destruct (html_ok analysis); [|done].
  destruct (read_result E (store w) (2 + tick w) news_path)
    as [e|[content sha]] eqn:Hread; [done|].
  destruct (parse_collection E content) as [| | | | |items|] eqn:Hparse;
    try done.
  destruct (commit_title 50 analysis) as [title|]; [|done].
  destruct (write_result E (store w) (4 + tick w) _); [done|].
  apply pair_inr_inv in Hrun as [<- <-].
  eexists content, sha, items, title, _, _.
  split; [done|]. split; [done|]. split; [done|].
  cbv zeta. by rewrite <- app_assoc.
Qed.

Lemma addPhotoToGallery_ok (imagePath : jsstring) (analysis : value)
    (w w' : world) (photoId : jsstring) :
  addPhotoToGallery E imagePath analysis w = (inr photoId, w') →
  ∃ content sha items title timestamp date,
    read_result E (store w) (tick w) gallery_path = inr (content, sha)
    ∧ parse_collection E content = VArr items
    ∧ let record :=
        gallery_record_of analysis imagePath photoId timestamp date in
      let text := JSON_stringify (record :: items) in
      w' = world_at (<[gallery_path := file_of E (utf8_encode text)]> (store w))
             (5 + tick w)
             (trace w ++ [EGetContent gallery_path;
                          EPut (put_of gallery_path (Text text)
                                  (MsgAddGallery title) sha)]).
Proof.
  intros Hrun. rewrite addPhotoToGallery_run in Hrun. cbv zeta in Hrun.
  destruct (read_result E (store w) (tick w) gallery_path)
    as [e|[content sha]] eqn:Hread; [done|].
  destruct (parse_collection E content) as [| | | | |items|] eqn:Hparse;
    try done.
  destruct (readable analysis); [|done].
  destruct (commit_title 30 analysis) as [title|]; [|done].
  destruct (write_result E (store w) (4 + tick w) _); [done|].
  apply pair_inr_inv in Hrun as [<- <-].
  eexists content, sha, items, title, _, _.
  split; [done|]. split; [done|]. cbv zeta. by rewrite <- app_assoc.
Qed.

Lemma classify_fails (t : nat) (p : prompt) :
  openai_fails E t p → gemini_fails E t p → (classify E t p).1 = None.
Proof.
  unfold openai_fails, gemini_fails, classify.
  destruct (openai E) as [create|].
  - intros H _. cbn [fst]. by destruct (create t p).
  - intros _ H. destruct (genAI E) as [generate|]; [|done]. cbn [fst].
    destruct (generate t p) as [e|a]; [done|]. by destruct (match_object a).
Qed.

(** Once the primary provider is configured, the secondary one is out of
    the picture: a failure of the primary call leads to the default record
    and the only call made is the one to the primary provider. *)
Lemma analyzeContent_primary_failure (create : nat → prompt → exn + jsstring)
    (text : jsstring) (hasImage : bool) (w : world) (e : exn) :
  let p := {| prompt_text := Some text; prompt_hasImage := hasImage |} in
  openai E = Some create → create (tick w) p = inl e →
  analyzeContent E (Some text) hasImage w
  = (inr (default_analysis text hasImage),
     world_at (store w) (1 + tick w) (trace w ++ [EOpenAI p])).
Proof.
  intros p Hcfg Hcall. rewrite analyzeContent_run. unfold classify.
  rewrite Hcfg. cbn [fst snd length]. fold p. by rewrite Hcall.
Qed.

Lemma take_app_take {A} (n : nat) (l k : list A) :
  take n (l ++ take n k) = take n (l ++ k).
Proof.
  rewrite !take_app, take_take. do 2 f_equal. lia.
Qed.

(** Inserting records one after the other into a collection of at most
    fifty keeps the last fifty, the newest first. *)
Lemma unshift_and_trim_iterated (records init : list value) :
  length init ≤ 50 →
  foldl (λ newsData record, unshift_and_trim record newsData) init records
  = take 50 (reverse records ++ init).
Proof.
  revert init. induction records as [|r rs IH]; intros init Hinit.
  - cbn [foldl reverse app]. by rewrite take_ge.
  - cbn [foldl]. rewrite IH.
    + unfold unshift_and_trim. rewrite take_app_take.
      by rewrite reverse_cons, <- app_assoc.
    + unfold unshift_and_trim. rewrite length_take. lia.
Qed.

Lemma is_hex_hex_digit (n : N) : (n < 16)%N → is_hex (hex_digit n) = true.
Proof.
  intros Hn.
  assert (∃ m : nat, m < 16 ∧ n = N.of_nat m) as (m & Hm & ->).
  { exists (N.to_nat n). lia. }
  clear Hn. do 16 (destruct m as [|m]; [by vm_compute|]). lia.
Qed.

Lemma decimal_digits (n : N) :
  forallb is_digit (js (decimal n)) = true ∧ js (decimal n) ≠ [].
Proof.
  unfold decimal. split.
  - induction (N.to_uint n) as [|d IH|d IH|d IH|d IH|d IH|d IH|d IH|d IH|d IH|d IH];
      [done|..]; exact IH.
  - assert (N.to_uint n ≠ Decimal.Nil) as Hnil.
    { destruct n as [|p]; [done|]. apply Unsigned.to_uint_nonnil. }
    by destruct (N.to_uint n).
Qed.

Lemma uuid_prefix (rnd : list byte) :
  length (slice0 8 (uuid_string rnd)) = 8
  ∧ forallb is_hex (slice0 8 (uuid_string rnd)) = true.
Proof.
  split; [done|].
  unfold uuid_string, hex2, slice0. cbn [app take forallb].
  repeat (rewrite is_hex_hex_digit;
          [|pose proof (byte_lt (nth 0 rnd x00));
            pose proof (byte_lt (nth 1 rnd x00));
            pose proof (byte_lt (nth 2 rnd x00));
            pose proof (byte_lt (nth 3 rnd x00)); lia]).
  done.
Qed.

Lemma image_filename_pattern (now : N) (rnd : list byte) :
  image_path_pattern (js "images/" ++ image_filename now (uuid_string rnd)).
Proof.
  unfold image_path_pattern, image_filename.
  destruct (decimal_digits now) as [Hd Hne].
  destruct (uuid_prefix rnd) as [Hl Hh].
  by eexists _, _.
Qed.

Lemma puts_app (l k : list event) : puts (l ++ k) = puts l ++ puts k.
Proof. apply omap_app. Qed.

Lemma puts_classify (t : nat) (p : prompt) : puts (classify E t p).2 = [].
Proof.
  unfold classify. destruct (openai E); [done|]. by destruct (genAI E).
Qed.


Lemma images_path_ne (filename path : jsstring) :
  head path ≠ Some (cu_of_N 105) → js "images/" ++ filename ≠ path.
Proof. intros Hne <-. by apply Hne. Qed.

Lemma read_result_insert_ne (st : gmap jsstring file) (t : nat)
    (path path' : jsstring) (f : file) :
  path' ≠ path →
  read_result E (<[path' := f]> st) t path = read_result E st t path.
Proof. intros Hne. unfold read_result. by rewrite lookup_insert_ne. Qed.

End Runs.

(* ===================================================================== *)
(** ** Part VI. The properties of the specification *)
(* ===================================================================== *)

Section Properties.

Context (E : Env).


(** C2. When both classifier providers are disabled or failing,
    [analyzeContent] returns normally, and what it returns is the default
    record: the category is [gallery] with an image and [news] without,
    both titles are the first 50 code units of the text, the priority is
    [medium] and there is no tag. The repository is not touched. *)
Theorem analyzeContent_fallback (text : jsstring) (hasImage : bool) (w : world) :
  let p := {| prompt_text := Some text; prompt_hasImage := hasImage |} in
  openai_fails E (tick w) p → gemini_fails E (tick w) p →
  ∃ w' result,
    analyzeContent E (Some text) hasImage w = (inr result, w')
    ∧ store w' = store w
    ∧ result = default_analysis text hasImage
    ∧ prop result "category" = VStr (js (if hasImage then "gallery" else "news"))
    ∧ prop result "title_hindi" = VStr (take 50 text)
    ∧ prop result "title_english" = VStr (take 50 text)
    ∧ take 50 text `prefix_of` text
    ∧ prop result "description_hindi" = VStr text
    ∧ prop result "description_english" = VStr text
    ∧ prop result "priority" = VStr (js "medium")
    ∧ prop result "tags" = VArr [].
Proof.
  intros p H1 H2. subst p. rewrite analyzeContent_run. cbv zeta.
  rewrite (classify_fails _ _ _ H1 H2).
  eexists _, _. split; [reflexivity|].
  repeat split; try reflexivity. apply prefix_take.
Qed.

(** C3. When [addNewsToWebsite] returns, the file of the news collection
    holds the collection that was read with the new record put in front
    and cut to fifty records. The new record is the head; where fifty or
    more records were there before, exactly fifty remain: the new one and
    the 49 that were first, the later (older) ones being dropped. *)
Theorem addNewsToWebsite_head_and_cap (analysis : value)
    (imagePath : option jsstring) (w w' : world) (newsId : jsstring) :
  addNewsToWebsite E analysis imagePath w = (inr newsId, w') →
  ∃ record items content sha,
    read_result E (store w) (2 + tick w) news_path = inr (content, sha)
    ∧ parse_collection E content = VArr items
    ∧ (∃ date timestamp,
         record = news_record_of analysis imagePath newsId date timestamp)
    ∧ store w' !! news_path
      = Some (file_of E (utf8_encode
                           (JSON_stringify (unshift_and_trim record items))))
    ∧ head (unshift_and_trim record items) = Some record
    ∧ unshift_and_trim record items = record :: take 49 items
    ∧ (length items < 50 → unshift_and_trim record items = record :: items)
    ∧ (50 ≤ length items →
       length (unshift_and_trim record items) = 50
       ∧ items = take 49 items ++ drop 49 items
       ∧ drop 49 items ≠ [])
    ∧ (∀ records init, length init ≤ 50 →
       foldl (λ newsData r, unshift_and_trim r newsData) init records
       = take 50 (reverse records ++ init)).
Proof.
  intros Hrun. rewrite addNewsToWebsite_run in Hrun. cbv zeta in Hrun.
  destruct (html_ok analysis); [|done].
  destruct (read_result E (store w) (2 + tick w) news_path)
    as [e|[content sha]] eqn:Hread; [done|].
  destruct (parse_collection E content) as [| | | | |items|] eqn:Hparse;
    try done.
  destruct (commit_title 50 analysis) as [title|]; [|done].
  destruct (write_result E (store w) (4 + tick w) _); [done|].
  pose proof (f_equal snd Hrun) as Hw'. cbn [snd] in Hw'. subst w'.
  pose proof (f_equal fst Hrun) as Hid. cbn [fst] in Hid.
  assert (slice0 8 (uuid_string (random E (tick w))) = newsId) as Hid'
    by congruence.
  rewrite Hid'. clear Hrun Hid.
  eexists _, items, content, sha. split; [done|]. split; [done|].
  split; [by eexists _, _|].
  split; [cbn [world_at store]; by rewrite lookup_insert_eq|].
  split; [done|]. split; [done|].
  split.
  - intros Hlt. unfold unshift_and_trim. apply take_ge. cbn [length]. lia.
  - split; [|apply unshift_and_trim_iterated].
    intros Hge. split; [|split].
    + unfold unshift_and_trim. rewrite length_take. cbn [length]. lia.
    + by rewrite take_drop.
    + intros Hnil. apply (f_equal length) in Hnil.
      rewrite length_drop in Hnil. cbn [length] in Hnil. lia.
Qed.

(** C4. A text from a sender whom [isAdmin] turns down is answered with
    the authorization notice and nothing else happens: the repository and
    the counter of requests are as before and the notice is the only new
    event. The handler returns what comes of the notice: normally when it
    is delivered, and with Telegram's error when it is refused. With no
    admin id configured [isAdmin] accepts every sender, and with some
    configured it accepts exactly the listed ones. *)
Theorem on_text_unauthorized (ctx : text_message) (w : world) :
  (isAdmin E (text_from ctx) = false →
   on_text E ctx w
   = (sendMessage E (tick w) (RNotAuthorized HText),
      world_at (store w) (tick w)
        (trace w ++ [EReply (RNotAuthorized HText)]))
   ∧ (reply_fault E (tick w) (RNotAuthorized HText) = None →
      on_text E ctx w
      = (inr tt, world_at (store w) (tick w)
                   (trace w ++ [EReply (RNotAuthorized HText)]))))
  ∧ (adminIds E = [] → ∀ userId, isAdmin E userId = true)
  ∧ (adminIds E ≠ [] →
     ∀ userId, isAdmin E userId = true ↔ ∃ z, userId = Some z ∧ Int z ∈ adminIds E).
Proof.
  split; [|split].
  - intros Hno. unfold on_text. rewrite Hno. cbn [negb].
    rewrite reply_with_run. split; [done|].
    intros Hsent. unfold sendMessage. by rewrite Hsent.
  - intros Hnil userId. unfold isAdmin. by rewrite Hnil.
  - intros Hne userId. unfold isAdmin.
    rewrite bool_decide_false by (by destruct (adminIds E)).
    unfold includes. destruct userId as [z|].
    + rewrite bool_decide_eq_true. split; [by eauto|]. by intros (? & [= <-] & ?).
    + split; [done|]. by intros (? & ? & ?).
Qed.

(** C5. [getFileFromGitHub] turns an error of status 404 into
    [(null, null)]: in particular a path that is not in the repository reads
    as [(null, null)]. Every other error of the request is thrown on.
    [updateFileOnGitHub] without a version token sends a request that
    carries no [sha], and where the path was absent and the store accepts
    the request, the file is created with the content given. So the
    write [addNewsToWebsite] sends after it read an absent news file
    carries no [sha]. *)
Theorem getFileFromGitHub_not_found (path : jsstring) (w : world) :
  (∀ e w1, octokit_getContent E path w = (inl e, w1) →
           exn_status e = Some 404%N →
           getFileFromGitHub E path w = (inr (None, None), w1))
  ∧ (∀ e w1, octokit_getContent E path w = (inl e, w1) →
             exn_status e ≠ Some 404%N →
             getFileFromGitHub E path w = (inl e, w1))
  ∧ (store w !! path = None → transport_fault E (tick w) = None →
     ∃ w1, getFileFromGitHub E path w = (inr (None, None), w1)
           ∧ store w1 = store w)
  ∧ (∀ c message w2, ∃ r w3 req,
       updateFileOnGitHub E path c message None w2 = (r, w3)
       ∧ trace w3 = trace w2 ++ [EPut req]
       ∧ put_path req = path ∧ put_sha req = None
       ∧ (store w2 !! path = None →
          write_result E (store w2) (tick w2) req = None →
          r = inr tt ∧ store w3 !! path = Some (file_of E (Buffer_from c))))
  ∧ (∀ analysis imagePath newsId w0 w',
       store w0 !! news_path = None →
       transport_fault E (2 + tick w0) = None →
       addNewsToWebsite E analysis imagePath w0 = (inr newsId, w') →
       ∃ req, last (trace w') = Some (EPut req)
              ∧ put_path req = news_path ∧ put_sha req = None).
Proof.
  split; [|split; [|split; [|split]]].
  - intros e w1 Hget Hst. unfold getFileFromGitHub, try_catch, bind.
    rewrite Hget. by rewrite bool_decide_true.
  - intros e w1 Hget Hst. unfold getFileFromGitHub, try_catch, bind.
    rewrite Hget. by rewrite bool_decide_false.
  - intros Hnone Hok. rewrite getFileFromGitHub_run. unfold read_result.
    rewrite Hok, Hnone. by eexists.
  - intros c message w2. rewrite updateFileOnGitHub_run. cbv zeta.
    destruct (write_result E (store w2) (tick w2) _) as [e|] eqn:Hw.
    + eexists _, _, _. split; [reflexivity|]. repeat split; try done;
        congruence.
    + eexists _, _, _. split; [reflexivity|]. repeat split; try done.
      cbn [store]. by rewrite lookup_insert_eq.
  - intros analysis imagePath newsId w0 w' Hnone Hok Hrun.
    apply addNewsToWebsite_ok in Hrun
      as (content & sha & items & title & date & timestamp & Hread & _ & _ & ->).
    unfold read_result in Hread. rewrite Hok, Hnone in Hread.
    injection Hread as <- <-.
    eexists. cbv zeta. cbn [world_at trace].
    change [?a; ?b] with ([a] ++ [b]). rewrite app_assoc, last_snoc.
    by split.
Qed.




(** C9. The base64 text [updateFileOnGitHub] sends decodes to the bytes it
    encoded, whatever the width of the lines the store returns it in; so a
    collection that was serialized and written reads back, through
    [getFileFromGitHub], as the very string that was written. *)
Theorem store_round_trip (path : jsstring) (items : list value)
    (message : commit_message) (sha : option jsstring) (w w1 : world) :
  updateFileOnGitHub E path (Text (JSON_stringify items)) message sha w
    = (inr tt, w1) →
  transport_fault E (tick w1) = None →
  (∀ bs, base64_decode (wrap_lines (line_width E) (base64_encode bs)) = bs)
  ∧ utf8_decode (utf8_encode (JSON_stringify items)) = JSON_stringify items
  ∧ ∃ sha' w2,
      getFileFromGitHub E path w1
      = (inr (Some (JSON_stringify items), Some sha'), w2).
Proof.
  intros Hput Hok.
  pose proof (utf8_decode_encode _ (well_formed_JSON_stringify items)) as Hutf.
  split; [intros bs; apply base64_decode_encode|]. split; [exact Hutf|].
  rewrite updateFileOnGitHub_run in Hput. cbv zeta in Hput.
  destruct (write_result E (store w) (tick w) _); [done|].
  injection Hput as <-.
  rewrite getFileFromGitHub_run. unfold read_result.
  cbn [store tick]. cbn [tick] in Hok. rewrite Hok.
  rewrite lookup_insert_eq. cbn [file_of file_bytes file_sha Buffer_from].
  rewrite Hutf. by eexists _, _.
Qed.

(** C10. A text that begins with [/] and comes from an accepted sender
    leaves the world as it was: no call to a classifier, no request to the
    store, no reply. *)
Theorem on_text_skips_commands (ctx : text_message) (w : world) :
  isAdmin E (text_from ctx) = true →
  startsWith (js "/") (text_body ctx) = true →
  on_text E ctx w = (inr tt, w).
Proof.
  intros Hadmin Hslash. unfold on_text. by rewrite Hadmin, Hslash.
Qed.

End Properties.

(** *** The properties at concrete inputs *)

(** C1. With the primary provider configured and its call failing,
    [analyzeContent] returns the default record ([news]) and the only call
    it made is the one to the primary provider, although the secondary
    provider is configured and, asked alone, classifies the same text as an
    event. *)
Theorem primary_failure_skips_secondary :
  (analyzeContent secondary_only_env (Some meeting_text) false empty_world).1
    = inr event_answer
  ∧ (analyzeContent primary_down_env (Some meeting_text) false empty_world).1
    = inr (default_analysis meeting_text false)
  ∧ trace (analyzeContent primary_down_env (Some meeting_text) false
             empty_world).2
    = [EOpenAI meeting_prompt].
Proof. by vm_compute. Qed.

Lemma analyzeContent_fallback_witness :
  openai_fails both_down_env (tick empty_world) meeting_prompt
  ∧ gemini_fails both_down_env (tick empty_world) meeting_prompt
  ∧ ∃ w' result,
      analyzeContent both_down_env (Some meeting_text) false empty_world
        = (inr result, w')
      ∧ store w' = store empty_world
      ∧ result = default_analysis meeting_text false.
Proof.
  split; [exact I|]. split; [exact I|].
  destruct (analyzeContent_fallback both_down_env meeting_text false
              empty_world I I) as (w' & result & Hrun & Hstore & Hresult & _).
  by exists w', result.
Defined.

Lemma addNewsToWebsite_head_and_cap_witness :
  addNewsToWebsite news_env news_analysis None full_world
    = (inr news_id, news_after)
  ∧ ∃ record items,
      length items = 50
      ∧ store news_after !! news_path
        = Some (file_of news_env
                  (utf8_encode (JSON_stringify (unshift_and_trim record items))))
      ∧ head (unshift_and_trim record items) = Some record
      ∧ length (unshift_and_trim record items) = 50.
Proof.
  assert (addNewsToWebsite news_env news_analysis None full_world
          = (inr news_id, news_after)) as Hrun by (vm_compute; reflexivity).
  split; [exact Hrun|].
  destruct (addNewsToWebsite_head_and_cap news_env news_analysis None
              full_world news_after news_id Hrun)
    as (record & items & content & sha & Hread & Hparse & _ & Hstore & Hhead
        & _ & _ & Hcap & _).
  assert (items = old_news) as Hitems.
  { assert (parse_collection news_env content = VArr old_news) as Hold.
    { vm_compute in Hread. injection Hread as <- _. by vm_compute. }
    congruence. }
  exists record, items. split; [by rewrite Hitems|].
  split; [exact Hstore|]. split; [exact Hhead|].
  apply Hcap. by rewrite Hitems.
Defined.

Lemma on_text_unauthorized_witness :
  isAdmin guarded_env (text_from stranger_text) = false
  ∧ on_text guarded_env stranger_text empty_world
    = (inr tt, world_at ∅ 0 [EReply (RNotAuthorized HText)])
  ∧ (∀ userId, isAdmin news_env userId = true).
Proof.
  split; [reflexivity|]. split.
  - apply (proj1 (on_text_unauthorized guarded_env stranger_text empty_world));
      reflexivity.
  - apply (proj1 (proj2 (on_text_unauthorized news_env stranger_text
                           empty_world))).
    reflexivity.
Defined.

(** Store client: a path that is absent, and a write that comes back. *)
Lemma getFileFromGitHub_not_found_witness :
  store empty_world !! news_path = None
  ∧ transport_fault news_env (tick empty_world) = None
  ∧ (∃ w1, getFileFromGitHub news_env news_path empty_world
           = (inr (None, None), w1) ∧ store w1 = store empty_world)
  ∧ ∃ r w3 req,
      updateFileOnGitHub news_env news_path (Text (JSON_stringify []))
        (MsgAddNews VUndef) None empty_world = (r, w3)
      ∧ put_sha req = None ∧ trace w3 = [EPut req]
      ∧ r = inr tt.
Proof.
  split; [reflexivity|]. split; [reflexivity|].
  destruct (getFileFromGitHub_not_found news_env news_path empty_world)
    as (_ & _ & Hmissing & Hcreate & _).
  split; [apply Hmissing; reflexivity|].
  destruct (Hcreate (Text (JSON_stringify [])) (MsgAddNews VUndef) empty_world)
    as (r & w3 & req & Hrun & Htrace & _ & Hsha & Hnew).
  exists r, w3, req. split; [exact Hrun|]. split; [exact Hsha|].
  split; [exact Htrace|]. apply Hnew; [reflexivity|].
  rewrite updateFileOnGitHub_run in Hrun. cbv zeta in Hrun.
  apply (f_equal snd) in Hrun. cbn [snd] in Hrun.
  destruct (write_result news_env (store empty_world) (tick empty_world) _)
    eqn:Hw; [by vm_compute in Hw|].
  rewrite <- Hrun in Htrace. cbn [trace empty_world app] in Htrace.
  injection Htrace as <-. exact Hw.
Defined.




Lemma store_round_trip_witness :
  updateFileOnGitHub news_env news_path (Text (JSON_stringify old_news))
    (MsgAddNews VUndef) None empty_world = (inr tt, written_world)
  ∧ transport_fault news_env (tick written_world) = None
  ∧ ∃ sha' w2,
      getFileFromGitHub news_env news_path written_world
      = (inr (Some (JSON_stringify old_news), Some sha'), w2).
Proof.
  assert (updateFileOnGitHub news_env news_path (Text (JSON_stringify old_news))
            (MsgAddNews VUndef) None empty_world = (inr tt, written_world))
    as Hput by (vm_compute; reflexivity).
  split; [exact Hput|]. split; [reflexivity|].
  exact (proj2 (proj2 (store_round_trip news_env news_path old_news
                         (MsgAddNews VUndef) None empty_world written_world
                         Hput eq_refl))).
Defined.

Lemma on_text_skips_commands_witness :
  isAdmin guarded_env (text_from recent_command) = true
  ∧ startsWith (js "/") (text_body recent_command) = true
  ∧ on_text guarded_env recent_command empty_world = (inr tt, empty_world).
Proof.
  split; [reflexivity|]. split; [reflexivity|].
  apply on_text_skips_commands; reflexivity.
Defined.



(* ===================================================================== *)
(** ** Part VII. Further properties of the classifier and the store client *)
(* ===================================================================== *)

Section MatchObject.

Lemma after_first_open_app (pre t : jsstring) :
  ∃ t', after_first_open (pre ++ open_brace :: t) = Some t' ∧ t `suffix_of` t'.
Proof.
  induction pre as [|c pre (t' & IH & Hsuf)]; cbn [app after_first_open].
  - rewrite bool_decide_true by done. by exists t.
  - destruct (bool_decide (c = open_brace)).
    + eexists. split; [done|]. apply suffix_app_r, suffix_cons_r. done.
    + by exists t'.
Qed.

Lemma after_first_open_Some (s rest : jsstring) :
  after_first_open s = Some rest →
  ∃ pre, s = pre ++ open_brace :: rest ∧ open_brace ∉ pre.
Proof.
  revert rest. induction s as [|c s IH]; intros rest; [done|].
  cbn [after_first_open]. destruct (bool_decide (c = open_brace)) eqn:Hc.
  - intros [= <-]. apply bool_decide_eq_true in Hc as ->.
    exists []. split; [done|]. apply not_elem_of_nil.
  - intros Hs. apply IH in Hs as (pre & -> & Hpre).
    apply bool_decide_eq_false in Hc.
    exists (c :: pre). split; [done|]. rewrite not_elem_of_cons. by split.
Qed.

Lemma up_to_last_close_None (s : jsstring) :
  up_to_last_close s = None → close_brace ∉ s.
Proof.
  induction s as [|c s IH]; [intros _; apply not_elem_of_nil|].
  cbn [up_to_last_close]. destruct (up_to_last_close s); [done|].
  destruct (bool_decide (c = close_brace)) eqn:Hc; [done|].
  apply bool_decide_eq_false in Hc. intros _.
  rewrite not_elem_of_cons. split; [done|]. by apply IH.
Qed.

Lemma up_to_last_close_Some (s p : jsstring) :
  up_to_last_close s = Some p →
  ∃ body post, s = body ++ close_brace :: post ∧ p = body ++ [close_brace]
               ∧ close_brace ∉ post.
Proof.
  revert p. induction s as [|c s IH]; intros p; [done|].
  cbn [up_to_last_close]. destruct (up_to_last_close s) as [q|] eqn:Hs.
  - intros [= <-]. destruct (IH q eq_refl) as (body & post & -> & -> & Hpost).
    by exists (c :: body), post.
  - destruct (bool_decide (c = close_brace)) eqn:Hc; [|done].
    apply bool_decide_eq_true in Hc as ->. intros [= <-].
    exists [], s. split; [done|]. split; [done|].
    by apply up_to_last_close_None.
Qed.

(** X1. [text.match(/\{[\s\S]*\}/)] is greedy: what it finds runs from the
    first opening brace of the text to the last closing brace after it, and
    it finds nothing exactly when no closing brace follows an opening
    one. *)
Theorem match_object_greedy (s : jsstring) :
  match match_object s with
  | Some m =>
      ∃ pre body post,
        s = pre ++ m ++ post
        ∧ m = open_brace :: body ++ [close_brace]
        ∧ (open_brace ∉ pre) ∧ (close_brace ∉ post)
  | None =>
      ∀ pre mid post, s ≠ pre ++ open_brace :: mid ++ close_brace :: post
  end.
Proof.
  unfold match_object.
  destruct (after_first_open s) as [rest|] eqn:Hopen.
  - apply after_first_open_Some in Hopen as (pre & -> & Hpre).
    destruct (up_to_last_close rest) as [p|] eqn:Hclose.
    + apply up_to_last_close_Some in Hclose as (body & post & -> & -> & Hpost).
      exists pre, body, post. split; [|done].
      cbn [app]. by rewrite <- !app_assoc.
    + intros pre' mid post Heq.
      destruct (after_first_open_app pre' (mid ++ close_brace :: post))
        as (t' & Ht' & Hsuf).
      rewrite <- Heq in Ht'.
      destruct (after_first_open_app pre rest) as (t'' & Ht'' & _).
      assert (after_first_open (pre ++ open_brace :: rest) = Some rest) as Hrest.
      { clear -Hpre. induction pre as [|c pre IH]; cbn [app after_first_open].
        - by rewrite bool_decide_true.
        - apply not_elem_of_cons in Hpre as [Hc Hpre].
          rewrite bool_decide_false by done. by apply IH. }
      rewrite Hrest in Ht'. injection Ht' as <-.
      apply up_to_last_close_None in Hclose. apply Hclose.
      destruct Hsuf as [k ->]. rewrite elem_of_app. right.
      rewrite elem_of_app. right. constructor.
  - intros pre mid post ->.
    destruct (after_first_open_app pre (mid ++ close_brace :: post))
      as (t' & Ht' & _).
    congruence.
Qed.

End MatchObject.

Section Classifier.

Context (E : Env).

Lemma after_first_open_pre (pre rest : jsstring) :
  open_brace ∉ pre → after_first_open (pre ++ open_brace :: rest) = Some rest.
Proof.
  intros Hpre. induction pre as [|c pre IH]; cbn [app after_first_open].
  - by rewrite bool_decide_true.
  - apply not_elem_of_cons in Hpre as [Hc Hpre].
    rewrite bool_decide_false by done. by apply IH.
Qed.

Lemma up_to_last_close_post (body post : jsstring) :
  close_brace ∉ post →
  up_to_last_close (body ++ close_brace :: post) = Some (body ++ [close_brace]).
Proof.
  intros Hpost.
  assert (up_to_last_close post = None) as Hnone.
  { induction post as [|c post IH]; [done|].
    apply not_elem_of_cons in Hpost as [Hc Hpost].
    cbn [up_to_last_close]. rewrite IH by done.
    by rewrite bool_decide_false. }
  induction body as [|c body IH]; cbn [app up_to_last_close].
  - rewrite Hnone. by rewrite bool_decide_true.
  - by rewrite IH.
Qed.

(** X2. With no primary provider configured, an answer of the secondary
    provider that wraps a JSON object in prose is classified by that
    object: what is parsed is the text from the first opening brace to the
    last closing one, and the only call made is the one to the secondary
    provider. *)
Theorem analyzeContent_secondary_extracts
    (generate : nat → prompt → exn + jsstring) (text : option jsstring)
    (hasImage : bool) (w : world) (pre body post : jsstring) (v : value) :
  let p := {| prompt_text := text; prompt_hasImage := hasImage |} in
  openai E = None → genAI E = Some generate →
  generate (tick w) p = inr (pre ++ open_brace :: body ++ close_brace :: post) →
  open_brace ∉ pre → close_brace ∉ post →
  JSON_parse E (open_brace :: body ++ [close_brace]) = Some v →
  analyzeContent E text hasImage w
  = (inr v, world_at (store w) (1 + tick w) (trace w ++ [EGemini p])).
Proof.
  intros p Hprimary Hsecondary Hanswer Hpre Hpost Hparse.
  rewrite analyzeContent_run. unfold classify.
  rewrite Hprimary, Hsecondary. fold p. rewrite Hanswer.
  unfold match_object. rewrite after_first_open_pre by done.
  rewrite up_to_last_close_post by done.
  cbn [fst snd length]. by rewrite Hparse.
Qed.

(** X3. [analyzeContent] leaves the repository alone and sends no write;
    it calls one provider at most, the primary one whenever that is
    configured and the secondary one only when it is not; and for a text
    that is a string it returns normally whatever the providers do. For
    [undefined] it throws a [TypeError] when no provider gives an answer
    that parses. *)
Theorem analyzeContent_frame (text : option jsstring) (hasImage : bool)
    (w : world) :
  let p := {| prompt_text := text; prompt_hasImage := hasImage |} in
  let run := analyzeContent E text hasImage w in
  let calls :=
    match openai E, genAI E with
    | Some _, _ => [EOpenAI p]
    | None, Some _ => [EGemini p]
    | None, None => []
    end in
  store run.2 = store w
  ∧ trace run.2 = trace w ++ calls
  ∧ tick run.2 = length calls + tick w
  ∧ puts calls = []
  ∧ (∀ t, text = Some t → ∃ v, run.1 = inr v)
  ∧ (text = None → (classify E (tick w) p).1 = None → run.1 = inl TypeError).
Proof.
  cbv zeta. rewrite analyzeContent_run. cbv zeta.
  set (p := {| prompt_text := text; prompt_hasImage := hasImage |}).
  assert ((classify E (tick w) p).2
          = match openai E, genAI E with
            | Some _, _ => [EOpenAI p]
            | None, Some _ => [EGemini p]
            | None, None => []
            end) as Hcalls.
  { unfold classify. destruct (openai E); [done|]. by destruct (genAI E). }
  rewrite <- Hcalls.
  assert (puts (classify E (tick w) p).2 = []) as Hputs by apply puts_classify.
  destruct ((classify E (tick w) p).1) as [v|] eqn:Hv.
  - repeat split; try done. by eauto.
  - destruct text as [t|]; repeat split; try done. by eauto.
Qed.

End Classifier.

Section StoreText.

Context (E : Env).

#[local] Open Scope N_scope.

Lemma utf8_dec_replacement (rest : list byte) :
  utf8_dec Clean (encode_cp 0xFFFD ++ rest) = replacement :: utf8_dec Clean rest.
Proof. rewrite utf8_dec_encode_cp by lia. done. Qed.

Lemma utf8_encode_cons (c : code_unit) (s : jsstring) :
  utf8_encode (c :: s) =
    if is_high (cu_to_N c) then
      match s with
      | d :: s'' =>
          if is_low (cu_to_N d) then
            encode_cp (0x10000 + (cu_to_N c - 0xD800) * 1024
                       + (cu_to_N d - 0xDC00))
            ++ utf8_encode s''
          else encode_cp 0xFFFD ++ utf8_encode s
      | [] => encode_cp 0xFFFD
      end
    else if is_low (cu_to_N c) then encode_cp 0xFFFD ++ utf8_encode s
    else encode_cp (cu_to_N c) ++ utf8_encode s.
Proof. done. Qed.

Lemma toWellFormed_cons (c : code_unit) (s : jsstring) :
  toWellFormed (c :: s) =
    if is_high (cu_to_N c) then
      match s with
      | d :: s'' =>
          if is_low (cu_to_N d) then c :: d :: toWellFormed s''
          else replacement :: toWellFormed s
      | [] => [replacement]
      end
    else if is_low (cu_to_N c) then replacement :: toWellFormed s
    else c :: toWellFormed s.
Proof. done. Qed.

Lemma well_formed_cons (c : code_unit) (s : jsstring) :
  well_formed (c :: s) =
    if is_high (cu_to_N c) then
      match s with
      | d :: s'' => is_low (cu_to_N d) && well_formed s''
      | [] => false
      end
    else negb (is_low (cu_to_N c)) && well_formed s.
Proof. done. Qed.

(** Encoding any string and decoding the bytes gives the string with its
    lone surrogates replaced. *)
Lemma utf8_decode_encode_any (s : jsstring) :
  utf8_decode (utf8_encode s) = toWellFormed s.
Proof.
  unfold utf8_decode.
  assert (∀ s, utf8_dec Clean (utf8_encode s) = toWellFormed s
             ∧ ∀ c, utf8_dec Clean (utf8_encode (c :: s)) = toWellFormed (c :: s))
    as H; [|apply H].
  clear s. induction s as [|d s [IH0 IH1]].
  - split; [done|]. intros c. cbn [toWellFormed utf8_encode].
    destruct (is_high (cu_to_N c)) eqn:Hh.
    { rewrite <- (app_nil_r (encode_cp _)). by rewrite utf8_dec_replacement. }
    destruct (is_low (cu_to_N c)) eqn:Hl.
    { by rewrite utf8_dec_replacement. }
    pose proof (cu_to_N_lt c). unfold is_high, is_low in *.
    rewrite utf8_dec_encode_cp.
    + by rewrite emit_cp_unit.
    + lia.
    + revert Hh Hl. branches; cbn [andb]; intros; try done; lia.
  - split; [apply IH1|]. intros c.
    rewrite utf8_encode_cons, toWellFormed_cons.
    destruct (is_high (cu_to_N c)) eqn:Hh.
    + destruct (is_low (cu_to_N d)) eqn:Hl.
      * pose proof (cu_to_N_lt c). pose proof (cu_to_N_lt d).
        rewrite utf8_dec_encode_cp.
        -- rewrite emit_cp_pair by done. cbn [app]. by rewrite IH0.
        -- unfold is_high, is_low in *. revert Hh Hl.
           branches; cbn [andb]; intros; try done; lia.
        -- unfold is_high, is_low in *. revert Hh Hl.
           branches; cbn [andb]; intros; try done; lia.
      * rewrite utf8_dec_replacement. f_equal. apply IH1.
    + destruct (is_low (cu_to_N c)) eqn:Hl.
      * rewrite utf8_dec_replacement. f_equal. apply IH1.
      * pose proof (cu_to_N_lt c).
        rewrite utf8_dec_encode_cp.
        -- rewrite emit_cp_unit. cbn [app]. f_equal. apply IH1.
        -- lia.
        -- unfold is_high, is_low in *. revert Hh Hl.
           branches; cbn [andb]; intros; try done; lia.
Qed.

Lemma replacement_no_surrogate :
  is_high (cu_to_N replacement) = false ∧ is_low (cu_to_N replacement) = false.
Proof. by vm_compute. Qed.

Lemma toWellFormed_fixed (s : jsstring) :
  toWellFormed s = s ↔ well_formed s = true.
Proof.
  destruct replacement_no_surrogate as [Hrh Hrl].
  assert (∀ s, (toWellFormed s = s ↔ well_formed s = true)
             ∧ ∀ c, toWellFormed (c :: s) = c :: s ↔ well_formed (c :: s) = true)
    as H; [|apply H].
  clear s. induction s as [|d s [IH0 IH1]].
  - split; [done|]. intros c. cbn [toWellFormed well_formed].
    destruct (is_high (cu_to_N c)) eqn:Hh.
    { split; [|done]. intros [= Hc]. congruence. }
    destruct (is_low (cu_to_N c)) eqn:Hl; [|done].
    split; [|done]. intros [= Hc]. congruence.
  - split; [apply IH1|]. intros c.
    rewrite toWellFormed_cons, well_formed_cons.
    destruct (is_high (cu_to_N c)) eqn:Hh.
    + destruct (is_low (cu_to_N d)) eqn:Hl; cbn [andb].
      * split.
        -- intros [= Hs]. by apply IH0.
        -- intros Hs. do 2 f_equal. by apply IH0.
      * split; [|done]. intros [= Hc _]. congruence.
    + destruct (is_low (cu_to_N c)) eqn:Hl; cbn [negb andb].
      * split; [|done]. intros [= Hc _]. congruence.
      * split.
        -- intros [= Hs]. by apply IH1.
        -- intros Hs. f_equal. by apply IH1.
Qed.

(** X4. A text written with [updateFileOnGitHub] and read with
    [getFileFromGitHub] comes back with every lone surrogate replaced by
    U+FFFD, and so unchanged exactly when it had none; the version token
    returned is the hash of the bytes that were written. *)
Theorem text_read_after_write (path s : jsstring) (message : commit_message)
    (sha : option jsstring) (w w1 : world) :
  updateFileOnGitHub E path (Text s) message sha w = (inr tt, w1) →
  transport_fault E (tick w1) = None →
  (∃ w2, getFileFromGitHub E path w1
         = (inr (Some (toWellFormed s), Some (blob_sha E (utf8_encode s))), w2))
  ∧ (toWellFormed s = s ↔ well_formed s = true).
Proof.
  intros Hput Hok. split; [|apply toWellFormed_fixed].
  rewrite updateFileOnGitHub_run in Hput. cbv zeta in Hput.
  destruct (write_result E (store w) (tick w) _); [done|].
  injection Hput as <-.
  rewrite getFileFromGitHub_run. unfold read_result.
  cbn [store tick]. cbn [tick] in Hok. rewrite Hok.
  rewrite lookup_insert_eq. cbn [file_of file_bytes file_sha Buffer_from].
  rewrite utf8_decode_encode_any. by eexists.
Qed.

End StoreText.

(* ===================================================================== *)
(** ** Part VIII. Further properties of the collections *)
(* ===================================================================== *)

Section Collections.

Context (E : Env).

Lemma puts_snoc_get (tr : list event) (path : jsstring) :
  puts (tr ++ [EGetContent path]) = puts tr.
Proof. rewrite puts_app. cbn. apply app_nil_r. Qed.

Lemma parse_collection_value (c : jsstring) (v : value) :
  c ≠ [] → JSON_parse E c = Some v → parse_collection E (Some c) = v.
Proof.
  intros Hc Hv. unfold parse_collection. rewrite Hv.
  by destruct c.
Qed.

Lemma sliceable_commit_title (n : nat) (analysis : value) :
  sliceable (prop analysis "title_english") = false →
  commit_title n analysis = None.
Proof. unfold commit_title. by destruct (prop analysis "title_english"). Qed.

(** X5. A collection file that holds JSON of another shape than an array
    (an object, a string, [null]) blocks every update: [addNewsToWebsite]
    and [addPhotoToGallery] throw a [TypeError] on [unshift], nothing is
    written and the file stays as it is. *)
Theorem collection_not_array_blocks_updates (analysis : value)
    (imagePath : option jsstring) (photoPath : jsstring) (w : world) (f : file)
    (path : jsstring) (v : value) :
  store w !! path = Some f →
  utf8_decode (file_bytes f) ≠ [] →
  JSON_parse E (utf8_decode (file_bytes f)) = Some v →
  (∀ items, v ≠ VArr items) →
  (path = news_path → transport_fault E (2 + tick w) = None →
   let run := addNewsToWebsite E analysis imagePath w in
   run.1 = inl TypeError ∧ store run.2 = store w
   ∧ puts (trace run.2) = puts (trace w))
  ∧ (path = gallery_path → transport_fault E (tick w) = None →
     let run := addPhotoToGallery E photoPath analysis w in
     run.1 = inl TypeError ∧ store run.2 = store w
     ∧ puts (trace run.2) = puts (trace w)).
Proof.
  intros Hfile Hne Hparse Hshape.
  pose proof (parse_collection_value _ _ Hne Hparse) as Hv.
  split.
  - intros -> Hok. cbv zeta. rewrite addNewsToWebsite_run. cbv zeta.
    destruct (html_ok analysis); [|done].
    unfold read_result. rewrite Hok, Hfile, Hv.
    destruct v as [| | | | |items|]; cbn [fst snd world_at store trace];
      try (by rewrite puts_snoc_get).
    by destruct (Hshape items).
  - intros -> Hok. cbv zeta. rewrite addPhotoToGallery_run. cbv zeta.
    unfold read_result. rewrite Hok, Hfile, Hv.
    destruct v as [| | | | |items|]; cbn [fst snd world_at store trace];
      try (by rewrite puts_snoc_get).
    by destruct (Hshape items).
Qed.

(** X6. An analysis whose [title_english] has no [slice] method (it is
    missing, a number, [null], an object) is never published: both update
    functions throw, at the latest when they build the commit message, and
    no write is sent. *)
Theorem title_english_required (analysis : value) (imagePath : option jsstring)
    (photoPath : jsstring) (w : world) :
  sliceable (prop analysis "title_english") = false →
  let news := addNewsToWebsite E analysis imagePath w in
  let gallery := addPhotoToGallery E photoPath analysis w in
  (∃ e, news.1 = inl e) ∧ store news.2 = store w
  ∧ puts (trace news.2) = puts (trace w)
  ∧ (∃ e, gallery.1 = inl e) ∧ store gallery.2 = store w
  ∧ puts (trace gallery.2) = puts (trace w).
Proof.
  intros Htitle. cbv zeta.
  rewrite addNewsToWebsite_run, addPhotoToGallery_run. cbv zeta.
  rewrite !sliceable_commit_title by done.
  split; [|split; [|split; [|split; [|split]]]].
  - destruct (html_ok analysis); [|by eauto].
    destruct (read_result E _ _ _) as [e|[c s]]; [by eauto|].
    destruct (parse_collection E c); by eauto.
  - destruct (html_ok analysis); [|done].
    destruct (read_result E _ _ _) as [e|[c s]]; [done|].
    by destruct (parse_collection E c).
  - destruct (html_ok analysis); [|done].
    destruct (read_result E _ _ _) as [e|[c s]]; cbn [snd world_at trace];
      [by rewrite puts_snoc_get|].
    destruct (parse_collection E c); cbn [snd world_at trace];
      by rewrite puts_snoc_get.
  - destruct (read_result E _ _ _) as [e|[c s]]; [by eauto|].
    destruct (parse_collection E c); try (by eauto).
    destruct (readable analysis); by eauto.
  - destruct (read_result E _ _ _) as [e|[c s]]; [done|].
    destruct (parse_collection E c); try done.
    by destruct (readable analysis).
  - destruct (read_result E _ _ _) as [e|[c s]]; cbn [snd world_at trace];
      [by rewrite puts_snoc_get|].
    destruct (parse_collection E c); cbn [snd world_at trace];
      try (by rewrite puts_snoc_get).
    destruct (readable analysis); cbn [snd world_at trace];
      by rewrite puts_snoc_get.
Qed.

Lemma JSON_stringify_items (l : list value) :
  JSON_stringify l = block "[" "]" 0 (map item_text l).
Proof. done. Qed.

Lemma same_text_stringify (l k : list value) :
  same_text l k → JSON_stringify l = JSON_stringify k.
Proof. unfold same_text. rewrite !JSON_stringify_items. by intros ->. Qed.

Lemma same_text_cons (r : value) (l k : list value) :
  same_text l k → same_text (r :: l) (r :: k).
Proof. unfold same_text. cbn [map]. by intros ->. Qed.

Lemma same_text_take (n : nat) (l k : list value) :
  same_text l k → same_text (take n l) (take n k).
Proof. unfold same_text. rewrite <- !firstn_map. by intros ->. Qed.

Lemma JSON_stringify_truthy (l : list value) :
  truthy_string (JSON_stringify l) = true.
Proof.
  rewrite JSON_stringify_items. unfold block.
  by destruct (map item_text l).
Qed.

(** What was written is what the next update reads. *)
Lemma read_written_collection (w : world) (t : nat) (path : jsstring)
    (l l' : list value) :
  store w !! path = Some (file_of E (utf8_encode (JSON_stringify l))) →
  transport_fault E t = None →
  JSON_parse E (JSON_stringify l) = Some (VArr l') →
  ∃ content,
    read_result E (store w) t path
    = inr (content, Some (blob_sha E (utf8_encode (JSON_stringify l))))
    ∧ parse_collection E content = VArr l'.
Proof.
  intros Hfile Hok Hparse. unfold read_result. rewrite Hok, Hfile.
  cbn [file_of file_bytes file_sha].
  rewrite utf8_decode_encode by apply well_formed_JSON_stringify.
  eexists. split; [done|]. unfold parse_collection.
  by rewrite JSON_stringify_truthy, Hparse.
Qed.

(** X7. The updates compose: where the file of a collection holds what an
    earlier update wrote, and [JSON.parse] reads that text back (up to
    properties that were [undefined]), the next update writes the same
    records with the new one in front (cut to fifty for the news), in a
    request that carries the hash of the version it read. *)
Theorem collections_extend_what_was_written (analysis : value)
    (imagePath : option jsstring) (photoPath : jsstring) (w : world)
    (path : jsstring) (l l' : list value) :
  let bytes := utf8_encode (JSON_stringify l) in
  let token :=
    if truthy_string (blob_sha E bytes) then Some (blob_sha E bytes) else None in
  store w !! path = Some (file_of E bytes) →
  JSON_parse E (JSON_stringify l) = Some (VArr l') →
  same_text l' l →
  (path = news_path → transport_fault E (2 + tick w) = None →
   ∀ newsId w', addNewsToWebsite E analysis imagePath w = (inr newsId, w') →
   ∃ record req,
     (∃ date timestamp,
        record = news_record_of analysis imagePath newsId date timestamp)
     ∧ store w' !! news_path
       = Some (file_of E (utf8_encode
                            (JSON_stringify (unshift_and_trim record l))))
     ∧ last (trace w') = Some (EPut req)
     ∧ put_path req = news_path ∧ put_sha req = token)
  ∧ (path = gallery_path → transport_fault E (tick w) = None →
     ∀ photoId w', addPhotoToGallery E photoPath analysis w = (inr photoId, w') →
     ∃ record req,
       (∃ timestamp date,
          record = gallery_record_of analysis photoPath photoId timestamp date)
       ∧ store w' !! gallery_path
         = Some (file_of E (utf8_encode (JSON_stringify (record :: l))))
       ∧ last (trace w') = Some (EPut req)
       ∧ put_path req = gallery_path ∧ put_sha req = token).
Proof.
  intros bytes token Hfile Hparse Hsame. split.
  - intros -> Hok newsId w' Hrun.
    destruct (read_written_collection w (2 + tick w) news_path l l'
                Hfile Hok Hparse) as (content & Hread & Hitems).
    apply addNewsToWebsite_ok in Hrun
      as (content' & sha & items & title & date & timestamp & Hread' & Hitems'
          & _ & ->).
    rewrite Hread in Hread'. injection Hread' as <- <-.
    rewrite Hitems in Hitems'. injection Hitems' as <-.
    cbv zeta. cbn [world_at store trace].
    eexists _, _. split; [by eexists _, _|].
    split.
    { rewrite lookup_insert_eq.
      assert (∀ r, JSON_stringify (unshift_and_trim r l')
                   = JSON_stringify (unshift_and_trim r l)) as Heq.
      { intros r. apply same_text_stringify. unfold unshift_and_trim.
        by apply same_text_take, same_text_cons. }
      rewrite Heq. reflexivity. }
    split.
    { change [?a; ?b] with ([a] ++ [b]). by rewrite app_assoc, last_snoc. }
    done.
  - intros -> Hok photoId w' Hrun.
    destruct (read_written_collection w (tick w) gallery_path l l'
                Hfile Hok Hparse) as (content & Hread & Hitems).
    apply addPhotoToGallery_ok in Hrun
      as (content' & sha & items & title & timestamp & date & Hread' & Hitems'
          & ->).
    rewrite Hread in Hread'. injection Hread' as <- <-.
    rewrite Hitems in Hitems'. injection Hitems' as <-.
    cbv zeta. cbn [world_at store trace].
    eexists _, _. split; [by eexists _, _|].
    split.
    { rewrite lookup_insert_eq.
      assert (∀ r, JSON_stringify (r :: l') = JSON_stringify (r :: l)) as Heq.
      { intros r. by apply same_text_stringify, same_text_cons. }
      rewrite Heq. reflexivity. }
    split.
    { change [?a; ?b] with ([a] ++ [b]). by rewrite app_assoc, last_snoc. }
    done.
Qed.

End Collections.

(* ===================================================================== *)
(** ** Part IX. Further properties of the handlers *)
(* ===================================================================== *)

Section TextHandler.

Context (E : Env).

Lemma analyzeContent_string (t : jsstring) (hasImage : bool) (w : world) :
  ∃ analysis w',
    analyzeContent E (Some t) hasImage w = (inr analysis, w')
    ∧ store w' = store w ∧ puts (trace w') = puts (trace w).
Proof.
  rewrite analyzeContent_run. cbv zeta.
  destruct (classify E _ _).1; eexists _, _; (split; [reflexivity|]);
    cbn [world_at store trace]; by rewrite puts_app, puts_classify, app_nil_r.
Qed.

Lemma html_ok_readable (analysis : value) :
  html_ok analysis = true →
  readable analysis = true ∧ to_string_ok (prop analysis "title_hindi") = true.
Proof.
  unfold html_ok. intros H.
  repeat (apply andb_prop in H as [H ?]). by split.
Qed.

Lemma addNewsToWebsite_html_ok (analysis : value) (imagePath : option jsstring)
    (w w' : world) (newsId : jsstring) :
  addNewsToWebsite E analysis imagePath w = (inr newsId, w') →
  html_ok analysis = true.
Proof. rewrite addNewsToWebsite_run. cbv zeta. by destruct (html_ok analysis). Qed.

(** Whatever comes of it, [addNewsToWebsite] changes nothing but the news
    file, which then holds fifty records at most, and sends one write at
    most, to that file. *)
Lemma addNewsToWebsite_any (analysis : value) (imagePath : option jsstring)
    (w : world) :
  let run := addNewsToWebsite E analysis imagePath w in
  (store run.2 = store w
   ∨ ∃ items, length items ≤ 50
       ∧ store run.2
         = <[news_path := file_of E (utf8_encode (JSON_stringify items))]>
             (store w))
  ∧ (puts (trace run.2) = puts (trace w)
     ∨ ∃ req, puts (trace run.2) = puts (trace w) ++ [req]
              ∧ put_path req = news_path)
  ∧ (∀ e, run.1 = inl e → store run.2 = store w).
Proof.
  cbv zeta. rewrite addNewsToWebsite_run. cbv zeta.
  destruct (html_ok analysis); [|by auto].
  destruct (read_result E _ _ _) as [e|[content sha]];
    cbn [fst snd world_at store trace]; [rewrite puts_snoc_get; by auto|].
  destruct (parse_collection E content) as [| | | | |items|];
    cbn [fst snd world_at store trace]; try (rewrite puts_snoc_get; by auto).
  destruct (commit_title 50 analysis) as [title|];
    cbn [fst snd world_at store trace]; [|rewrite puts_snoc_get; by auto].
  destruct (write_result E _ _ _) as [e|]; cbn [fst snd world_at store trace].
  - split; [by left|]. split; [|done].
    right. eexists. rewrite puts_app, puts_snoc_get. by split.
  - split; [|split; [|done]].
    + right. eexists. split; [|reflexivity].
      unfold unshift_and_trim. rewrite length_take. lia.
    + right. eexists. rewrite puts_app, puts_snoc_get. by split.
Qed.

(** The text handler in closed form, for an accepted sender and a text
    that is no command. *)
Lemma on_text_run (ctx : text_message) (w : world) :
  isAdmin E (text_from ctx) = true →
  startsWith (js "/") (text_body ctx) = false →
  let w0 := record_event (EReply (RProcessing HText)) w in
  ∃ analysis w1,
    analyzeContent E (Some (text_body ctx)) false w0 = (inr analysis, w1)
    ∧ store w1 = store w ∧ puts (trace w1) = puts (trace w)
    ∧ on_text E ctx w =
        match reply_fault E (tick w) (RProcessing HText) with
        | Some e => (inr tt, record_event (EReply (RError HText e)) w0)
        | None =>
            match addNewsToWebsite E analysis None w1 with
            | (inl e, w2) => (inr tt, record_event (EReply (RError HText e)) w2)
            | (inr newsId, w2) =>
                let ack :=
                  RTextAck (prop analysis "category")
                    (prop analysis "title_hindi") newsId in
                if to_string_ok (prop analysis "category") then
                  match reply_fault E (tick w2) ack with
                  | None => (inr tt, record_event (EReply ack) w2)
                  | Some e =>
                      (inr tt,
                       record_event (EReply (RError HText e))
                         (record_event (EReply ack) w2))
                  end
                else (inr tt, record_event (EReply (RError HText TypeError)) w2)
            end
        end.
Proof.
  intros Hadmin Hslash w0.
  destruct (analyzeContent_string (text_body ctx) false w0)
    as (analysis & w1 & Hclassify & Hstore & Hputs).
  exists analysis, w1. split; [exact Hclassify|].
  split; [exact Hstore|].
  split. { rewrite Hputs. unfold w0. cbn [record_event trace].
           rewrite puts_app. apply app_nil_r. }
  unfold on_text. rewrite Hadmin, Hslash. cbn [negb].
  unfold try_catch. unfold bind at 1. rewrite reply_with_run. fold w0.
  unfold sendMessage.
  destruct (reply_fault E (tick w) (RProcessing HText)) as [e|]; [done|].
  unfold bind at 1. rewrite Hclassify.
  unfold bind at 1.
  destruct (addNewsToWebsite E analysis None w1) as [[e|newsId] w2] eqn:Hadd;
    [done|].
  apply addNewsToWebsite_html_ok, html_ok_readable in Hadd as [Hr Ht].
  rewrite bind_lift, get_prop_readable, Hr. rewrite bind_check_string.
  cbv zeta.
  destruct (to_string_ok (prop analysis "category")); [|done].
  rewrite bind_lift, get_prop_readable, Hr. rewrite bind_check_string, Ht.
  rewrite reply_with_run. unfold sendMessage.
  by destruct (reply_fault E (tick w2) _).
Qed.

(** X8. When the text handler, given a text that is no command, ends on
    its acknowledgment, it sent one write, to the news file, and changed
    nothing else: the file holds the records that were read with one
    record in front, made from what [analyzeContent] returned for the text
    (without image), and the acknowledgment carries the category and the
    Hindi title of that analysis and the id of that record. *)
Theorem on_text_publishes (ctx : text_message) (w w' : world)
    (category title : value) (newsId : jsstring) :
  startsWith (js "/") (text_body ctx) = false →
  on_text E ctx w = (inr tt, w') →
  last (trace w') = Some (EReply (RTextAck category title newsId)) →
  isAdmin E (text_from ctx) = true
  ∧ ∃ analysis w0 w1 record items content sha t new collection,
      analyzeContent E (Some (text_body ctx)) false w0 = (inr analysis, w1)
      ∧ category = prop analysis "category"
      ∧ title = prop analysis "title_hindi"
      ∧ trace w' = trace w ++ new
      ∧ head new = Some (EReply (RProcessing HText))
      ∧ puts new = [collection]
      ∧ put_path collection = news_path
      ∧ read_result E (store w) t news_path = inr (content, sha)
      ∧ parse_collection E content = VArr items
      ∧ (∃ date timestamp,
           record = news_record_of analysis None newsId date timestamp)
      ∧ prop record "id" = VStr newsId
      ∧ prop record "image" = VNull
      ∧ store w'
        = <[news_path := file_of E (utf8_encode
                           (JSON_stringify (unshift_and_trim record items)))]>
            (store w).
Proof.
  intros Hslash Hrun Hlast.
  destruct (isAdmin E (text_from ctx)) eqn:Hadmin.
  2:{ unfold on_text in Hrun. rewrite Hadmin in Hrun. cbn [negb] in Hrun.
      apply reply_with_ok in Hrun as [_ ->].
      cbn [record_event trace] in Hlast. by rewrite last_snoc in Hlast. }
  split; [done|].
  destruct (on_text_run ctx w Hadmin Hslash)
    as (analysis & w1 & Hclassify & Hstore & Hputs & Heq).
  rewrite Heq in Hrun. clear Heq.
  destruct (reply_fault E (tick w) (RProcessing HText)) as [e|].
  { apply pair_inr_inv in Hrun as [_ <-].
    cbn [record_event trace] in Hlast. by rewrite last_snoc in Hlast. }
  destruct (addNewsToWebsite E analysis None w1) as [[e|id] w2] eqn:Hadd.
  { apply pair_inr_inv in Hrun as [_ <-].
    cbn [record_event trace] in Hlast. by rewrite last_snoc in Hlast. }
  cbv zeta in Hrun.
  destruct (to_string_ok (prop analysis "category")).
  2:{ apply pair_inr_inv in Hrun as [_ <-].
      cbn [record_event trace] in Hlast. by rewrite last_snoc in Hlast. }
  destruct (reply_fault E (tick w2) _) as [e|].
  { apply pair_inr_inv in Hrun as [_ <-].
    cbn [record_event trace] in Hlast. by rewrite last_snoc in Hlast. }
  apply pair_inr_inv in Hrun as [_ <-].
  cbn [record_event trace] in Hlast. rewrite last_snoc in Hlast.
  injection Hlast as <- <- <-.
  pose proof Hclassify as Hw1. apply analyzeContent_ok in Hw1. cbv zeta in Hw1.
  set (events := (classify E _ _).2) in Hw1.
  assert (puts events = []) as Hevents by apply puts_classify.
  clearbody events.
  apply addNewsToWebsite_ok in Hadd
    as (content & sha & items & title' & date & timestamp & Hread & Hparse
        & _ & ->).
  rewrite Hstore in Hread. subst w1.
  cbv zeta. cbn [world_at record_event store tick trace] in *.
  eexists analysis, _, _, _, items, content, sha, _, _, _.
  split; [exact Hclassify|]. split; [done|]. split; [done|].
  split; [rewrite <- !app_assoc; reflexivity|].
  split; [done|].
  split; [rewrite !puts_app, Hevents; reflexivity|].
  split; [done|]. split; [exact Hread|]. split; [exact Hparse|].
  split; [by eexists _, _|]. split; [done|]. split; [done|].
  reflexivity.
Qed.



Lemma addNewsToWebsite_err (analysis : value) (imagePath : option jsstring)
    (w w' : world) (e : exn) :
  addNewsToWebsite E analysis imagePath w = (inl e, w') → store w' = store w.
Proof.
  intros Hrun. destruct (addNewsToWebsite_any analysis imagePath w)
    as (_ & _ & Herr).
  rewrite Hrun in Herr. by eapply Herr.
Qed.

Lemma puts_snoc_reply (tr : list event) (r : reply) :
  puts (tr ++ [EReply r]) = puts tr.
Proof. rewrite puts_app. cbn. apply app_nil_r. Qed.

(** X10. No failure of a provider, of the store or of Telegram escapes
    the text handler once the sender is accepted: it returns normally
    whatever it is given (for a sender it turns down, it returns what
    comes of the notice). It sends one write at most, to the news file,
    and leaves every other file of the repository as it was; if it changes
    the news file, the file holds the serialization of fifty records at
    most. *)
Theorem on_text_touches_only_news (ctx : text_message) (w : world) :
  let run := on_text E ctx w in
  run.1 = (if isAdmin E (text_from ctx) then inr tt
           else sendMessage E (tick w) (RNotAuthorized HText))
  ∧ (∀ path, path ≠ news_path → store run.2 !! path = store w !! path)
  ∧ (store run.2 !! news_path = store w !! news_path
     ∨ ∃ items,
         length items ≤ 50
         ∧ store run.2 !! news_path
           = Some (file_of E (utf8_encode (JSON_stringify items))))
  ∧ (puts (trace run.2) = puts (trace w)
     ∨ ∃ req, puts (trace run.2) = puts (trace w) ++ [req]
              ∧ put_path req = news_path).
Proof.
  cbv zeta.
  destruct (isAdmin E (text_from ctx)) eqn:Hadmin.
  2:{ unfold on_text. rewrite Hadmin. cbn [negb]. rewrite reply_with_run.
      cbn [fst snd record_event store trace]. rewrite puts_snoc_reply.
      by auto. }
  destruct (startsWith (js "/") (text_body ctx)) eqn:Hslash.
  { unfold on_text. rewrite Hadmin, Hslash. cbn [negb ret fst snd]. by auto. }
  destruct (on_text_run ctx w Hadmin Hslash)
    as (analysis & w1 & _ & Hstore & Hputs & ->).
  destruct (reply_fault E (tick w) (RProcessing HText)) as [e|].
  { cbn [fst snd record_event store trace]. rewrite !puts_snoc_reply.
    by auto. }
  destruct (addNewsToWebsite_any analysis None w1) as (Hst & Hp & _).
  destruct (addNewsToWebsite E analysis None w1) as [[e|id] w2];
    [|cbv zeta; destruct (to_string_ok (prop analysis "category"));
      [destruct (reply_fault E (tick w2) _)|]];
    cbn [fst snd] in *; cbn [record_event store trace];
    rewrite ?puts_snoc_reply, <- Hputs, <- Hstore;
    (split; [done|]);
    (split; [intros path Hpath; destruct Hst as [->|(items & _ & ->)];
             [done|by rewrite lookup_insert_ne]|]);
    (split; [destruct Hst as [->|(items & Hlen & ->)];
             [by left|right; exists items; by rewrite lookup_insert_eq]|]);
    exact Hp.
Qed.


End TextHandler.

Section PhotoHandler.

Context (E : Env).

Lemma bind_inl {A B} (m : M A) (f : A → M B) (w w' : world) (e : exn) :
  bind m f w = (inl e, w') →
  m w = (inl e, w') ∨ ∃ a w1, m w = (inr a, w1) ∧ f a w1 = (inl e, w').
Proof.
  unfold bind. destruct (m w) as [[e'|a] w1]; intros H.
  - injection H as -> ->. by left.
  - right. by eauto.
Qed.

Lemma pair_inl_inv {A} (e e' : exn) (w1 w2 : world) :
  (inl e : exn + A, w1) = (inl e', w2) → e = e' ∧ w1 = w2.
Proof. by intros [= -> ->]. Qed.

Lemma caption_default (caption : option jsstring) (s : jsstring) :
  ∃ c, or_else caption (Some s) = Some c.
Proof.
  unfold or_else. destruct caption as [c|]; [|by eauto].
  destruct (truthy_string c); by eauto.
Qed.

Lemma analyzeContent_store (text : option jsstring) (hasImage : bool)
    (w : world) (r : exn + value) (w' : world) :
  analyzeContent E text hasImage w = (r, w') →
  store w' = store w ∧ puts (trace w') = puts (trace w).
Proof.
  rewrite analyzeContent_run. cbv zeta.
  destruct (classify E _ _).1; [|destruct text]; intros [= _ <-];
    cbn [world_at store trace]; by rewrite puts_app, puts_classify, app_nil_r.
Qed.

Lemma uploadImageToGitHub_err (imageBuffer : list byte) (filename : jsstring)
    (w w' : world) (e : exn) :
  uploadImageToGitHub E imageBuffer filename w = (inl e, w') →
  store w' = store w.
Proof.
  unfold uploadImageToGitHub. rewrite bind_lift.
  destruct (sharp E imageBuffer) as [e'|optimized]; [by intros [= _ <-]|].
  unfold bind. rewrite updateFileOnGitHub_run. cbv zeta.
  destruct (write_result E _ _ _); [|done]. by intros [= _ <-].
Qed.

Lemma addPhotoToGallery_err (imagePath : jsstring) (analysis : value)
    (w w' : world) (e : exn) :
  addPhotoToGallery E imagePath analysis w = (inl e, w') → store w' = store w.
Proof.
  rewrite addPhotoToGallery_run. cbv zeta.
  destruct (read_result E _ _ _) as [e'|[content sha]]; [by intros [= _ <-]|].
  destruct (parse_collection E content) as [| | | | |items|].
  1-5, 7: by intros [= _ <-].
  destruct (readable analysis); [|by intros [= _ <-]].
  destruct (commit_title 30 analysis); [|by intros [= _ <-]].
  destruct (write_result E _ _ _); [|done]. by intros [= _ <-].
Qed.

Lemma image_path_not_collection (path : jsstring) :
  image_path_pattern path → path ≠ news_path ∧ path ≠ gallery_path.
Proof.
  intros (digits & hex & -> & _). split; by apply images_path_ne.
Qed.

(** The photo handler up to the upload of the image, for an accepted
    sender: either it fails before anything was written, or the image is
    in the repository and the analysis of the caption at hand. *)
Lemma on_photo_upload (ctx : photo_message) (w : world) (r : exn + unit)
    (w' : world) (rest : value → jsstring → M unit) :
  (let* _ := reply_with E (RProcessing HPhoto) in
   let photo := last (photo_sizes ctx) in
   let caption := or_else (photo_caption ctx) (Some (js "Village Photo")) in
   let* file_id :=
     match photo with Some id => ret id | None => throw TypeError end in
   let* href := getFileLink E file_id in
   let* imageBuffer := axios_get E href in
   let* analysis := analyzeContent E caption true in
   let* now := Date_now E in
   let* u := uuidv4 E in
   let filename := image_filename now u in
   let* imagePath := uploadImageToGitHub E imageBuffer filename in
   rest analysis imagePath) w = (r, w') →
  (∃ e, r = inl e ∧ store w' = store w)
  ∨ ∃ id href caption analysis w2 w3 optimized imagePath w6,
      last (photo_sizes ctx) = Some id
      ∧ or_else (photo_caption ctx) (Some (js "Village Photo")) = Some caption
      ∧ w2 = world_at (store w) (2 + tick w)
               (trace w ++ [EReply (RProcessing HPhoto); EGetFileLink id;
                            EDownload href])
      ∧ analyzeContent E (Some caption) true w2 = (inr analysis, w3)
      ∧ (image_path_pattern imagePath
         ∧ ∃ imageBuffer,
             file_link E (tick w) id = inr href
             ∧ download E (S (tick w)) href = inr imageBuffer
             ∧ sharp E imageBuffer = inr optimized)
      ∧ w6 = world_at (<[imagePath := file_of E optimized]> (store w))
               (3 + tick w3)
               (trace w3 ++ [EPut (put_of imagePath (Bytes optimized)
                                     (MsgAddImage
                                        (image_filename (clock E (tick w3))
                                           (uuid_string
                                              (random E (S (tick w3))))))
                                     None)])
      ∧ rest analysis imagePath w6 = (r, w').
Proof.
  cbv zeta. unfold bind at 1. rewrite reply_with_run. unfold sendMessage.
  destruct (reply_fault E (tick w) (RProcessing HPhoto)) as [e|];
    [intros [= <- <-]; left; by eauto|].
  unfold bind at 1.
  destruct (last (photo_sizes ctx)) as [id|] eqn:Hsizes;
    [|intros [= <- <-]; left; by eauto].
  unfold ret at 1. unfold bind at 1. unfold getFileLink at 1.
  cbn [record_event bump tick trace store].
  destruct (file_link E (tick w) id) as [e|href] eqn:Hlink;
    [intros [= <- <-]; left; by eauto|].
  unfold bind at 1. unfold axios_get at 1.
  cbn [record_event bump tick trace store].
  destruct (download E (S (tick w)) href) as [e|buf] eqn:Hdownload;
    [intros [= <- <-]; left; by eauto|].
  destruct (caption_default (photo_caption ctx) (js "Village Photo"))
    as [caption Hcaption].
  rewrite Hcaption.
  unfold bind at 1.
  match goal with
  | |- context [analyzeContent E (Some caption) true ?w0] =>
      destruct (analyzeContent_string E caption true w0)
        as (analysis & w3 & Hclassify & Hstore & _);
      assert (w0 = world_at (store w) (2 + tick w)
                     (trace w ++ [EReply (RProcessing HPhoto); EGetFileLink id;
                                  EDownload href])) as Hw0
        by (unfold world_at, record_event, bump; cbn [store tick trace];
            by rewrite <- !app_assoc);
      rewrite Hclassify
  end.
  cbn [store record_event bump] in Hstore.
  unfold bind at 1. unfold Date_now at 1.
  unfold bind at 1. unfold uuidv4 at 1.
  cbn [bump tick trace store].
  unfold bind at 1.
  match goal with
  | |- context [uploadImageToGitHub E buf ?name ?w5] =>
      destruct (uploadImageToGitHub E buf name w5) as [[e|imagePath] w6]
        eqn:Hupload
  end.
  - apply uploadImageToGitHub_err in Hupload. cbn [store bump] in Hupload.
    intros [= <- <-]. left. eexists. split; [done|]. congruence.
  - apply uploadImageToGitHub_ok in Hupload
      as (optimized & Hsharp & Hpath & Hw6).
    cbn [store tick trace bump] in Hw6. rewrite Hstore in Hw6.
    intros Hrest. right.
    eexists id, href, caption, analysis, _, w3, optimized, imagePath, w6.
    split; [done|]. split; [done|]. split; [reflexivity|].
    split; [by rewrite <- Hw0|].
    split. { split; [rewrite Hpath; apply image_filename_pattern|].
             by exists buf. }
    split; [|exact Hrest].
    rewrite Hw6. reflexivity.
Qed.

(** The photo handler after the upload: the collection and the reply. *)
Lemma on_photo_collection (analysis : value) (imagePath : jsstring)
    (w6 : world) (r : exn + unit) (w' : world) :
  (let* category := lift (get_prop analysis "category") in
   let* _ :=
     if is_string category "gallery" || is_string category "heritage"
     then addPhotoToGallery E imagePath analysis
     else addNewsToWebsite E analysis (Some imagePath) in
   let* _ := check_string category in
   let* title_hindi := lift (get_prop analysis "title_hindi") in
   let* _ := check_string title_hindi in
   reply_with E (RPhotoAck category title_hindi imagePath)) w6 = (r, w') →
  (∃ e, r = inl e ∧ store w' = store w6)
  ∨ ∃ id w7,
      (if is_string (prop analysis "category") "gallery"
          || is_string (prop analysis "category") "heritage"
       then addPhotoToGallery E imagePath analysis
       else addNewsToWebsite E analysis (Some imagePath)) w6 = (inr id, w7)
      ∧ let ack :=
          RPhotoAck (prop analysis "category") (prop analysis "title_hindi")
            imagePath in
        if reply_ok analysis
        then r = sendMessage E (tick w7) ack
             ∧ w' = record_event (EReply ack) w7
        else r = inl TypeError ∧ w' = w7.
Proof.
  cbv zeta. rewrite bind_lift, get_prop_readable.
  destruct (readable analysis) eqn:Hreadable;
    [|intros [= <- <-]; left; by eauto].
  unfold bind at 1.
  set (add := if is_string (prop analysis "category") "gallery"
                 || is_string (prop analysis "category") "heritage"
              then addPhotoToGallery E imagePath analysis
              else addNewsToWebsite E analysis (Some imagePath)).
  destruct (add w6) as [[e|id] w7] eqn:Hadd.
  - intros [= <- <-]. left. eexists. split; [done|].
    unfold add in Hadd. destruct (_ || _).
    + by eapply addPhotoToGallery_err.
    + by eapply addNewsToWebsite_err.
  - rewrite bind_check_string. unfold reply_ok.
    destruct (to_string_ok (prop analysis "category"));
      [|intros [= <- <-]; right; by exists id, w7].
    rewrite bind_lift, get_prop_readable, Hreadable, bind_check_string.
    destruct (to_string_ok (prop analysis "title_hindi"));
      [rewrite reply_with_run|];
      intros [= <- <-]; right; by exists id, w7.
Qed.

(** X12. When the photo handler ends on an error reply, three things can
    have happened: nothing was written; or the image was stored, under a
    path [images/<digits>_<8-hex>.jpg], and no collection was changed, so
    that no record refers to it; or the record was published as well, in
    the collection the category of the analysis of the caption selects,
    and the error comes from the acknowledgment, which either cannot print
    the category or the Hindi title of the analysis (a [TypeError]) or was
    refused by Telegram (the error is Telegram's). *)
Theorem on_photo_error_store (ctx : photo_message) (w w' : world) (e : exn) :
  on_photo E ctx w = (inr tt, w') →
  last (trace w') = Some (EReply (RError HPhoto e)) →
  store w' = store w
  ∨ (∃ imagePath optimized,
       image_path_pattern imagePath
       ∧ store w' = <[imagePath := file_of E optimized]> (store w))
  ∨ (∃ id href caption analysis w3 imagePath optimized record items,
       or_else (photo_caption ctx) (Some (js "Village Photo")) = Some caption
       ∧ analyzeContent E (Some caption) true
           (world_at (store w) (2 + tick w)
              (trace w ++ [EReply (RProcessing HPhoto); EGetFileLink id;
                           EDownload href]))
         = (inr analysis, w3)
       ∧ image_path_pattern imagePath
       ∧ (if is_string (prop analysis "category") "gallery"
             || is_string (prop analysis "category") "heritage"
          then
            (∃ photoId timestamp date,
               record = gallery_record_of analysis imagePath photoId
                          timestamp date)
            ∧ store w'
              = <[gallery_path := file_of E (utf8_encode
                                    (JSON_stringify (record :: items)))]>
                  (<[imagePath := file_of E optimized]> (store w))
          else
            (∃ newsId date timestamp,
               record = news_record_of analysis (Some imagePath) newsId
                          date timestamp)
            ∧ store w'
              = <[news_path := file_of E (utf8_encode
                                 (JSON_stringify
                                    (unshift_and_trim record items)))]>
                  (<[imagePath := file_of E optimized]> (store w)))
       ∧ ((reply_ok analysis = false ∧ e = TypeError)
          ∨ (reply_ok analysis = true
             ∧ reply_fault E (tick w')
                 (RPhotoAck (prop analysis "category")
                    (prop analysis "title_hindi") imagePath) = Some e))).
Proof.
  intros Hrun Hlast. unfold on_photo in Hrun.
  destruct (isAdmin E (photo_from ctx)); cbn [negb] in Hrun.
  2:{ apply reply_with_ok in Hrun as [_ ->]. by left. }
  unfold try_catch in Hrun.
  match type of Hrun with
  | match ?body w with _ => _ end = _ =>
      destruct (body w) as [[e'|[]] wb] eqn:Hbody
  end.
  - unfold reply_unawaited in Hrun. apply pair_inr_inv in Hrun as [_ <-].
    cbn [record_event trace store tick] in *. rewrite last_snoc in Hlast.
    injection Hlast as ->.
    apply on_photo_upload in Hbody
      as [(e0 & _ & Hstore)
         |(id & href & caption & analysis & w2 & w3 & optimized & imagePath
           & w6 & _ & Hcaption & Hw2 & Hclassify & [Hpattern Hsource] & Hw6
           & Hrest)];
      [by left|].
    apply on_photo_collection in Hrest
      as [(e0 & _ & Hstore)|(id' & w7 & Hadd & Hreply)].
    { right. left. exists imagePath, optimized. split; [done|].
      rewrite Hstore, Hw6. reflexivity. }
    right. right. cbv zeta in Hreply.
    assert ((reply_ok analysis = false ∧ e = TypeError ∧ wb = w7)
            ∨ (reply_ok analysis = true
               ∧ reply_fault E (tick w7)
                   (RPhotoAck (prop analysis "category")
                      (prop analysis "title_hindi") imagePath) = Some e
               ∧ store wb = store w7 ∧ tick wb = tick w7)) as Hcase.
    { destruct (reply_ok analysis).
      - right. destruct Hreply as [Hr ->]. unfold sendMessage in Hr.
        destruct (reply_fault E (tick w7) _) as [e1|]; [|done].
        injection Hr as ->. by repeat split.
      - left. destruct Hreply as [[= ->] ->]. by repeat split. }
    assert (store wb = store w7 ∧ tick wb = tick w7) as [Hst Htk].
    { destruct Hcase as [(_ & _ & ->)|(_ & _ & ? & ?)]; by split. }
    rewrite Hst, Htk. subst w2.
    destruct (is_string (prop analysis "category") "gallery"
              || is_string (prop analysis "category") "heritage") eqn:Hroute.
    + apply addPhotoToGallery_ok in Hadd
        as (content & sha & items & title' & timestamp & date & _ & _ & ->).
      cbv zeta. cbn [world_at store tick].
      exists id, href, caption, analysis, w3, imagePath, optimized,
        (gallery_record_of analysis imagePath id' timestamp date), items.
      split; [exact Hcaption|]. split; [exact Hclassify|].
      split; [exact Hpattern|]. rewrite Hroute.
      split. { split; [by eexists _, _, _|]. rewrite Hw6. reflexivity. }
      destruct Hcase as [(Hok & He & _)|(Hok & Hfault & _)].
      * left. by split.
      * right. split; [exact Hok|]. exact Hfault.
    + apply addNewsToWebsite_ok in Hadd
        as (content & sha & items & title' & date & timestamp & _ & _ & _ & ->).
      cbv zeta. cbn [world_at store tick].
      exists id, href, caption, analysis, w3, imagePath, optimized,
        (news_record_of analysis (Some imagePath) id' date timestamp), items.
      split; [exact Hcaption|]. split; [exact Hclassify|].
      split; [exact Hpattern|]. rewrite Hroute.
      split. { split; [by eexists _, _, _|]. rewrite Hw6. reflexivity. }
      destruct Hcase as [(Hok & He & _)|(Hok & Hfault & _)].
      * left. by split.
      * right. split; [exact Hok|]. exact Hfault.
  - apply pair_inr_inv in Hrun as [_ <-].
    apply on_photo_upload in Hbody
      as [(e0 & He0 & _)
         |(id & href & caption & analysis & w2 & w3 & optimized & imagePath
           & w6 & _ & _ & _ & Hclassify & [Hpattern Hsource] & Hw6 & Hrest)];
      [done|].
    apply on_photo_collection in Hrest
      as [(e0 & He0 & _)|(id' & w7 & Hadd & Hreply)]; [done|].
    cbv zeta in Hreply.
    destruct (reply_ok analysis); [|by destruct Hreply].
    destruct Hreply as [_ ->]. cbn [record_event trace] in Hlast.
    by rewrite last_snoc in Hlast.
Qed.

(** X13. Without a provider every photo goes to the gallery: when both
    providers fail and the photo handler ends on its acknowledgment, the
    category is [gallery], the title is the first fifty code units of the
    caption (of [Village Photo] without one), the gallery file holds the
    records that were read with one record for the image in front, and
    the news file is as it was. *)
Theorem on_photo_without_ai (ctx : photo_message) (w w' : world)
    (category title : value) (imagePath : jsstring) :
  let caption := or_else (photo_caption ctx) (Some (js "Village Photo")) in
  let p := {| prompt_text := caption; prompt_hasImage := true |} in
  openai_fails E (2 + tick w) p → gemini_fails E (2 + tick w) p →
  on_photo E ctx w = (inr tt, w') →
  last (trace w') = Some (EReply (RPhotoAck category title imagePath)) →
  ∃ text record items optimized,
    caption = Some text
    ∧ category = VStr (js "gallery")
    ∧ title = VStr (take 50 text)
    ∧ prop record "path" = VStr imagePath
    ∧ prop record "title_hindi" = VStr (take 50 text)
    ∧ prop record "category" = VStr (js "gallery")
    ∧ store w'
      = <[gallery_path := file_of E (utf8_encode
                            (JSON_stringify (record :: items)))]>
          (<[imagePath := file_of E optimized]> (store w))
    ∧ store w' !! news_path = store w !! news_path
    ∧ ∃ content sha t,
        read_result E (store w) t gallery_path = inr (content, sha)
        ∧ parse_collection E content = VArr items.
Proof.
  intros caption p H1 H2 Hrun Hlast. unfold on_photo in Hrun.
  destruct (isAdmin E (photo_from ctx)); cbn [negb] in Hrun.
  2:{ apply reply_with_ok in Hrun as [_ ->].
      cbn [record_event trace] in Hlast. by rewrite last_snoc in Hlast. }
  unfold try_catch in Hrun.
  match type of Hrun with
  | match ?body w with _ => _ end = _ =>
      destruct (body w) as [[e'|[]] wb] eqn:Hbody
  end.
  { unfold reply_unawaited in Hrun. apply pair_inr_inv in Hrun as [_ <-].
    cbn [record_event trace] in Hlast. by rewrite last_snoc in Hlast. }
  apply pair_inr_inv in Hrun as [_ <-].
  apply on_photo_upload in Hbody
    as [(e0 & He0 & _)
       |(id & href & text & analysis & w2 & w3 & optimized & path
         & w6 & _ & Hcaption & Hw2 & Hclassify & [Hpattern Hsource] & Hw6 & Hrest)];
    [done|].
  fold caption in Hcaption. unfold p in H1, H2. rewrite Hcaption in H1, H2.
  rewrite analyzeContent_run in Hclassify. cbv zeta in Hclassify.
  rewrite Hw2 in Hclassify. cbn [world_at tick store trace] in Hclassify.
  rewrite (classify_fails E _ _ H1 H2) in Hclassify.
  apply pair_inr_inv in Hclassify as [<- Hw3].
  apply on_photo_collection in Hrest
    as [(e0 & He0 & _)|(id' & w7 & Hadd & Hreply)]; [done|].
  change (reply_ok (default_analysis text true)) with true in Hreply.
  change (is_string (prop (default_analysis text true) "category") "gallery"
          || is_string (prop (default_analysis text true) "category")
               "heritage") with true in Hadd.
  cbv zeta iota in Hadd, Hreply. destruct Hreply as [_ ->].
  cbn [record_event trace store] in *. rewrite last_snoc in Hlast.
  injection Hlast as <- <- <-.
  apply addPhotoToGallery_ok in Hadd
    as (content & sha & items & title' & timestamp & date & Hread & Hparse
        & ->).
  cbv zeta. cbn [world_at store].
  exists text,
    (gallery_record_of (default_analysis text true) path id' timestamp date),
    items, optimized.
  split; [done|]. split; [reflexivity|]. split; [reflexivity|].
  split; [reflexivity|]. split; [reflexivity|]. split; [reflexivity|].
  rewrite Hw6 in Hread |- *. cbn [world_at store] in Hread |- *.
  split; [reflexivity|].
  destruct (image_path_not_collection path Hpattern) as [Hnn Hng].
  split.
  - rewrite lookup_insert_ne by done. by apply lookup_insert_ne.
  - rewrite read_result_insert_ne in Hread by exact Hng.
    by eexists content, sha, _.
Qed.

(** X14. What the photo handler publishes is the largest size of the
    photo: when it ends on its acknowledgment, the file under the path it
    names holds what [sharp] made of the download of the last entry of
    the list of sizes, and that entry is the only one it asked a link
    for. *)
Theorem on_photo_stores_largest (ctx : photo_message) (w w' : world)
    (category title : value) (imagePath : jsstring) :
  on_photo E ctx w = (inr tt, w') →
  last (trace w') = Some (EReply (RPhotoAck category title imagePath)) →
  ∃ file_id href imageBuffer optimized new,
    last (photo_sizes ctx) = Some file_id
    ∧ file_link E (tick w) file_id = inr href
    ∧ download E (S (tick w)) href = inr imageBuffer
    ∧ sharp E imageBuffer = inr optimized
    ∧ store w' !! imagePath = Some (file_of E optimized)
    ∧ trace w'
      = trace w ++ [EReply (RProcessing HPhoto); EGetFileLink file_id;
                    EDownload href] ++ new
    ∧ Forall (λ ev, ∀ id, ev ≠ EGetFileLink id) new.
Proof.
  intros Hrun Hlast. unfold on_photo in Hrun.
  destruct (isAdmin E (photo_from ctx)); cbn [negb] in Hrun.
  2:{ apply reply_with_ok in Hrun as [_ ->].
      cbn [record_event trace] in Hlast. by rewrite last_snoc in Hlast. }
  unfold try_catch in Hrun.
  match type of Hrun with
  | match ?body w with _ => _ end = _ =>
      destruct (body w) as [[e'|[]] wb] eqn:Hbody
  end.
  { unfold reply_unawaited in Hrun. apply pair_inr_inv in Hrun as [_ <-].
    cbn [record_event trace] in Hlast. by rewrite last_snoc in Hlast. }
  apply pair_inr_inv in Hrun as [_ <-].
  apply on_photo_upload in Hbody
    as [(e0 & He0 & _)
       |(id & href & text & analysis & w2 & w3 & optimized & path
         & w6 & Hsizes & _ & Hw2 & Hclassify
         & [Hpattern (buf & Hlink & Hdownload & Hsharp)] & Hw6 & Hrest)];
    [done|].
  apply analyzeContent_ok in Hclassify. cbv zeta in Hclassify.
  set (events := (classify E _ _).2) in Hclassify.
  assert (Forall (λ ev, ∀ id, ev ≠ EGetFileLink id) events) as Hevents.
  { unfold events, classify. destruct (openai E); [by repeat constructor|].
    destruct (genAI E); by repeat constructor. }
  clearbody events.
  apply on_photo_collection in Hrest
    as [(e0 & He0 & _)|(id' & w7 & Hadd & Hreply)]; [done|].
  cbv zeta in Hreply.
  destruct (reply_ok analysis); [|by destruct Hreply].
  destruct Hreply as [_ ->]. cbn [record_event trace store] in *.
  rewrite last_snoc in Hlast. injection Hlast as <- <- <-.
  destruct (image_path_not_collection path Hpattern) as [Hnn Hng].
  exists id, href, buf, optimized.
  destruct (is_string (prop analysis "category") "gallery"
            || is_string (prop analysis "category") "heritage").
  - apply addPhotoToGallery_ok in Hadd
      as (content & sha & items & title' & timestamp & date & _ & _ & ->).
    cbv zeta. cbn [world_at store trace]. rewrite Hw6, Hclassify, Hw2.
    cbn [world_at store trace]. eexists.
    split; [done|]. split; [done|]. split; [done|]. split; [done|].
    split; [by rewrite lookup_insert_ne, lookup_insert_eq|].
    split; [rewrite <- !app_assoc; reflexivity|].
    apply Forall_app. split; [exact Hevents|]. by repeat constructor.
  - apply addNewsToWebsite_ok in Hadd
      as (content & sha & items & title' & date & timestamp & _ & _ & _ & ->).
    cbv zeta. cbn [world_at store trace]. rewrite Hw6, Hclassify, Hw2.
    cbn [world_at store trace]. eexists.
    split; [done|]. split; [done|]. split; [done|]. split; [done|].
    split; [by rewrite lookup_insert_ne, lookup_insert_eq|].
    split; [rewrite <- !app_assoc; reflexivity|].
    apply Forall_app. split; [exact Hevents|]. by repeat constructor.
Qed.

End PhotoHandler.

Section DocumentHandler.

Context (E : Env).

Lemma document_path_not_news (file_name : option jsstring) :
  document_path file_name ≠ news_path.
Proof. intros Heq. apply (f_equal (λ l, l !! 1)) in Heq. done. Qed.

(** The document handler up to the upload of the document. *)
Lemma on_document_upload (ctx : document_message) (w : world) (r : exn + unit)
    (w' : world) (rest : M unit) :
  (let* _ := reply_with E (RProcessing HDocument) in
   let* href := getFileLink E (document_file_id ctx) in
   let* docBuffer := axios_get E href in
   let* _ := updateFileOnGitHub E (document_path (document_file_name ctx))
               (Bytes docBuffer) (MsgAddDocument (document_file_name ctx))
               None in
   rest) w = (r, w') →
  (∃ e, r = inl e ∧ store w' = store w)
  ∨ ∃ href docBuffer w4,
      file_link E (tick w) (document_file_id ctx) = inr href
      ∧ download E (S (tick w)) href = inr docBuffer
      ∧ store w4
        = <[document_path (document_file_name ctx) := file_of E docBuffer]>
            (store w)
      ∧ tick w4 = 3 + tick w
      ∧ rest w4 = (r, w').
Proof.
  unfold bind at 1. rewrite reply_with_run. unfold sendMessage.
  destruct (reply_fault E (tick w) (RProcessing HDocument)) as [e|];
    [intros [= <- <-]; left; by eauto|].
  unfold bind at 1. unfold getFileLink at 1.
  cbn [record_event bump tick trace store].
  destruct (file_link E (tick w) _) as [e|href] eqn:Hlink;
    [intros [= <- <-]; left; by eauto|].
  unfold bind at 1. unfold axios_get at 1.
  cbn [record_event bump tick trace store].
  destruct (download E (S (tick w)) href) as [e|docBuffer] eqn:Hdownload;
    [intros [= <- <-]; left; by eauto|].
  unfold bind at 1. rewrite updateFileOnGitHub_run. cbv zeta.
  cbn [record_event bump tick trace store].
  destruct (write_result E _ _ _) as [e|];
    [intros [= <- <-]; left; by eauto|].
  intros Hrest. right. eexists href, docBuffer, _.
  split; [done|]. split; [done|]. split; [|split; [|exact Hrest]]; done.
Qed.

(** The document handler after the upload: the news entry and the
    reply. *)
Lemma on_document_news (ctx : document_message) (w4 : world) (r : exn + unit)
    (w' : world) :
  (let* analysis :=
     analyzeContent E
       (or_else (document_caption ctx) (document_file_name ctx)) false in
   let* analysis := lift (set_prop analysis "category" (VStr (js "document"))) in
   let* _ := addNewsToWebsite E analysis None in
   reply_with E (RDocumentAck (document_file_name ctx)
                   (document_path (document_file_name ctx)))) w4 = (r, w') →
  (∃ e, r = inl e ∧ store w' = store w4)
  ∨ ∃ analysis forced newsId w5 w6,
      analyzeContent E
        (or_else (document_caption ctx) (document_file_name ctx)) false w4
      = (inr analysis, w5)
      ∧ set_prop analysis "category" (VStr (js "document")) = inr forced
      ∧ addNewsToWebsite E forced None w5 = (inr newsId, w6)
      ∧ let ack :=
          RDocumentAck (document_file_name ctx)
            (document_path (document_file_name ctx)) in
        r = sendMessage E (tick w6) ack ∧ w' = record_event (EReply ack) w6.
Proof.
  unfold bind at 1.
  destruct (analyzeContent E _ false w4) as [[e|analysis] w5] eqn:Hclassify.
  { apply analyzeContent_store in Hclassify as [Hstore _].
    intros [= <- <-]. left. by eauto. }
  pose proof (analyzeContent_store E _ _ _ _ _ Hclassify) as [Hstore _].
  rewrite bind_lift.
  destruct (set_prop analysis "category" _) as [e|forced] eqn:Hforced;
    [intros [= <- <-]; left; by eauto|].
  unfold bind at 1.
  destruct (addNewsToWebsite E forced None w5) as [[e|newsId] w6] eqn:Hadd.
  { apply addNewsToWebsite_err in Hadd. intros [= <- <-]. left.
    eexists. split; [done|]. congruence. }
  rewrite reply_with_run. intros [= <- <-]. right.
  by exists analysis, forced, newsId, w5, w6.
Qed.

(** X15. When the document handler ends on an error reply, three things
    can have happened: nothing was written; or the document is in the
    repository, under [documents/<file name>], and the news file is as it
    was (the upload is not undone when the news entry fails); or the news
    entry was published as well, with the category [document], and
    Telegram refused the acknowledgment: the error is Telegram's. *)
Theorem on_document_error_store (ctx : document_message) (w w' : world)
    (e : exn) :
  on_document E ctx w = (inr tt, w') →
  last (trace w') = Some (EReply (RError HDocument e)) →
  store w' = store w
  ∨ (∃ docBuffer,
       store w'
       = <[document_path (document_file_name ctx) := file_of E docBuffer]>
           (store w)
       ∧ store w' !! news_path = store w !! news_path)
  ∨ (∃ docBuffer analysis forced w4 w5 record items,
       tick w4 = 3 + tick w
       ∧ analyzeContent E
           (or_else (document_caption ctx) (document_file_name ctx)) false w4
         = (inr analysis, w5)
       ∧ set_prop analysis "category" (VStr (js "document")) = inr forced
       ∧ (∃ newsId date timestamp,
            record = news_record_of forced None newsId date timestamp)
       ∧ store w'
         = <[news_path := file_of E (utf8_encode
                            (JSON_stringify (unshift_and_trim record items)))]>
             (<[document_path (document_file_name ctx)
                  := file_of E docBuffer]> (store w))
       ∧ reply_fault E (tick w')
           (RDocumentAck (document_file_name ctx)
              (document_path (document_file_name ctx))) = Some e).
Proof.
  intros Hrun Hlast. unfold on_document in Hrun.
  destruct (isAdmin E (document_from ctx)); cbn [negb] in Hrun.
  2:{ apply reply_with_ok in Hrun as [_ ->]. by left. }
  unfold try_catch in Hrun. cbv zeta in Hrun.
  match type of Hrun with
  | match ?body w with _ => _ end = _ =>
      destruct (body w) as [[e'|[]] wb] eqn:Hbody
  end.
  - unfold reply_unawaited in Hrun. apply pair_inr_inv in Hrun as [_ <-].
    cbn [record_event trace store tick] in *. rewrite last_snoc in Hlast.
    injection Hlast as ->.
    apply on_document_upload in Hbody
      as [(e0 & _ & Hstore)
         |(href & docBuffer & w4 & _ & _ & Hw4 & Htick & Hrest)];
      [by left|].
    apply on_document_news in Hrest
      as [(e0 & _ & Hstore)
         |(analysis & forced & newsId & w5 & w6 & Hclassify & Hforced & Hadd
           & Hr & ->)].
    { right. left. exists docBuffer. rewrite Hstore, Hw4. split; [done|].
      apply lookup_insert_ne, document_path_not_news. }
    right. right. unfold sendMessage in Hr.
    destruct (reply_fault E (tick w6) _) as [e1|] eqn:Hfault; [|done].
    injection Hr as ->.
    pose proof (analyzeContent_store E _ _ _ _ _ Hclassify) as [Hstore5 _].
    apply addNewsToWebsite_ok in Hadd
      as (content & sha & items & title' & date & timestamp & _ & _ & _ & ->).
    cbv zeta in Hfault |- *. cbn [record_event world_at store tick] in *.
    exists docBuffer, analysis, forced, w4, w5,
      (news_record_of forced None newsId date timestamp), items.
    split; [exact Htick|]. split; [exact Hclassify|].
    split; [exact Hforced|]. split; [by eexists _, _, _|].
    split; [by rewrite Hstore5, Hw4|]. exact Hfault.
  - apply pair_inr_inv in Hrun as [_ <-].
    apply on_document_upload in Hbody
      as [(e0 & He0 & _)|(href & docBuffer & w4 & _ & _ & Hw4 & _ & Hrest)];
      [done|].
    apply on_document_news in Hrest
      as [(e0 & He0 & _)
         |(analysis & forced & newsId & w5 & w6 & _ & _ & _ & _ & ->)];
      [done|].
    cbn [record_event trace] in Hlast. by rewrite last_snoc in Hlast.
Qed.


(** X17. A photo or a document from a sender whom [isAdmin] turns down is
    answered with the authorization notice and nothing else happens: no
    download, no call to a provider, no request to the store. The handler
    returns what comes of the notice: normally when it is delivered. *)
Theorem photo_and_document_unauthorized (photo : photo_message)
    (doc : document_message) (w : world) :
  (isAdmin E (photo_from photo) = false →
   on_photo E photo w
   = (sendMessage E (tick w) (RNotAuthorized HPhoto),
      world_at (store w) (tick w)
        (trace w ++ [EReply (RNotAuthorized HPhoto)]))
   ∧ (reply_fault E (tick w) (RNotAuthorized HPhoto) = None →
      on_photo E photo w
      = (inr tt, world_at (store w) (tick w)
                   (trace w ++ [EReply (RNotAuthorized HPhoto)]))))
  ∧ (isAdmin E (document_from doc) = false →
     on_document E doc w
     = (sendMessage E (tick w) (RNotAuthorized HDocument),
        world_at (store w) (tick w)
          (trace w ++ [EReply (RNotAuthorized HDocument)]))
     ∧ (reply_fault E (tick w) (RNotAuthorized HDocument) = None →
        on_document E doc w
        = (inr tt, world_at (store w) (tick w)
                     (trace w ++ [EReply (RNotAuthorized HDocument)])))).
Proof.
  split; intros Hno; [unfold on_photo|unfold on_document]; rewrite Hno;
    cbn [negb]; rewrite reply_with_run; (split; [done|]);
    intros Hsent; unfold sendMessage; by rewrite Hsent.
Qed.

End DocumentHandler.

(* ===================================================================== *)
(** ** Part X. The allow-list as configured *)
(* ===================================================================== *)

Section ConfigFacts.

#[local] Open Scope N_scope.

Lemma In_elem {A} (x : A) (l : list A) : In x l → x ∈ l.
Proof. apply list_elem_of_In. Qed.

Lemma elem_In {A} (x : A) (l : list A) : x ∈ l → In x l.
Proof. apply list_elem_of_In. Qed.

Lemma String_split_single (s : jsstring) :
  comma ∉ s → String_split comma s = [s].
Proof.
  induction s as [|c s IH]; [done|]. intros Hs.
  apply not_elem_of_cons in Hs as [Hc Hs]. cbn [String_split].
  rewrite bool_decide_false by done. by rewrite IH.
Qed.

Lemma String_split_app (p rest : jsstring) :
  comma ∉ p →
  String_split comma (p ++ comma :: rest) = p :: String_split comma rest.
Proof.
  induction p as [|c p IH]; intros Hp; cbn [app String_split].
  - by rewrite bool_decide_true.
  - apply not_elem_of_cons in Hp as [Hc Hp].
    rewrite bool_decide_false by done. by rewrite IH.
Qed.

Lemma String_split_join (parts : list jsstring) :
  parts ≠ [] → Forall (λ p, comma ∉ p) parts →
  String_split comma (join [comma] parts) = parts.
Proof.
  intros Hne Hparts. induction Hparts as [|p ps Hp Hps IH]; [done|].
  destruct ps as [|q ps].
  - cbn [join]. by apply String_split_single.
  - change (join [comma] (p :: q :: ps))
      with (p ++ comma :: join [comma] (q :: ps)).
    rewrite String_split_app by done. by rewrite IH.
Qed.

Lemma String_split_nonempty (sep : code_unit) (s : jsstring) :
  String_split sep s ≠ [].
Proof.
  induction s as [|c s IH]; [done|]. cbn [String_split].
  destruct (bool_decide (c = sep)); [done|].
  by destruct (String_split sep s).
Qed.

Lemma trimStart_blank (lead s : jsstring) :
  blank lead → trimStart (lead ++ s) = trimStart s.
Proof.
  unfold blank. induction lead as [|c lead IH]; [done|].
  cbn [forallb app trimStart]. intros H. apply andb_prop in H as [-> H].
  by apply IH.
Qed.

Lemma trimStart_head (c : code_unit) (s : jsstring) :
  is_white_space c = false → trimStart (c :: s) = c :: s.
Proof. intros H. cbn [trimStart]. by rewrite H. Qed.

Lemma blank_reverse (s : jsstring) : blank s → blank (reverse s).
Proof.
  unfold blank. rewrite !forallb_forall. intros H c Hc. apply H.
  apply elem_In. apply In_elem in Hc.
  exact (proj1 (elem_of_reverse c s) Hc).
Qed.

(** Trimming takes the blanks around a text that begins and ends with
    something else. *)
Lemma trim_padded (lead trail body : jsstring) (first last : code_unit)
    (middle : jsstring) :
  blank lead → blank trail →
  body = first :: middle → body = removelast body ++ [last] →
  is_white_space first = false → is_white_space last = false →
  trim (lead ++ body ++ trail) = body.
Proof.
  intros Hlead Htrail Hfirst Hlast Hf Hl. unfold trim, trimEnd.
  rewrite trimStart_blank by done.
  rewrite Hfirst at 1. cbn [app]. rewrite trimStart_head by done.
  change (first :: middle ++ trail) with ((first :: middle) ++ trail).
  rewrite <- Hfirst. rewrite reverse_app.
  rewrite trimStart_blank by (by apply blank_reverse).
  rewrite Hlast at 1. rewrite reverse_app. cbn [reverse app].
  change (reverse [last]) with [last]. cbn [app].
  rewrite trimStart_head by done.
  change (last :: reverse (removelast body))
    with (reverse [last] ++ reverse (removelast body)).
  rewrite <- reverse_app, <- Hlast. apply reverse_involutive.
Qed.

Lemma is_digit_value (c : code_unit) :
  is_digit c = true →
  digit_value c = Some (cu_to_N c - 48) ∧ cu_to_N c - 48 < 10
  ∧ is_white_space c = false ∧ c ≠ comma
  ∧ c ≠ cu_of_N 45 ∧ c ≠ cu_of_N 43 ∧ c ≠ cu_of_N 120 ∧ c ≠ cu_of_N 88.
Proof.
  unfold is_digit, digit_value, is_white_space. intros H.
  apply andb_prop in H as [H1 H2]. apply N.leb_le in H1, H2.
  rewrite (proj2 (N.leb_le _ _) H1), (proj2 (N.leb_le _ _) H2). cbn [andb].
  split; [done|]. split; [lia|].
  split. { branches; done. }
  repeat split; intros ->; vm_compute in H1, H2; by (apply H1 || apply H2).
Qed.

Lemma leading_digits_digit (k : N) (s : jsstring) :
  k < 10 → leading_digits 10 (cu_of_N (48 + k) :: s) = k :: leading_digits 10 s.
Proof.
  intros Hk. cbn [leading_digits].
  assert (digit_value (cu_of_N (48 + k)) = Some k) as ->.
  { unfold digit_value. rewrite cu_to_of_N by lia.
    destruct (N.leb_spec 48 (48 + k)); [|lia].
    destruct (N.leb_spec (48 + k) 57); [|lia].
    cbn [andb]. f_equal. lia. }
  by destruct (N.ltb_spec k 10); [|lia].
Qed.

Ltac digit k :=
  match goal with
  | |- context [NilEmpty.string_of_uint (?D ?d)] =>
      change (js (NilEmpty.string_of_uint (D d)))
        with (cu_of_N (48 + k) :: js (NilEmpty.string_of_uint d))
  end;
  rewrite leading_digits_digit by lia;
  cbn [fold_left Pos.of_uint Pos.of_uint_acc].

(** The digits of a decimal numeral, read back. *)
Lemma digits_of_uint (d : Decimal.uint) :
  (∀ acc,
     fold_left (λ n k, n * 10 + k)
       (leading_digits 10 (js (NilEmpty.string_of_uint d))) (N.pos acc)
     = N.pos (Pos.of_uint_acc d acc))
  ∧ fold_left (λ n k, n * 10 + k)
      (leading_digits 10 (js (NilEmpty.string_of_uint d))) 0
    = Pos.of_uint d.
Proof.
  induction d as [|d [IH1 IH0]|d [IH1 IH0]|d [IH1 IH0]|d [IH1 IH0]|d [IH1 IH0]
                 |d [IH1 IH0]|d [IH1 IH0]|d [IH1 IH0]|d [IH1 IH0]|d [IH1 IH0]];
    [by split|digit 0|digit 1|digit 2|digit 3|digit 4|digit 5|digit 6|digit 7
    |digit 8|digit 9];
    (split; [intros acc; rewrite <- IH1; f_equal; lia|]);
    first [exact IH0 | by rewrite <- IH1].
Qed.

Lemma leading_digits_decimal (n : N) :
  leading_digits 10 (js (decimal n)) ≠ []
  ∧ digits_value 10 (leading_digits 10 (js (decimal n))) = n.
Proof.
  unfold decimal, digits_value. split.
  - assert (N.to_uint n ≠ Decimal.Nil) as Hnil.
    { destruct n as [|p]; [done|]. apply Unsigned.to_uint_nonnil. }
    by destruct (N.to_uint n).
  - rewrite (proj2 (digits_of_uint _)). apply DecimalN.Unsigned.of_to.
Qed.

Lemma to_double_exact (n : N) : n < 2 ^ 53 → to_double n = Some n.
Proof.
  intros Hn. unfold to_double. cbv zeta.
  assert (N.size n <= 53) as Hsize.
  { pose proof (N.size_le n) as Hle.
    destruct (N.le_gt_cases (N.size n) 53) as [H|H]; [done|].
    assert (2 ^ 54 <= 2 ^ N.size n) by (apply N.pow_le_mono_r; lia).
    rewrite N.succ_double_spec in Hle. lia. }
  by rewrite (proj2 (N.leb_le _ _) Hsize).
Qed.

Lemma decimal_shape (n : N) :
  ∃ first middle last,
    js (decimal n) = first :: middle
    ∧ js (decimal n) = removelast (js (decimal n)) ++ [last]
    ∧ is_digit first = true ∧ is_digit last = true
    ∧ Forall (λ c, is_digit c = true) (js (decimal n)).
Proof.
  destruct (decimal_digits n) as [Hall Hne].
  rewrite forallb_forall in Hall.
  assert (Forall (λ c, is_digit c = true) (js (decimal n))) as HF.
  { apply Forall_forall. intros c Hc. apply Hall. by apply elem_In. }
  destruct (js (decimal n)) as [|first middle] eqn:Hd; [done|].
  destruct (@exists_last _ (first :: middle)) as (l' & last & Hlast); [done|].
  exists first, middle, last. split; [done|].
  split. { rewrite Hlast at 2. by rewrite removelast_last. }
  split; [by inversion HF|]. split; [|done].
  rewrite Hlast in HF. apply Forall_app in HF as [_ HF]. by inversion HF.
Qed.

(** [parseInt] reads back an integer written in decimal, as long as a
    Number holds it exactly. *)
Lemma parseInt_decimal (z : Z) :
  (Z.abs z < 2 ^ 53)%Z →
  parseInt ((if (z <? 0)%Z then js "-" else []) ++ js (decimal (Z.abs_N z)))
  = Integer z.
Proof.
  intros Hz. set (n := Z.abs_N z).
  destruct (decimal_shape n) as (first & middle & last & Hfirst & _ & Hf & _ & Hall).
  destruct (leading_digits_decimal n) as [Hne Hvalue].
  destruct (is_digit_value first Hf) as (_ & _ & Hws & _ & Hminus & Hplus & _).
  assert (to_double n = Some n) as Hexact by (apply to_double_exact; lia).
  assert (strip_prefix (js (decimal n)) = (10, js (decimal n))) as Hprefix.
  { unfold strip_prefix.
    destruct (js (decimal n)) as [|c0 [|c1 s']]; [done..|].
    inversion Hall as [|? ? _ Hrest]. inversion Hrest as [|? ? Hc1 _].
    destruct (is_digit_value c1 Hc1) as (_ & _ & _ & _ & _ & _ & Hx & HX).
    rewrite (bool_decide_false (c1 = _)) by done.
    rewrite (bool_decide_false (c1 = _)) by done.
    by rewrite andb_false_r. }
  assert (∀ negative : bool,
            parse_digits negative 10 (js (decimal n))
            = Integer (if negative then - Z.of_N n else Z.of_N n)) as Hdigits.
  { intros negative. unfold parse_digits.
    destruct (leading_digits 10 (js (decimal n))) as [|d ds] eqn:Hds; [done|].
    by rewrite Hvalue, Hexact. }
  unfold parseInt.
  destruct (z <? 0)%Z eqn:Hsign.
  - change (js "-" ++ js (decimal n)) with (cu_of_N 45 :: js (decimal n)).
    rewrite trimStart_head by done. unfold strip_sign.
    rewrite bool_decide_true by done.
    rewrite Hprefix, Hdigits. f_equal. lia.
  - cbn [app]. rewrite Hfirst, trimStart_head by done. unfold strip_sign.
    rewrite bool_decide_false by done. rewrite bool_decide_false by done.
    rewrite <- Hfirst. rewrite Hprefix, Hdigits. f_equal. lia.
Qed.

Lemma written_id_trim (e : jsstring * Z * jsstring) :
  blank e.1.1 → blank e.2 →
  trim (written_id e)
  = (if (e.1.2 <? 0)%Z then js "-" else []) ++ js (decimal (Z.abs_N e.1.2))
  ∧ comma ∉ written_id e.
Proof.
  destruct e as [[lead z] trail]. cbn [fst snd]. intros Hlead Htrail.
  unfold written_id. cbn [fst snd]. set (n := Z.abs_N z).
  destruct (decimal_shape n)
    as (first & middle & last & Hfirst & Hlast & Hf & Hl & Hall).
  destruct (is_digit_value first Hf) as (_ & _ & Hwf & _).
  destruct (is_digit_value last Hl) as (_ & _ & Hwl & _).
  assert (∀ s, blank s → comma ∉ s) as Hblank.
  { intros s Hs Hin. unfold blank in Hs. rewrite forallb_forall in Hs.
    apply elem_In, Hs in Hin. done. }
  assert (comma ∉ js (decimal n)) as Hdigits.
  { intros Hin. rewrite Forall_forall in Hall. apply Hall in Hin.
    by destruct (is_digit_value comma Hin) as (_ & _ & _ & Hc & _). }
  split.
  - destruct (z <? 0)%Z.
    + replace (lead ++ js "-" ++ js (decimal n) ++ trail)
        with (lead ++ (js "-" ++ js (decimal n)) ++ trail)
        by (by rewrite <- !app_assoc).
      apply (trim_padded lead trail _ (cu_of_N 45) last (js (decimal n)));
        try done.
      rewrite removelast_app by (by rewrite Hfirst).
      rewrite <- app_assoc. by rewrite <- Hlast.
    + cbn [app]. by apply (trim_padded lead trail _ first last middle).
  - rewrite !not_elem_of_app. split; [by apply Hblank|].
    split; [by destruct (z <? 0)%Z; [apply not_elem_of_cons; split;
                                      [done|apply not_elem_of_nil]
                                    |apply not_elem_of_nil]|].
    split; [done|by apply Hblank].
Qed.

End ConfigFacts.

Section ConfigProperties.

Context (E : Env).

(** X18. A list of ids written in decimal, separated by commas, each with
    white space around it if one likes, configures exactly these ids (as
    long as a Number holds each exactly): the allow-list is the list of
    the ids, and a sender is accepted exactly when their id is one of
    them. *)
Theorem adminIds_of_listing (entries : list (jsstring * Z * jsstring)) :
  entries ≠ [] →
  Forall (λ e, blank e.1.1 ∧ blank e.2 ∧ (Z.abs e.1.2 < 2 ^ 53)%Z) entries →
  let ADMIN_IDS := join [comma] (map written_id entries) in
  adminIds_of (Some ADMIN_IDS) = map (λ e, Int e.1.2) entries
  ∧ (adminIds E = adminIds_of (Some ADMIN_IDS) →
     ∀ userId,
       isAdmin E userId = true
       ↔ ∃ e, userId = Some e.1.2 ∧ e ∈ entries).
Proof.
  intros Hne Hentries ADMIN_IDS.
  assert (adminIds_of (Some ADMIN_IDS) = map (λ e, Int e.1.2) entries) as Hids.
  { unfold adminIds_of, ADMIN_IDS. rewrite String_split_join.
    - rewrite map_map. apply map_ext_in. intros e He.
      rewrite Forall_forall in Hentries.
      apply In_elem, Hentries in He as (Hlead & Htrail & Hz).
      rewrite (proj1 (written_id_trim e Hlead Htrail)).
      by rewrite parseInt_decimal.
    - by destruct entries.
    - apply Forall_forall. intros p Hp. apply elem_In in Hp.
      apply in_map_iff in Hp as (e & <- & He).
      rewrite Forall_forall in Hentries.
      apply In_elem, Hentries in He as (Hlead & Htrail & Hz).
      by apply written_id_trim. }
  split; [exact Hids|]. intros Hcfg userId. unfold isAdmin.
  rewrite Hcfg, Hids. rewrite length_map.
  rewrite bool_decide_false by (by destruct entries).
  unfold includes. destruct userId as [z|].
  - rewrite bool_decide_eq_true. split.
    + intros Hin. apply elem_In, in_map_iff in Hin as (e & [= <-] & He).
      exists e. split; [done|]. by apply In_elem.
    + intros (e & [= ->] & He). apply In_elem, in_map_iff.
      exists e. split; [done|]. by apply elem_In.
  - split; [done|]. by intros (e & ? & _).
Qed.

(** X19. The open mode, in which every sender is accepted, is there
    exactly when [ADMIN_IDS] is not set. Once it is set the list has an
    entry for every piece between the commas, and an entry that has no
    digit to begin with is [NaN], which accepts nobody: with [ADMIN_IDS]
    set to the empty string no sender at all is accepted. *)
Theorem open_mode_iff_unset (ADMIN_IDS : option jsstring) :
  adminIds E = adminIds_of ADMIN_IDS →
  ((∀ userId, isAdmin E userId = true) ↔ ADMIN_IDS = None)
  ∧ (∀ s, ADMIN_IDS = Some s →
       length (adminIds E) = length (String_split comma s)
       ∧ isAdmin E None = false)
  ∧ (ADMIN_IDS = Some [] → adminIds E = [NaN] ∧ ∀ userId, isAdmin E userId = false).
Proof.
  intros Hcfg.
  assert (∀ s, ADMIN_IDS = Some s →
            length (adminIds E) = length (String_split comma s)
            ∧ isAdmin E None = false) as Hset.
  { intros s ->. unfold isAdmin. rewrite Hcfg. unfold adminIds_of.
    rewrite length_map. split; [done|].
    rewrite bool_decide_false; [done|].
    pose proof (String_split_nonempty comma s).
    by destruct (String_split comma s). }
  split; [|split; [exact Hset|]].
  - split.
    + intros Hall. destruct ADMIN_IDS as [s|]; [|done].
      destruct (Hset s eq_refl) as [_ Hno]. by rewrite Hall in Hno.
    + intros ->. unfold isAdmin. rewrite Hcfg. by intros userId.
  - intros ->. split; [by rewrite Hcfg|]. intros userId. unfold isAdmin.
    rewrite Hcfg. cbn. unfold includes. destruct userId as [z|]; [|done].
    apply bool_decide_eq_false. intros Hin.
    apply list_elem_of_singleton in Hin. done.
Qed.

End ConfigProperties.

(* ===================================================================== *)
(** ** Part XI. The page *)
(* ===================================================================== *)

Section Loader.

Context (B : Browser).

Lemma map_items_length {A} (f : value → exn + A) (items : list value)
    (l : list A) :
  map_items f items = inr l → length l = length items.
Proof.
  revert l. induction items as [|x items IH]; intros l; cbn [map_items].
  - by intros [= <-].
  - unfold and_then. destruct (f x) as [e|a]; [done|].
    destruct (map_items f items) as [e|l']; [done|].
    intros [= <-]. cbn [length]. f_equal. by apply IH.
Qed.

Lemma map_items_fails {A} (f : value → exn + A) (items : list value)
    (x : value) (e : exn) :
  x ∈ items → f x = inl e → ∃ e', map_items f items = inl e'.
Proof.
  intros Hin Hx. induction Hin as [x items|x y items _ IH]; cbn [map_items].
  - rewrite Hx. by eexists.
  - unfold and_then. destruct (f y) as [e'|a]; [by eexists|].
    destruct (IH Hx) as [e' ->]. by eexists.
Qed.

Lemma first_items_array (n : nat) (data : value) (items : list value) :
  first_items n data = inr items → ∃ l, data = VArr l ∧ items = take n l.
Proof.
  unfold first_items. destruct data as [| | | | |l|]; try done.
  intros [= <-]. by exists l.
Qed.

(** X20. The loaders change all of a list or nothing. [loadNews] never
    touches the gallery and [loadGallery] never the news; each asks for
    its file once; and the container either stays as it was or shows the
    cards of the first ten news (twenty photos) of the array that was
    fetched, in their order. It stays as it was when the page has no such
    container, when the fetch fails, when the body is no array, and when
    one of these first items cannot be shown: [null], or an item with a
    field that cannot be printed. One such item hides the whole list. *)
Theorem loaders_all_or_nothing (s : site) :
  let news := loadNews B s in
  let gallery := loadGallery B s in
  let news_url := fresh newsUrl (date_now B (site_tick s)) in
  let gallery_url := fresh galleryUrl (date_now B (site_tick s)) in
  (gallery_container (dom news) = gallery_container (dom s)
   ∧ requests news = requests s ++ [news_url]
   ∧ (dom news = dom s
      ∨ ∃ items cards,
          fetch_json B (site_tick s) news_url = inr (VArr items)
          ∧ map_items news_card_of (take 10 items) = inr cards
          ∧ length cards = 10 `min` length items
          ∧ news_container (dom news) = Some (NewsList cards))
   ∧ (news_container (dom s) = None → dom news = dom s)
   ∧ (∀ items x e,
        fetch_json B (site_tick s) news_url = inr (VArr items) →
        x ∈ take 10 items → news_card_of x = inl e → dom news = dom s))
  ∧ (news_container (dom gallery) = news_container (dom s)
     ∧ requests gallery = requests s ++ [gallery_url]
     ∧ (dom gallery = dom s
        ∨ ∃ items cards,
            fetch_json B (site_tick s) gallery_url = inr (VArr items)
            ∧ map_items gallery_card_of (take 20 items) = inr cards
            ∧ length cards = 20 `min` length items
            ∧ gallery_container (dom gallery) = Some (GalleryList cards))
     ∧ (gallery_container (dom s) = None → dom gallery = dom s)
     ∧ (∀ items x e,
          fetch_json B (site_tick s) gallery_url = inr (VArr items) →
          x ∈ take 20 items → gallery_card_of x = inl e → dom gallery = dom s))
  ∧ news_card_of VNull = inl TypeError
  ∧ gallery_card_of VNull = inl TypeError.
Proof.
  cbv zeta. split; [|split; [|done]].
  - unfold loadNews. cbv zeta. unfold and_then.
    destruct (fetch_json B (site_tick s) _) as [e|news] eqn:Hfetch;
      [repeat split; by auto|].
    destruct (news_container (dom s)) as [old|] eqn:Hold;
      [|repeat split; by auto].
    destruct (first_items 10 news) as [e|items] eqn:Hitems.
    { split; [done|]. split; [done|]. split; [by left|]. split; [done|].
      intros l x e' [= ->]. done. }
    apply first_items_array in Hitems as (l & -> & ->).
    destruct (map_items news_card_of (take 10 l)) as [e|cards] eqn:Hcards.
    + split; [done|]. split; [done|]. split; [by left|]. split; [done|]. done.
    + split; [done|]. split; [done|]. split; [|split; [done|]].
      * right. exists l, cards. split; [done|]. split; [done|].
        split; [|done]. apply map_items_length in Hcards.
        by rewrite Hcards, length_take.
      * intros l' x e [= <-] Hx Hbad.
        destruct (map_items_fails _ _ _ _ Hx Hbad) as [e' He']. congruence.
  - unfold loadGallery. cbv zeta. unfold and_then.
    destruct (fetch_json B (site_tick s) _) as [e|data] eqn:Hfetch;
      [repeat split; by auto|].
    destruct (gallery_container (dom s)) as [old|] eqn:Hold;
      [|repeat split; by auto].
    destruct (first_items 20 data) as [e|items] eqn:Hitems.
    { split; [done|]. split; [done|]. split; [by left|]. split; [done|].
      intros l x e' [= ->]. done. }
    apply first_items_array in Hitems as (l & -> & ->).
    destruct (map_items gallery_card_of (take 20 l)) as [e|cards] eqn:Hcards.
    + split; [done|]. split; [done|]. split; [by left|]. split; [done|]. done.
    + split; [done|]. split; [done|]. split; [|split; [done|]].
      * right. exists l, cards. split; [done|]. split; [done|].
        split; [|done]. apply map_items_length in Hcards.
        by rewrite Hcards, length_take.
      * intros l' x e [= <-] Hx Hbad.
        destruct (map_items_fails _ _ _ _ Hx Hbad) as [e' He']. congruence.
Qed.

Lemma shown_news_record (record : value) (k : string) (v : value) :
  prop record k = v → readable record = true → to_string_ok v = true →
  shown record k = inr v.
Proof.
  intros <- Hr Hv. unfold shown. rewrite get_prop_readable, Hr. by rewrite Hv.
Qed.

Lemma html_ok_fields (analysis : value) :
  html_ok analysis = true →
  to_string_ok (prop analysis "title_hindi") = true
  ∧ to_string_ok (prop analysis "title_english") = true
  ∧ to_string_ok (prop analysis "description_hindi") = true.
Proof.
  unfold html_ok. intros H. repeat (apply andb_prop in H as [H ?]). by auto.
Qed.

(** The card of the record [addNewsToWebsite] writes. *)
Lemma news_card_of_record (analysis : value) (imagePath : option jsstring)
    (newsId date : jsstring) (timestamp : N) :
  html_ok analysis = true →
  to_string_ok (prop analysis "category") = true →
  news_card_of (news_record_of analysis imagePath newsId date timestamp)
  = inr (card_of_news analysis imagePath newsId date).
Proof.
  intros Hhtml Hcategory.
  destruct (html_ok_fields analysis Hhtml) as (Hth & Hte & Hdh).
  set (record := news_record_of analysis imagePath newsId date timestamp).
  unfold news_card_of, and_then.
  change (get_prop record "priority") with (inr (prop analysis "priority") : exn + value).
  rewrite (shown_news_record record "id" (VStr newsId)) by done.
  rewrite (shown_news_record record "date" (VStr date)) by done.
  rewrite (shown_news_record record "title_hindi" (prop analysis "title_hindi"))
    by done.
  rewrite (shown_news_record record "title_english"
             (prop analysis "title_english")) by done.
  change (get_prop record "image") with (inr (image_value imagePath) : exn + value).
  rewrite (shown_news_record record "description_hindi"
             (prop analysis "description_hindi")) by done.
  rewrite (shown_news_record record "category" (prop analysis "category"))
    by done.
  rewrite (shown_news_record record "image" (image_value imagePath));
    [|done|done|by destruct imagePath].
  unfold card_of_news. destruct imagePath as [p|]; [|done].
  cbn [image_value truthy]. by destruct (truthy_string p).
Qed.

Lemma gallery_card_of_record (analysis : value) (imagePath photoId : jsstring)
    (timestamp : N) (date : jsstring) :
  to_string_ok (prop analysis "title_hindi") = true →
  gallery_card_of (gallery_record_of analysis imagePath photoId timestamp date)
  = inr (card_of_photo analysis imagePath photoId date).
Proof.
  intros Hth.
  set (record := gallery_record_of analysis imagePath photoId timestamp date).
  unfold gallery_card_of, and_then.
  rewrite (shown_news_record record "id" (VStr photoId)) by done.
  rewrite (shown_news_record record "path" (VStr imagePath)) by done.
  rewrite (shown_news_record record "title_hindi" (prop analysis "title_hindi"))
    by done.
  by rewrite (shown_news_record record "date" (VStr date)) by done.
Qed.

(** X21. The page shows what the agent published. Every field the loader
    prints is one the agent writes: where the page has the container and
    the fetch gives the array the agent wrote, the new record in front
    and cut to fifty, the first card is made of the id and the date of
    the record and of the titles, the description and the category of the
    analysis, with the image if there is one, and the cards of the nine
    records that were first before follow; likewise for a photo and the
    nineteen that were first in the gallery. *)
Theorem published_records_are_shown (analysis : value)
    (imagePath : option jsstring) (photoPath id date : jsstring)
    (timestamp : N) (items : list value) (s : site) :
  let t := site_tick s in
  (html_ok analysis = true →
   to_string_ok (prop analysis "category") = true →
   is_Some (news_container (dom s)) →
   fetch_json B t (fresh newsUrl (date_now B t))
   = inr (VArr (unshift_and_trim
                  (news_record_of analysis imagePath id date timestamp) items)) →
   ∀ cards, map_items news_card_of (take 9 items) = inr cards →
   news_container (dom (loadNews B s))
   = Some (NewsList (card_of_news analysis imagePath id date :: cards)))
  ∧ (to_string_ok (prop analysis "title_hindi") = true →
     is_Some (gallery_container (dom s)) →
     fetch_json B t (fresh galleryUrl (date_now B t))
     = inr (VArr (gallery_record_of analysis photoPath id timestamp date
                  :: items)) →
     ∀ cards, map_items gallery_card_of (take 19 items) = inr cards →
     gallery_container (dom (loadGallery B s))
     = Some (GalleryList (card_of_photo analysis photoPath id date :: cards))).
Proof.
  cbv zeta. split.
  - intros Hhtml Hcategory [old Hold] Hfetch cards Hcards.
    unfold loadNews. cbv zeta. rewrite Hfetch, Hold. unfold and_then at 1.
    unfold first_items, unshift_and_trim. cbn [slice_value].
    rewrite take_take. cbn [Nat.min take and_then map_items].
    rewrite news_card_of_record by done. cbn [and_then].
    by rewrite Hcards.
  - intros Hth [old Hold] Hfetch cards Hcards.
    unfold loadGallery. cbv zeta. rewrite Hfetch, Hold. unfold and_then at 1.
    unfold first_items. cbn [slice_value take and_then map_items].
    rewrite gallery_card_of_record by done. cbn [and_then].
    by rewrite Hcards.
Qed.

End Loader.

(* ===================================================================== *)
(** ** Part XII. The further properties at concrete inputs *)
(* ===================================================================== *)

(** The classifier: the secondary provider, asked alone, wraps its JSON in
    a sentence. *)
Lemma analyzeContent_secondary_extracts_witness :
  chatty event_answer (tick empty_world) meeting_prompt
  = inr (js "Here is the JSON: " ++ open_brace :: event_body
         ++ close_brace :: js " Hope it helps.")
  ∧ (open_brace ∉ js "Here is the JSON: ")
  ∧ (close_brace ∉ js " Hope it helps.")
  ∧ JSON_parse secondary_only_env (open_brace :: event_body ++ [close_brace])
    = Some event_answer
  ∧ analyzeContent secondary_only_env (Some meeting_text) false empty_world
    = (inr event_answer, world_at ∅ 1 [EGemini meeting_prompt]).
Proof.
  assert (chatty event_answer (tick empty_world) meeting_prompt
          = inr (js "Here is the JSON: " ++ open_brace :: event_body
                 ++ close_brace :: js " Hope it helps.")) as Hanswer
    by (vm_compute; reflexivity).
  assert (open_brace ∉ js "Here is the JSON: ") as Hpre
    by (apply (bool_decide_unpack _); vm_compute; exact I).
  assert (close_brace ∉ js " Hope it helps.") as Hpost
    by (apply (bool_decide_unpack _); vm_compute; exact I).
  assert (JSON_parse secondary_only_env
            (open_brace :: event_body ++ [close_brace]) = Some event_answer)
    as Hparse by (vm_compute; reflexivity).
  split; [exact Hanswer|]. split; [exact Hpre|]. split; [exact Hpost|].
  split; [exact Hparse|].
  exact (analyzeContent_secondary_extracts secondary_only_env
           (chatty event_answer) (Some meeting_text) false empty_world
           (js "Here is the JSON: ") event_body (js " Hope it helps.")
           event_answer eq_refl eq_refl Hanswer Hpre Hpost Hparse).
Defined.

(** The store client: a text that ends in half of a surrogate pair comes
    back with U+FFFD in its place. *)
Lemma text_read_after_write_witness :
  updateFileOnGitHub news_env news_path (Text cut_text) (MsgAddNews VUndef)
    None empty_world = (inr tt, cut_written)
  ∧ transport_fault news_env (tick cut_written) = None
  ∧ (∃ w2 sha, getFileFromGitHub news_env news_path cut_written
               = (inr (Some (meeting_text ++ [replacement]), sha), w2))
  ∧ well_formed cut_text = false.
Proof.
  assert (updateFileOnGitHub news_env news_path (Text cut_text)
            (MsgAddNews VUndef) None empty_world = (inr tt, cut_written))
    as Hrun by (vm_compute; reflexivity).
  split; [exact Hrun|]. split; [reflexivity|].
  destruct (text_read_after_write news_env news_path cut_text
              (MsgAddNews VUndef) None empty_world cut_written Hrun eq_refl)
    as ((w2 & Hread) & Hfixed).
  split.
  - exists w2, (Some (blob_sha news_env (utf8_encode cut_text))).
    rewrite Hread. vm_compute. reflexivity.
  - destruct (well_formed cut_text) eqn:Hwell; [|reflexivity].
    pose proof (proj2 Hfixed eq_refl) as Hsame. vm_compute in Hsame.
    discriminate Hsame.
Defined.

(** The collections: files that hold [{}]. *)
Lemma collection_not_array_blocks_updates_witness :
  store object_world !! news_path = Some object_file
  ∧ JSON_parse object_env (utf8_decode (file_bytes object_file))
    = Some (VObj [])
  ∧ (addNewsToWebsite object_env news_analysis None object_world).1
    = inl TypeError
  ∧ store (addNewsToWebsite object_env news_analysis None object_world).2
    = store object_world.
Proof.
  assert (store object_world !! news_path = Some object_file) as Hfile
    by (vm_compute; reflexivity).
  assert (JSON_parse object_env (utf8_decode (file_bytes object_file))
          = Some (VObj [])) as Hparse by (vm_compute; reflexivity).
  split; [exact Hfile|]. split; [exact Hparse|].
  assert (utf8_decode (file_bytes object_file) ≠ []) as Hsome
    by (vm_compute; discriminate).
  assert (∀ items, VObj [] ≠ VArr items) as Hobject by (intros; discriminate).
  destruct (proj1 (collection_not_array_blocks_updates object_env news_analysis
                     None photo_path object_world object_file news_path
                     (VObj []) Hfile Hsome Hparse Hobject) eq_refl eq_refl)
    as (Herr & Hstore & _).
  split; [exact Herr|exact Hstore].
Defined.

Lemma title_english_required_witness :
  sliceable (prop bare_analysis "title_english") = false
  ∧ (∃ e, (addNewsToWebsite news_env bare_analysis None full_world).1 = inl e)
  ∧ store (addNewsToWebsite news_env bare_analysis None full_world).2
    = store full_world
  ∧ (∃ e, (addPhotoToGallery news_env photo_path bare_analysis full_world).1
          = inl e).
Proof.
  split; [reflexivity|].
  destruct (title_english_required news_env bare_analysis None photo_path
              full_world eq_refl) as (Hnews & Hstore & _ & Hgallery & _).
  split; [exact Hnews|]. split; [exact Hstore|exact Hgallery].
Defined.

Lemma collections_extend_what_was_written_witness :
  store written_world !! news_path
  = Some (file_of news_env (utf8_encode (JSON_stringify old_news)))
  ∧ JSON_parse news_env (JSON_stringify old_news) = Some (VArr old_news)
  ∧ same_text old_news old_news
  ∧ ∃ w' record,
      addNewsToWebsite news_env news_analysis None written_world
      = (inr (js "30303030"), w')
      ∧ store w' !! news_path
        = Some (file_of news_env
                  (utf8_encode
                     (JSON_stringify (unshift_and_trim record old_news)))).
Proof.
  assert (store written_world !! news_path
          = Some (file_of news_env (utf8_encode (JSON_stringify old_news))))
    as Hfile by (vm_compute; reflexivity).
  assert (JSON_parse news_env (JSON_stringify old_news) = Some (VArr old_news))
    as Hparse by (vm_compute; reflexivity).
  split; [exact Hfile|]. split; [exact Hparse|]. split; [reflexivity|].
  assert (addNewsToWebsite news_env news_analysis None written_world
          = (inr (js "30303030"),
             (addNewsToWebsite news_env news_analysis None written_world).2))
    as Hrun by (vm_compute; reflexivity).
  destruct (proj1 (collections_extend_what_was_written news_env news_analysis
                     None photo_path written_world news_path old_news old_news
                     Hfile Hparse eq_refl) eq_refl eq_refl _ _ Hrun)
    as (record & req & _ & Hstore & _).
  exists (addNewsToWebsite news_env news_analysis None written_world).2, record.
  split; [exact Hrun|exact Hstore].
Defined.

(** The text handler. *)
Lemma on_text_publishes_witness :
  on_text event_env meeting_message empty_world = (inr tt, meeting_after)
  ∧ last (trace meeting_after)
    = Some (EReply (RTextAck (VStr (js "event")) (VStr meeting_text)
                      meeting_id))
  ∧ ∃ record,
      prop record "id" = VStr meeting_id
      ∧ store meeting_after
        = <[news_path := file_of event_env
                           (utf8_encode (JSON_stringify [record]))]> ∅.
Proof.
  assert (on_text event_env meeting_message empty_world
          = (inr tt, meeting_after)) as Hrun by (vm_compute; reflexivity).
  assert (last (trace meeting_after)
          = Some (EReply (RTextAck (VStr (js "event")) (VStr meeting_text)
                            meeting_id))) as Hlast
    by (vm_compute; reflexivity).
  split; [exact Hrun|]. split; [exact Hlast|].
  destruct (on_text_publishes event_env meeting_message empty_world
              meeting_after _ _ _ eq_refl Hrun Hlast)
    as (_ & analysis & w0 & w1 & record & items & content & sha & t & new
        & collection & _ & _ & _ & _ & _ & _ & _ & Hread & Hparse & _ & Hid
        & _ & Hstore).
  assert (items = []) as ->.
  { assert (content = None) as ->.
    { unfold read_result in Hread. cbn in Hread.
      rewrite lookup_empty in Hread. by injection Hread as <- _. }
    by injection Hparse as <-. }
  exists record. split; [exact Hid|exact Hstore].
Defined.



(** The photo handler. *)
Lemma on_photo_error_store_witness :
  on_photo unacknowledged_env temple_photo empty_world
  = (inr tt, unacknowledged_photo_after)
  ∧ last (trace unacknowledged_photo_after)
    = Some (EReply (RError HPhoto refusal))
  ∧ is_Some (store unacknowledged_photo_after !! gallery_path)
  ∧ ∃ analysis imagePath,
      image_path_pattern imagePath
      ∧ is_Some (store unacknowledged_photo_after !! imagePath)
      ∧ reply_fault unacknowledged_env (tick unacknowledged_photo_after)
          (RPhotoAck (prop analysis "category") (prop analysis "title_hindi")
             imagePath)
        = Some refusal.
Proof.
  assert (on_photo unacknowledged_env temple_photo empty_world
          = (inr tt, unacknowledged_photo_after)) as Hrun
    by (vm_compute; reflexivity).
  assert (last (trace unacknowledged_photo_after)
          = Some (EReply (RError HPhoto refusal))) as Hlast
    by (vm_compute; reflexivity).
  assert (is_Some (store unacknowledged_photo_after !! gallery_path))
    as Hgallery by (apply (bool_decide_unpack _); vm_compute; exact I).
  split; [exact Hrun|]. split; [exact Hlast|]. split; [exact Hgallery|].
  destruct (on_photo_error_store unacknowledged_env temple_photo empty_world
              unacknowledged_photo_after refusal Hrun Hlast)
    as [Hsame|[(imagePath & optimized & Hpattern & Hstore)
              |(id & href & caption & analysis & w3 & imagePath & optimized
                & record & items & _ & _ & Hpattern & Hroute
                & [[_ Herror]|[_ Hfault]])]].
  - rewrite Hsame in Hgallery. destruct Hgallery as [f Hf].
    unfold empty_world in Hf. cbn [store] in Hf.
    rewrite lookup_empty in Hf. discriminate Hf.
  - rewrite Hstore in Hgallery. destruct Hgallery as [f Hf].
    destruct (image_path_not_collection imagePath Hpattern) as [_ Hne].
    unfold empty_world in Hf. cbn [store] in Hf.
    rewrite lookup_insert_ne in Hf by exact Hne.
    rewrite lookup_empty in Hf. discriminate Hf.
  - discriminate Herror.
  - exists analysis, imagePath. split; [exact Hpattern|].
    split; [|exact Hfault].
    destruct (image_path_not_collection imagePath Hpattern) as [Hnn Hng].
    destruct (is_string (prop analysis "category") "gallery"
              || is_string (prop analysis "category") "heritage");
      destruct Hroute as [_ ->];
      rewrite lookup_insert_ne, lookup_insert_eq by done; by eexists.
Defined.

Lemma on_photo_without_ai_witness :
  on_photo guarded_env temple_photo empty_world
  = (inr tt, gallery_photo_after)
  ∧ last (trace gallery_photo_after)
    = Some (EReply (RPhotoAck (VStr (js "gallery")) (VStr temple_text)
                      gallery_photo_path))
  ∧ ∃ record items optimized,
      prop record "path" = VStr gallery_photo_path
      ∧ prop record "category" = VStr (js "gallery")
      ∧ store gallery_photo_after
        = <[gallery_path := file_of guarded_env
                              (utf8_encode
                                 (JSON_stringify (record :: items)))]>
            (<[gallery_photo_path := file_of guarded_env optimized]> ∅).
Proof.
  assert (on_photo guarded_env temple_photo empty_world
          = (inr tt, gallery_photo_after)) as Hrun
    by (vm_compute; reflexivity).
  assert (last (trace gallery_photo_after)
          = Some (EReply (RPhotoAck (VStr (js "gallery")) (VStr temple_text)
                            gallery_photo_path))) as Hlast
    by (vm_compute; reflexivity).
  split; [exact Hrun|]. split; [exact Hlast|].
  destruct (on_photo_without_ai guarded_env temple_photo empty_world
              gallery_photo_after _ _ _ I I Hrun Hlast)
    as (text & record & items & optimized & _ & _ & _ & Hpath & _ & Hcategory
        & Hstore & _).
  exists record, items, optimized.
  split; [exact Hpath|]. split; [exact Hcategory|exact Hstore].
Defined.

Lemma on_photo_stores_largest_witness :
  on_photo photo_env temple_photo empty_world = (inr tt, photo_after)
  ∧ ∃ href imageBuffer optimized,
      file_link photo_env 0 (js "file-large") = inr href
      ∧ download photo_env 1 href = inr imageBuffer
      ∧ sharp photo_env imageBuffer = inr optimized
      ∧ store photo_after !! photo_path = Some (file_of photo_env optimized).
Proof.
  assert (on_photo photo_env temple_photo empty_world = (inr tt, photo_after))
    as Hrun by (vm_compute; reflexivity).
  assert (last (trace photo_after)
          = Some (EReply (RPhotoAck (VStr (js "heritage")) (VStr temple_text)
                            photo_path))) as Hlast
    by (vm_compute; reflexivity).
  split; [exact Hrun|].
  destruct (on_photo_stores_largest photo_env temple_photo empty_world
              photo_after _ _ _ Hrun Hlast)
    as (file_id & href & imageBuffer & optimized & new & Hsize & Hlink
        & Hdownload & Hsharp & Hstore & _).
  vm_compute in Hsize. injection Hsize as <-.
  exists href, imageBuffer, optimized.
  split; [exact Hlink|]. split; [exact Hdownload|].
  split; [exact Hsharp|exact Hstore].
Defined.

(** The document handler. *)
Lemma on_document_error_store_witness :
  on_document unacknowledged_env notice empty_world
  = (inr tt, unacknowledged_notice_after)
  ∧ last (trace unacknowledged_notice_after)
    = Some (EReply (RError HDocument refusal))
  ∧ is_Some (store unacknowledged_notice_after !! news_path)
  ∧ ∃ docBuffer record items,
      store unacknowledged_notice_after
      = <[news_path := file_of unacknowledged_env
                         (utf8_encode
                            (JSON_stringify (unshift_and_trim record items)))]>
          (<[js "documents/notice.pdf"
               := file_of unacknowledged_env docBuffer]> ∅)
      ∧ reply_fault unacknowledged_env (tick unacknowledged_notice_after)
          (RDocumentAck (Some (js "notice.pdf")) (js "documents/notice.pdf"))
        = Some refusal.
Proof.
  assert (on_document unacknowledged_env notice empty_world
          = (inr tt, unacknowledged_notice_after)) as Hrun
    by (vm_compute; reflexivity).
  assert (last (trace unacknowledged_notice_after)
          = Some (EReply (RError HDocument refusal))) as Hlast
    by (vm_compute; reflexivity).
  assert (is_Some (store unacknowledged_notice_after !! news_path)) as Hnews
    by (apply (bool_decide_unpack _); vm_compute; exact I).
  split; [exact Hrun|]. split; [exact Hlast|]. split; [exact Hnews|].
  destruct (on_document_error_store unacknowledged_env notice empty_world
              unacknowledged_notice_after refusal Hrun Hlast)
    as [Hsame|[(docBuffer & _ & Hkept)
              |(docBuffer & analysis & forced & w4 & w5 & record & items
                & _ & _ & _ & _ & Hstore & Hfault)]].
  - rewrite Hsame in Hnews. destruct Hnews as [f Hf].
    unfold empty_world in Hf. cbn [store] in Hf.
    rewrite lookup_empty in Hf. discriminate Hf.
  - rewrite Hkept in Hnews. destruct Hnews as [f Hf].
    unfold empty_world in Hf. cbn [store] in Hf.
    rewrite lookup_empty in Hf. discriminate Hf.
  - exists docBuffer, record, items. split; [exact Hstore|exact Hfault].
Defined.


Lemma photo_and_document_unauthorized_witness :
  isAdmin guarded_env (photo_from stranger_photo) = false
  ∧ isAdmin guarded_env (document_from notice) = false
  ∧ on_photo guarded_env stranger_photo empty_world
    = (inr tt, world_at ∅ 0 [EReply (RNotAuthorized HPhoto)])
  ∧ on_document guarded_env notice empty_world
    = (inr tt, world_at ∅ 0 [EReply (RNotAuthorized HDocument)]).
Proof.
  split; [reflexivity|]. split; [reflexivity|].
  destruct (photo_and_document_unauthorized guarded_env stranger_photo notice
              empty_world) as (Hphoto & Hdocument).
  split; [exact (proj2 (Hphoto eq_refl) eq_refl)
         |exact (proj2 (Hdocument eq_refl) eq_refl)].
Defined.

(** The allow-list. *)
Lemma adminIds_of_listing_witness :
  two_ids ≠ []
  ∧ adminIds_of (Some (js " 42,7 ")) = [Int 42; Int 7]
  ∧ isAdmin two_ids_env (Some 7%Z) = true
  ∧ isAdmin two_ids_env (Some 8%Z) = false.
Proof.
  assert (two_ids ≠ []) as Hsome by discriminate.
  assert (Forall (λ e, blank e.1.1 ∧ blank e.2 ∧ (Z.abs e.1.2 < 2 ^ 53)%Z)
            two_ids) as Hentries
    by (repeat constructor).
  destruct (adminIds_of_listing two_ids_env two_ids Hsome Hentries)
    as (Hids & Hadmin).
  split; [exact Hsome|]. split; [exact Hids|].
  specialize (Hadmin eq_refl). split.
  - apply Hadmin. exists ([], 7%Z, js " "). split; [reflexivity|].
    apply list_elem_of_In. right. left. reflexivity.
  - destruct (isAdmin two_ids_env (Some 8%Z)) eqn:Hin; [|reflexivity].
    apply Hadmin in Hin as (e & Hid & He).
    apply list_elem_of_In in He. cbn in He.
    destruct He as [<-|[<-|[]]]; discriminate Hid.
Defined.

Lemma open_mode_iff_unset_witness :
  adminIds empty_ids_env = adminIds_of (Some [])
  ∧ adminIds empty_ids_env = [NaN]
  ∧ (∀ userId, isAdmin empty_ids_env userId = false)
  ∧ (∀ userId, isAdmin news_env userId = true).
Proof.
  split; [reflexivity|].
  destruct (open_mode_iff_unset empty_ids_env (Some []) eq_refl)
    as (_ & _ & Hempty).
  destruct (Hempty eq_refl) as (Hids & Hnone).
  split; [exact Hids|]. split; [exact Hnone|].
  exact (proj2 (proj1 (open_mode_iff_unset news_env None eq_refl)) eq_refl).
Defined.

(** The page. *)
Lemma loaders_all_or_nothing_witness :
  news_container (dom (loadNews (served (VArr [news_item; VNull])) fresh_page))
  = Some (Markup (js "Loading..."))
  ∧ gallery_container
      (dom (loadGallery (served (VObj [])) fresh_page))
    = Some (Markup (js "Loading..."))
  ∧ requests (loadNews (served (VArr [])) fresh_page)
    = [js "./data/news.json?t=1793577600000"].
Proof.
  destruct (loaders_all_or_nothing (served (VArr [news_item; VNull]))
              fresh_page) as ((_ & _ & _ & _ & Hbad) & _ & Hnull & _).
  split.
  - rewrite (Hbad [news_item; VNull] VNull TypeError eq_refl); [reflexivity| |].
    + apply list_elem_of_In. right. left. reflexivity.
    + exact Hnull.
  - destruct (loaders_all_or_nothing (served (VObj [])) fresh_page)
      as (_ & (_ & _ & [->|Hshown] & _) & _).
    + split; [reflexivity|].
      destruct (loaders_all_or_nothing (served (VArr [])) fresh_page)
        as ((_ & -> & _) & _). vm_compute. reflexivity.
    + destruct Hshown as (items & cards & Hfetch & _). discriminate Hfetch.
Defined.

Lemma published_records_are_shown_witness :
  html_ok news_analysis = true
  ∧ news_container
      (dom (loadNews (served (VArr (unshift_and_trim news_item []))) fresh_page))
    = Some (NewsList [card_of_news news_analysis None news_id
                        (js "2/11/2026")]).
Proof.
  split; [reflexivity|].
  apply (proj1 (published_records_are_shown
                  (served (VArr (unshift_and_trim news_item [])))
                  news_analysis None photo_path news_id (js "2/11/2026")
                  1793577600003 [] fresh_page));
    [reflexivity|reflexivity|by eexists|reflexivity|reflexivity].
Defined.
